(** * Link-preview extraction core: a shallow embedding and its properties

    The development follows the JavaScript sources of the extraction
    pipeline (fetch service, content-type detector, schema detector, image
    processor, readability service, text summarizer, extraction
    orchestrator and the preview cache).  Part I holds the embedding, one module per source
    object; Part II the notions the statements use; Part III the lemmas
    and theorems.

    Conventions of the embedding.
    - A JavaScript string is a [string]: one [ascii] per UTF-16 code unit,
      for code units in the range U+0000..U+00FF.
    - A JavaScript value that may be [null] or [undefined] is an [option].
    - Code that may throw returns a [result]; an exception is represented by
      the [message] of the thrown [Error] object.
    - Integer-valued numbers (lengths, indices, timestamps, maxChars,
      maxImages, pixel dimensions) are [nat] or [Z]. *)

From Stdlib Require Import String Ascii List ZArith Lia Bool Arith.
From Stdlib Require Import Permutation Sorted.
Import ListNotations.
Open Scope list_scope.
Open Scope string_scope.
Open Scope nat_scope.

(* ================================================================== *)
(** * Part I: the embedding *)
(* ================================================================== *)

(** ** Exceptions *)

Module Js.

Inductive result (A : Type) : Type :=
| Ok (a : A)
| Throw (message : string).
Arguments Ok {A} a.
Arguments Throw {A} message.

Definition bind {A B} (r : result A) (k : A -> result B) : result B :=
  match r with
  | Ok a => k a
  | Throw m => Throw m
  end.

(** [try { body } catch (error) { handler(error) }] *)
Definition try_catch {A} (body : result A) (handler : string -> A) : A :=
  match body with
  | Ok a => a
  | Throw m => handler m
  end.

End Js.

Notation "x <- c1 ;; c2" := (Js.bind c1 (fun x => c2))
  (at level 61, c1 at next level, right associativity).

(** ** JavaScript strings *)

Module JsString.

Definition char (n : nat) : ascii := ascii_of_nat n.

(** [s.length] *)
Definition len (s : string) : Z := Z.of_nat (String.length s).

Fixpoint take (n : nat) (s : string) : string :=
  match n, s with
  | S n', String c s' => String c (take n' s')
  | _, _ => EmptyString
  end.

Fixpoint drop (n : nat) (s : string) : string :=
  match n, s with
  | S n', String _ s' => drop n' s'
  | _, _ => s
  end.

(** [s.substr(0, n)] for an integer [n]; a negative length gives [''] *)
Definition substr0 (s : string) (n : Z) : string := take (Z.to_nat n) s.

(** [s.startsWith(p)] *)
Definition startsWith (s p : string) : bool := String.prefix p s.

(** [s.includes(sub)] *)
Fixpoint includes (s sub : string) : bool :=
  String.prefix sub s ||
  match s with
  | EmptyString => false
  | String _ s' => includes s' sub
  end.

(** [s.endsWith(suffix)] *)
Definition endsWith (s suffix : string) : bool :=
  let n := String.length s in
  let m := String.length suffix in
  (m <=? n)%nat && String.eqb (drop (n - m) s) suffix.

(** [s.indexOf(sub)], [-1] when absent *)
Fixpoint indexOf_from (i : Z) (s sub : string) : Z :=
  if String.prefix sub s then i
  else match s with
       | EmptyString => (-1)%Z
       | String _ s' => indexOf_from (i + 1) s' sub
       end.
Definition indexOf (s sub : string) : Z := indexOf_from 0 s sub.

(** [s.lastIndexOf(sub)], [-1] when absent: the greatest index at which
    [sub] occurs *)
Fixpoint lastIndexOf_from (i : Z) (s sub : string) : Z :=
  let later :=
    match s with
    | EmptyString => (-1)%Z
    | String _ s' => lastIndexOf_from (i + 1) s' sub
    end in
  if (0 <=? later)%Z then later
  else if String.prefix sub s then i else (-1)%Z.
Definition lastIndexOf (s sub : string) : Z := lastIndexOf_from 0 s sub.

(** White space as matched by [\s] and removed by [trim()], among the
    code units below U+0100: TAB, LF, VT, FF, CR, SPACE and NBSP. *)
Definition isSpace (c : ascii) : bool :=
  let n := nat_of_ascii c in
  ((9 <=? n) && (n <=? 13)) || (n =? 32) || (n =? 160).

Fixpoint trimStart (s : string) : string :=
  match s with
  | String c s' => if isSpace c then trimStart s' else s
  | EmptyString => EmptyString
  end.

(** Removal of trailing white space; [trimEnd s] is empty exactly when
    [s] is all white space. *)
Fixpoint trimEnd (s : string) : string :=
  match s with
  | EmptyString => EmptyString
  | String c s' =>
      match trimEnd s' with
      | EmptyString => if isSpace c then EmptyString else String c EmptyString
      | t => String c t
      end
  end.

(** [s.trim()] *)
Definition trim (s : string) : string := trimEnd (trimStart s).

(** [s.toLowerCase()] on code units below U+0100: A-Z and the Latin-1
    capitals U+00C0..U+00DE other than the multiplication sign. *)
Definition lowerChar (c : ascii) : ascii :=
  let n := nat_of_ascii c in
  if ((65 <=? n) && (n <=? 90))
     || ((192 <=? n) && (n <=? 222) && negb (n =? 215))
  then ascii_of_nat (n + 32) else c.

Fixpoint toLowerCase (s : string) : string :=
  match s with
  | EmptyString => EmptyString
  | String c s' => String (lowerChar c) (toLowerCase s')
  end.

(** [s.replace(/\s+/g, ' ')]: every maximal run of white space becomes
    one space.  [inRun] tells that the previous character was white. *)
Fixpoint collapseSpaces_go (inRun : bool) (s : string) : string :=
  match s with
  | EmptyString => EmptyString
  | String c s' =>
      if isSpace c
      then if inRun then collapseSpaces_go true s'
           else String " " (collapseSpaces_go true s')
      else String c (collapseSpaces_go false s')
  end.
Definition collapseSpaces (s : string) : string := collapseSpaces_go false s.

(** [s.split(/\s+/)]: the pieces between the maximal runs of white space
    (the pattern never matches the empty string, so an empty [s] gives one
    empty piece).  [cur] is the piece being collected, [inRun] tells that
    the previous character was white. *)
Fixpoint splitSpaces_go (cur : string) (inRun : bool) (s : string)
  : list string :=
  match s with
  | EmptyString => [cur]
  | String c s' =>
      if isSpace c
      then if inRun then splitSpaces_go cur true s'
           else cur :: splitSpaces_go EmptyString true s'
      else splitSpaces_go (cur ++ String c EmptyString) false s'
  end.
Definition splitSpaces (s : string) : list string :=
  splitSpaces_go EmptyString false s.

(** Regular expressions of the form used for the abbreviations: a fixed
    sequence of literal characters and [.] wildcards (a wildcard matches
    one character that is not a line terminator: LF or CR below U+0100). *)
Inductive atom : Type :=
| Lit (c : ascii)
| AnyChar.

Definition isLineTerminator (c : ascii) : bool :=
  let n := nat_of_ascii c in (n =? 10) || (n =? 13).

Fixpoint matchAtoms (p : list atom) (s : string) : bool :=
  match p, s with
  | [], _ => true
  | Lit a :: p', String c s' => Ascii.eqb a c && matchAtoms p' s'
  | AnyChar :: p', String c s' => negb (isLineTerminator c) && matchAtoms p' s'
  | _ :: _, EmptyString => false
  end.

Fixpoint literal (s : string) : list atom :=
  match s with
  | EmptyString => []
  | String c s' => Lit c :: literal s'
  end.

(** [s.replace(new RegExp(p, 'g'), repl)] for a non-empty pattern [p] of
    atoms and a replacement without [$]: non-overlapping matches,
    leftmost first.  [skip] counts the characters of the current match
    still to be dropped. *)
Fixpoint replacePattern_go (p : list atom) (repl : string) (skip : nat)
                           (s : string) : string :=
  match s with
  | EmptyString => EmptyString
  | String c s' =>
      match skip with
      | S k => replacePattern_go p repl k s'
      | O =>
          match p with
          | _ :: p' =>
              if matchAtoms p s
              then repl ++ replacePattern_go p repl (List.length p') s'
              else String c (replacePattern_go p repl 0 s')
          | [] => String c (replacePattern_go p repl 0 s')
          end
      end
  end.
Definition replacePattern (p : list atom) (repl s : string) : string :=
  replacePattern_go p repl 0 s.

(** [s.replace(/lit/g, repl)] for a literal, non-empty [lit] *)
Definition replaceAll (lit repl s : string) : string :=
  replacePattern (literal lit) repl s.

(** The longest prefix whose characters satisfy [f], and the rest. *)
Fixpoint span (f : ascii -> bool) (s : string) : string * string :=
  match s with
  | String c s' =>
      if f c then let (a, b) := span f s' in (String c a, b)
      else (EmptyString, s)
  | EmptyString => (EmptyString, EmptyString)
  end.

(** [parts.join(sep)] *)
Fixpoint join (sep : string) (parts : list string) : string :=
  match parts with
  | [] => EmptyString
  | [x] => x
  | x :: rest => x ++ sep ++ join sep rest
  end.

(** [a || b] on possibly-null strings: the empty string is falsy *)
Definition or_else (a b : option string) : option string :=
  match a with
  | Some (String _ _) => a
  | _ => b
  end.

(** [a || ''] *)
Definition orEmpty (a : option string) : string :=
  match or_else a None with Some s => s | None => EmptyString end.

(** [a || null] *)
Definition orNull (a : option string) : option string := or_else a None.

(** Decimal rendering of a natural number (template-literal
    interpolation of an array index). *)
Definition digit (n : nat) : ascii := ascii_of_nat (48 + n).
Fixpoint ofNat_go (fuel n : nat) (acc : string) : string :=
  match fuel with
  | O => acc
  | S f =>
      let acc' := String (digit (n mod 10)) acc in
      if (n <? 10)%nat then acc' else ofNat_go f (n / 10) acc'
  end.
Definition ofNat (n : nat) : string := ofNat_go (S n) n EmptyString.

End JsString.

(** ** The preview cache ([src/services/previewGenerator.js]) *)

Module PreviewGenerator.

Section Cache.

(** The cached preview objects; the cache never inspects them. *)
Variable Preview : Type.

Record CacheEntry : Type := { preview : Preview; timestamp : Z }.

(** [this.cache = new Map()]: a JavaScript [Map] keeps its keys in
    insertion order, and [set] on a present key keeps its position. *)
Definition Cache : Type := list (string * CacheEntry).

Fixpoint Map_get (k : string) (m : Cache) : option CacheEntry :=
  match m with
  | [] => None
  | (k', v) :: m' => if String.eqb k' k then Some v else Map_get k m'
  end.

Fixpoint Map_set (k : string) (v : CacheEntry) (m : Cache) : Cache :=
  match m with
  | [] => [(k, v)]
  | (k', v') :: m' =>
      if String.eqb k' k then (k', v) :: m' else (k', v') :: Map_set k v m'
  end.

Fixpoint Map_delete (k : string) (m : Cache) : Cache :=
  match m with
  | [] => []
  | (k', v') :: m' =>
      if String.eqb k' k then m' else (k', v') :: Map_delete k m'
  end.

Definition Map_size (m : Cache) : Z := Z.of_nat (List.length m).

(** [this.cacheTimeout = 5 * 60 * 1000] *)
Definition cacheTimeout : Z := 5 * 60 * 1000.

(** [getCached(url)], with [now] the value of [Date.now()]; returns the
    result and the cache after the call. *)
Definition getCached (now : Z) (url : string) (cache : Cache)
  : option Preview * Cache :=
  match Map_get url cache with
  | None => (None, cache)
  | Some cached =>
      if (now - timestamp cached >? cacheTimeout)%Z
      then (None, Map_delete url cache)
      else (Some (preview cached), cache)
  end.

(** [setCached(url, preview)], with [now] the value of [Date.now()] *)
Definition setCached (now : Z) (url : string) (p : Preview) (cache : Cache)
  : Cache :=
  let cache1 :=
    if (Map_size cache >? 50)%Z
    then match cache with
         | (firstKey, _) :: _ => Map_delete firstKey cache
         | [] => cache
         end
    else cache in
  Map_set url {| preview := p; timestamp := now |} cache1.

(** [clearCache()] *)
Definition clearCache (cache : Cache) : Cache := [].

(** [clearExpiredCache()], with [now] the value of [Date.now()].  The loop
    runs over the entries of the map while deleting from it; deleting
    the entry being visited does not disturb the iteration, so every
    entry the map held at the start is visited once. *)
Fixpoint clearExpired_loop (now : Z) (entries : Cache) (cache : Cache)
  : Cache :=
  match entries with
  | [] => cache
  | (url, data) :: rest =>
      clearExpired_loop now rest
        (if (now - timestamp data >? cacheTimeout)%Z
         then Map_delete url cache
         else cache)
  end.
Definition clearExpiredCache (now : Z) (cache : Cache) : Cache :=
  clearExpired_loop now cache cache.

End Cache.

Arguments preview {Preview} _.
Arguments timestamp {Preview} _.
Arguments Map_get {Preview} k m.
Arguments Map_set {Preview} k v m.
Arguments Map_delete {Preview} k m.
Arguments getCached {Preview} now url cache.
Arguments setCached {Preview} now url p cache.
Arguments clearCache {Preview} cache.
Arguments clearExpired_loop {Preview} now entries cache.
Arguments clearExpiredCache {Preview} now cache.

End PreviewGenerator.

(** ** The text summarizer
    ([src/services/contentProcessing/textSummarizer.js]) *)

Module TextSummarizer.

Import JsString.

Definition abbreviations : list string :=
  ["Dr."; "Mr."; "Mrs."; "Ms."; "Prof."; "Sr."; "Jr."; "etc."; "vs.";
   "e.g."; "i.e."; "Inc."; "Co."; "Corp."; "Ltd."].

Definition placeholder : string := "<<ABBR>>".

(** [new RegExp(abbr.replace('.', '\\.'), 'g')]: [replace] with a string
    pattern escapes the first dot only, so a later dot of the
    abbreviation stays a wildcard. *)
Fixpoint abbrPattern_go (escaped : bool) (abbr : string) : list atom :=
  match abbr with
  | EmptyString => []
  | String c rest =>
      if Ascii.eqb c "."
      then (if escaped then AnyChar else Lit c) :: abbrPattern_go true rest
      else Lit c :: abbrPattern_go escaped rest
  end.
Definition abbrPattern (abbr : string) : list atom := abbrPattern_go false abbr.

(** [abbreviations.forEach((abbr, index) => ...)] with a running index *)
Fixpoint forEachAbbr (f : string -> nat -> string -> string)
                     (abbrs : list string) (index : nat) (text : string)
  : string :=
  match abbrs with
  | [] => text
  | abbr :: rest => forEachAbbr f rest (S index) (f abbr index text)
  end.

Definition protectAbbreviations (text : string) : string :=
  forEachAbbr
    (fun abbr index t =>
       replacePattern (abbrPattern abbr) (placeholder ++ ofNat index) t)
    abbreviations 0 text.

Definition restoreAbbreviations (sentence : string) : string :=
  forEachAbbr
    (fun abbr index t => replaceAll (placeholder ++ ofNat index) abbr t)
    abbreviations 0 sentence.

Definition isSentenceEnd (c : ascii) : bool :=
  Ascii.eqb c "." || Ascii.eqb c "!" || Ascii.eqb c "?".

Definition isUpperAZ (c : ascii) : bool :=
  let n := nat_of_ascii c in (65 <=? n) && (n <=? 90).

(** A match of [/([.!?]+)\s+(?=[A-Z])/] starting exactly at the head of
    [s]: the captured punctuation and the number of characters consumed.
    Both repetitions are greedy and giving characters back never helps
    (a shorter run is followed by a character of the same class), so the
    match exists exactly when the maximal runs are followed by [A-Z]. *)
Definition boundaryAt (s : string) : option (string * nat) :=
  let (punct, afterPunct) := span isSentenceEnd s in
  let (spaces, rest) := span isSpace afterPunct in
  match punct, spaces, rest with
  | String _ _, String _ _, String c _ =>
      if isUpperAZ c
      then Some (punct, String.length punct + String.length spaces)
      else None
  | _, _, _ => None
  end.

(** [text.split(sentenceRegex)]: the pieces between the matches,
    interleaved with the captured group of each match.  [seg] is the
    piece being collected, [skip] the characters of the current match
    still to be dropped. *)
Fixpoint split_go (s : string) (skip : nat) (seg : string) : list string :=
  match s with
  | EmptyString => [seg]
  | String c s' =>
      match skip with
      | S k => split_go s' k seg
      | O =>
          match boundaryAt s with
          | Some (punct, consumed) =>
              seg :: punct :: split_go s' (consumed - 1) EmptyString
          | None => split_go s' 0 (seg ++ String c EmptyString)
          end
      end
  end.
Definition splitOnBoundaries (text : string) : list string :=
  split_go text 0 EmptyString.

(** The loop [for (let i = 0; i < parts.length; i += 2)] *)
Fixpoint reconstruct (parts : list string) : list string :=
  match parts with
  | [] => []
  | [part] =>
      match trim part with
      | EmptyString => []
      | _ => [trim part]
      end
  | part :: punct :: rest =>
      match trim part with
      | EmptyString => reconstruct rest
      | _ => trim (part ++ punct) :: reconstruct rest
      end
  end.

Definition keepSentence (s : string) : bool :=
  (10 <? String.length s) && (3 <? List.length (splitSpaces s)).

Definition splitIntoSentences (text : string) : list string :=
  match text with
  | EmptyString => []
  | _ =>
      let text1 := trim (collapseSpaces text) in
      let text2 := protectAbbreviations text1 in
      let parts := splitOnBoundaries text2 in
      let sentences := reconstruct parts in
      let restoredSentences := map restoreAbbreviations sentences in
      filter keepSentence restoredSentences
  end.

(** [truncateToFit(text, maxChars)]; [pos > maxChars * 0.5] is compared
    on integers as [2 * pos > maxChars]. *)
Definition sentenceEndings : list string := [". "; "! "; "? "].

Definition bestBreakOf (truncated : string) (maxChars : Z) : Z :=
  fold_left
    (fun bestBreak ending =>
       let pos := lastIndexOf truncated ending in
       if ((2 * pos >? maxChars) && (pos >? bestBreak))%Z
       then pos else bestBreak)
    sentenceEndings (-1)%Z.

Definition truncateToFit (text : string) (maxChars : Z) : string :=
  match text with
  | EmptyString => EmptyString
  | _ =>
      if (len text <=? maxChars)%Z then text
      else
        let truncated := substr0 text maxChars in
        let bestBreak := bestBreakOf truncated maxChars in
        if (bestBreak >? 0)%Z then substr0 truncated (bestBreak + 1)
        else
          let lastSpace := lastIndexOf truncated " " in
          if (2 * lastSpace >? maxChars)%Z
          then substr0 truncated lastSpace ++ "..."
          else truncated ++ "..."
  end.

Record Scored : Type :=
  { sentence : string; score : Z; index : nat }.

(** [arr.sort((a, b) => b.score - a.score)]: a stable sort, descending
    by score. *)
Fixpoint insertByScore (x : Scored) (l : list Scored) : list Scored :=
  match l with
  | [] => [x]
  | y :: l' =>
      if (score y <=? score x)%Z then x :: l else y :: insertByScore x l'
  end.
Fixpoint sortByScore (l : list Scored) : list Scored :=
  match l with
  | [] => []
  | x :: l' => insertByScore x (sortByScore l')
  end.

(** [arr.sort((a, b) => a.index - b.index)]: stable, ascending by index *)
Fixpoint insertByIndex (x : Scored) (l : list Scored) : list Scored :=
  match l with
  | [] => [x]
  | y :: l' =>
      if (index x <=? index y) then x :: l else y :: insertByIndex x l'
  end.
Fixpoint sortByIndex (l : list Scored) : list Scored :=
  match l with
  | [] => []
  | x :: l' => insertByIndex x (sortByIndex l')
  end.

(** [arr.slice(0, k)] for an integer [k]; a negative [k] counts from the
    end. *)
Definition slice0 {A} (l : list A) (k : Z) : list A :=
  if (k <? 0)%Z then firstn (Z.to_nat (Z.of_nat (List.length l) + k)) l
  else firstn (Z.to_nat k) l.

Section Summarize.

(** [scoreSentence(sentence, calculateWordFrequency(text), index,
    totalSentences)] is a double computed by floating-point sums,
    divisions and products.  Every finite double is an integer
    multiple of 2^-1074, so its value is given here as that integer;
    the function itself is left arbitrary, and what is proved below
    holds whatever scores it assigns. *)
Variable scoreSentence : string -> string -> nat -> nat -> Z.

Fixpoint scoreAll (text : string) (total : nat) (i : nat)
                  (sentences : list string) : list Scored :=
  match sentences with
  | [] => []
  | s :: rest =>
      {| sentence := s; score := scoreSentence text s i total; index := i |}
        :: scoreAll text total (S i) rest
  end.

(** [summarize(text, maxSentences = 3, maxChars = 280)] for a string
    [text] and integers [maxSentences], [maxChars]. *)
Definition summarize (text : string) (maxSentences maxChars : Z) : string :=
  match text with
  | EmptyString => EmptyString
  | _ =>
      let sentences := splitIntoSentences text in
      match sentences with
      | [] => truncateToFit text maxChars
      | [first] => first
      | [first; _] => first
      | _ =>
          let total := List.length sentences in
          let scoredSentences :=
            sortByScore (scoreAll text total 0 sentences) in
          let topSentences :=
            sortByIndex
              (slice0 scoredSentences (Z.min maxSentences (Z.of_nat total))) in
          let summary := join " " (map sentence topSentences) in
          if (len summary >? maxChars)%Z
          then truncateToFit summary maxChars
          else summary
      end
  end.

End Summarize.

End TextSummarizer.

(** ** The parsed document

    A model of the part of the DOM the pipeline uses: a tree of elements
    and text nodes, and the queries [querySelector], [querySelectorAll],
    [closest], [getAttribute], [textContent], [nextElementSibling].  Tag
    and attribute names are stored in lower case, as the HTML parser
    leaves them.  Selectors are given as syntax trees; every selector of
    the sources is a valid literal, so a query never throws. *)

Module Dom.

Import JsString.

Definition attributes : Type := list (string * string).

#[warnings="-register-all"]
Inductive node : Type :=
| Text (data : string)
| Element (tag : string) (attrs : attributes) (children : list node).

(** What a selector can see of an element. *)
Record info : Type := { tag : string; attrs : attributes }.

(** An element together with its place in the tree. *)
Record element : Type :=
  { self : info;
    childNodes : list node;
    ancestors : list info;            (* nearest first *)
    nextElementSibling : option info }.

(** A document: the children of the document node. *)
Definition document : Type := list node.

Fixpoint lookup (name : string) (a : attributes) : option string :=
  match a with
  | [] => None
  | (n, v) :: rest => if String.eqb n name then Some v else lookup name rest
  end.

(** [el.getAttribute(name)]: [null] when absent *)
Definition getAttribute (e : element) (name : string) : option string :=
  lookup name (attrs (self e)).

(** [el.className] *)
Definition className (i : info) : string :=
  match lookup "class" (attrs i) with Some v => v | None => EmptyString end.

Fixpoint textOf (n : node) : string :=
  match n with
  | Text data => data
  | Element _ _ children =>
      (fix all (l : list node) : string :=
         match l with
         | [] => EmptyString
         | c :: rest => textOf c ++ all rest
         end) children
  end.

Definition textOfList (l : list node) : string :=
  String.concat "" (map textOf l).

(** [el.textContent] *)
Definition textContent (e : element) : string := textOfList (childNodes e).

(** *** Selectors *)

Inductive attrTest : Type :=
| HasAttr (name : string)                     (* [name] *)
| AttrEq (name value : string)                (* [name="value"] *)
| AttrContains (name value : string).         (* [name*="value"] *)

(** A compound selector: [tag#id.class[attr]...] *)
Record compound : Type :=
  { c_tag : option string;
    c_id : option string;
    c_classes : list string;
    c_attrs : list attrTest }.

(** A complex selector built with the descendant combinator. *)
Inductive selector : Type :=
| Simple (c : compound)
| Inside (outer : selector) (c : compound).   (* "outer c" *)

(** ASCII white space separating class names *)
Definition isClassSep (c : ascii) : bool :=
  let n := nat_of_ascii c in
  (n =? 32) || (n =? 9) || (n =? 10) || (n =? 12) || (n =? 13).

Fixpoint tokens_go (cur : string) (s : string) : list string :=
  match s with
  | EmptyString => match cur with EmptyString => [] | _ => [cur] end
  | String c s' =>
      if isClassSep c
      then match cur with
           | EmptyString => tokens_go EmptyString s'
           | _ => cur :: tokens_go EmptyString s'
           end
      else tokens_go (cur ++ String c EmptyString) s'
  end.
Definition classList (i : info) : list string :=
  tokens_go EmptyString (className i).

Definition mem (x : string) (l : list string) : bool :=
  existsb (String.eqb x) l.

Definition matchAttr (i : info) (t : attrTest) : bool :=
  match t with
  | HasAttr name =>
      match lookup name (attrs i) with Some _ => true | None => false end
  | AttrEq name value =>
      match lookup name (attrs i) with
      | Some v => String.eqb v value
      | None => false
      end
  | AttrContains name value =>
      match lookup name (attrs i), value with
      | Some v, String _ _ => includes v value
      | _, _ => false
      end
  end.

Definition matchCompound (c : compound) (i : info) : bool :=
  match c_tag c with Some t => String.eqb (tag i) t | None => true end
  && match c_id c with
     | Some x => match lookup "id" (attrs i) with
                 | Some v => String.eqb v x
                 | None => false
                 end
     | None => true
     end
  && forallb (fun cl => mem cl (classList i)) (c_classes c)
  && forallb (matchAttr i) (c_attrs c).

(** [el.matches(sel)], for an element [i] with ancestors [ancs] *)
Fixpoint matchesSel (sel : selector) (i : info) (ancs : list info) : bool :=
  match sel with
  | Simple c => matchCompound c i
  | Inside outer c =>
      matchCompound c i
      && (fix above (l : list info) : bool :=
            match l with
            | [] => false
            | a :: up => matchesSel outer a up || above up
            end) ancs
  end.

(** A selector list [s1, s2, ...] *)
Definition matchesAny (sels : list selector) (e : element) : bool :=
  existsb (fun s => matchesSel s (self e) (ancestors e)) sels.

Fixpoint firstElement (l : list node) : option info :=
  match l with
  | [] => None
  | Text _ :: rest => firstElement rest
  | Element t a _ :: _ => Some {| tag := t; attrs := a |}
  end.

(** The elements of a subtree in document order. *)
Fixpoint elementsOf (ancs : list info) (next : option info) (n : node)
  : list element :=
  match n with
  | Text _ => []
  | Element t a children =>
      let me := {| tag := t; attrs := a |} in
      {| self := me; childNodes := children;
         ancestors := ancs; nextElementSibling := next |}
      :: (fix siblings (l : list node) : list element :=
            match l with
            | [] => []
            | c :: rest =>
                (elementsOf (me :: ancs) (firstElement rest) c
                 ++ siblings rest)%list
            end) children
  end.

Fixpoint elementsOfList (ancs : list info) (l : list node) : list element :=
  match l with
  | [] => []
  | c :: rest =>
      (elementsOf ancs (firstElement rest) c ++ elementsOfList ancs rest)%list
  end.

(** [document.querySelectorAll(sels)] *)
Definition querySelectorAll (dom : document) (sels : list selector)
  : list element :=
  filter (matchesAny sels) (elementsOfList [] dom).

(** [document.querySelector(sels)] *)
Definition querySelector (dom : document) (sels : list selector)
  : option element :=
  hd_error (querySelectorAll dom sels).

(** [el.querySelectorAll(sels)]: the matching descendants of [el] *)
Definition querySelectorAllIn (e : element) (sels : list selector)
  : list element :=
  filter (matchesAny sels)
         (elementsOfList (self e :: ancestors e) (childNodes e)).

(** [el.closest(sel)] is not null *)
Fixpoint closestIn (sel : selector) (i : info) (ancs : list info) : bool :=
  matchesSel sel i ancs
  || match ancs with
     | [] => false
     | a :: up => closestIn sel a up
     end.
Definition hasClosest (e : element) (sel : selector) : bool :=
  closestIn sel (self e) (ancestors e).

(** Shorthands for the selectors of the sources. *)
Definition byTag (t : string) : compound :=
  {| c_tag := Some t; c_id := None; c_classes := []; c_attrs := [] |}.
Definition byClass (c : string) : compound :=
  {| c_tag := None; c_id := None; c_classes := [c]; c_attrs := [] |}.
Definition byId (i : string) : compound :=
  {| c_tag := None; c_id := Some i; c_classes := []; c_attrs := [] |}.
Definition byAttr (t : attrTest) : compound :=
  {| c_tag := None; c_id := None; c_classes := []; c_attrs := [t] |}.
Definition tagAttr (t : string) (a : attrTest) : compound :=
  {| c_tag := Some t; c_id := None; c_classes := []; c_attrs := [a] |}.

(** *** [parseInt] *)

Definition digitValue (radix : nat) (c : ascii) : option Z :=
  let n := nat_of_ascii c in
  let v := if (48 <=? n) && (n <=? 57) then Some (n - 48)
           else if (97 <=? n) && (n <=? 122) then Some (n - 87)
           else if (65 <=? n) && (n <=? 90) then Some (n - 55)
           else None in
  match v with
  | Some d => if d <? radix then Some (Z.of_nat d) else None
  | None => None
  end.

(** The value of the longest prefix of digits; [None] when empty. *)
Fixpoint digits (radix : nat) (acc : option Z) (s : string) : option Z :=
  match s with
  | EmptyString => acc
  | String c s' =>
      match digitValue radix c with
      | Some d =>
          digits radix
            (Some (match acc with
                   | Some a => a * Z.of_nat radix + d
                   | None => d
                   end)%Z) s'
      | None => acc
      end
  end.

(** [parseInt(s)] when [radix10] is false and [parseInt(s, 10)] when it
    is true; [None] stands for [NaN].  The value is the exact integer:
    thresholds compared with it below are small integers, on which the
    rounding to a double has no effect. *)
Definition parseInt (radix10 : bool) (s : string) : option Z :=
  let s1 := trimStart s in
  let (negative, s2) :=
    match s1 with
    | String "-" r => (true, r)
    | String "+" r => (false, r)
    | _ => (false, s1)
    end in
  let (radix, s3) :=
    if radix10 then (10, s2)
    else match s2 with
         | String "0" (String "x" r) => (16, r)
         | String "0" (String "X" r) => (16, r)
         | _ => (10, s2)
         end in
  match digits radix None s3 with
  | Some v => Some (if negative then (- v)%Z else v)
  | None => None
  end.

(** [document.documentElement]: the first element child of the document *)
Definition documentElement (dom : document) : option element :=
  hd_error (filter (fun e => match ancestors e with [] => true | _ => false end)
                   (elementsOfList [] dom)).

(** [document.body]: the first [body] or [frameset] child of the [html]
    element *)
Definition body (dom : document) : option element :=
  match documentElement dom with
  | Some root =>
      if String.eqb (tag (self root)) "html"
      then hd_error
             (filter (fun e =>
                        match ancestors e with
                        | [_] => String.eqb (tag (self e)) "body"
                                 || String.eqb (tag (self e)) "frameset"
                        | _ => false
                        end)
                     (elementsOfList [self root] (childNodes root)))
      else None
  | None => None
  end.

End Dom.

(** ** JSON values and [JSON.parse]

    A JSON string value is a list of UTF-16 code units, since a [\uXXXX]
    escape can denote any of them.  A number is kept as the exact decimal
    [mantissa * 10^exponent] the text denotes.  An object is built the way
    [JSON.parse] builds it: a repeated key overwrites the earlier value. *)

Module Json.

Import JsString.

Definition ustring : Type := list N.

Fixpoint codes (s : string) : ustring :=
  match s with
  | EmptyString => []
  | String c s' => N_of_ascii c :: codes s'
  end.

Fixpoint ustring_eqb (a b : ustring) : bool :=
  match a, b with
  | [], [] => true
  | x :: a', y :: b' => N.eqb x y && ustring_eqb a' b'
  | _, _ => false
  end.

#[warnings="-register-all"]
Inductive json : Type :=
| JNull
| JBool (b : bool)
| JNumber (mantissa exponent : Z)
| JString (s : ustring)
| JArray (items : list json)
| JObject (members : list (ustring * json)).

Fixpoint lookup (key : ustring) (members : list (ustring * json))
  : option json :=
  match members with
  | [] => None
  | (k, v) :: rest => if ustring_eqb k key then Some v else lookup key rest
  end.

(** [obj[key] = v] *)
Fixpoint setMember (key : ustring) (v : json) (members : list (ustring * json))
  : list (ustring * json) :=
  match members with
  | [] => [(key, v)]
  | (k, w) :: rest =>
      if ustring_eqb k key then (k, v) :: rest
      else (k, w) :: setMember key v rest
  end.

(** [v[key]] for a key that is neither an array index nor the name of a
    built-in property ([@type], [@graph], [offers], [price], ...):
    reading a property of [null] throws a [TypeError], any other value
    without the property gives [undefined]. *)
Definition getProp (v : json) (key : string) : Js.result (option json) :=
  match v with
  | JNull =>
      Js.Throw ("Cannot read properties of null (reading '" ++ key ++ "')")
  | JObject members => Js.Ok (lookup (codes key) members)
  | _ => Js.Ok None
  end.

(** [v?.[key]] on a possibly-undefined value *)
Definition getPropOpt (v : option json) (key : string) : option json :=
  match v with
  | Some (JObject members) => lookup (codes key) members
  | _ => None
  end.

(** [v === 'literal'] *)
Definition isString (v : option json) (s : string) : bool :=
  match v with
  | Some (JString u) => ustring_eqb u (codes s)
  | _ => false
  end.

(** The double nearest to [mantissa * 10^exponent] is zero: the decimal
    is zero or at most 2^-1075 in absolute value. *)
Definition isZero (mantissa exponent : Z) : bool :=
  ((mantissa =? 0)
   || ((exponent <? 0)
       && (Z.abs mantissa * 2 ^ 1075 <=? 10 ^ (- exponent))))%Z.

(** truthiness of a value that may be [undefined] *)
Definition truthy (v : option json) : bool :=
  match v with
  | None => false
  | Some JNull => false
  | Some (JBool b) => b
  | Some (JNumber m e) => negb (isZero m e)
  | Some (JString s) => match s with [] => false | _ => true end
  | Some (JArray _) => true
  | Some (JObject _) => true
  end.

(** *** The parser *)

Inductive parsed (A : Type) : Type :=
| Parsed (a : A) (rest : string)
| SyntaxError
| OutOfFuel.
Arguments Parsed {A} a rest.
Arguments SyntaxError {A}.
Arguments OutOfFuel {A}.

Definition isJsonSpace (c : ascii) : bool :=
  let n := nat_of_ascii c in
  (n =? 32) || (n =? 9) || (n =? 10) || (n =? 13).

Fixpoint skipSpace (s : string) : string :=
  match s with
  | String c s' => if isJsonSpace c then skipSpace s' else s
  | EmptyString => EmptyString
  end.

Definition isDigit (c : ascii) : bool :=
  let n := nat_of_ascii c in (48 <=? n) && (n <=? 57).

Definition hexValue (c : ascii) : option N :=
  match Dom.digitValue 16 c with
  | Some v => Some (Z.to_N v)
  | None => None
  end.

Definition consTo (c : N) (r : option (ustring * string))
  : option (ustring * string) :=
  match r with
  | Some (u, rest) => Some (c :: u, rest)
  | None => None
  end.

(** The characters of a string after its opening quote, up to and
    including the closing quote. *)
Fixpoint stringBody (s : string) : option (ustring * string) :=
  match s with
  | EmptyString => None
  | String c s' =>
      if Ascii.eqb c (char 34) then Some ([], s')
      else if Ascii.eqb c (char 92) then
        match s' with
        | String e s'' =>
            if Ascii.eqb e (char 34) then consTo 34%N (stringBody s'')
            else if Ascii.eqb e (char 92) then consTo 92%N (stringBody s'')
            else if Ascii.eqb e "/" then consTo 47%N (stringBody s'')
            else if Ascii.eqb e "b" then consTo 8%N (stringBody s'')
            else if Ascii.eqb e "f" then consTo 12%N (stringBody s'')
            else if Ascii.eqb e "n" then consTo 10%N (stringBody s'')
            else if Ascii.eqb e "r" then consTo 13%N (stringBody s'')
            else if Ascii.eqb e "t" then consTo 9%N (stringBody s'')
            else if Ascii.eqb e "u" then
              match s'' with
              | String h1 (String h2 (String h3 (String h4 s5))) =>
                  match hexValue h1, hexValue h2, hexValue h3, hexValue h4 with
                  | Some a, Some b, Some c', Some d =>
                      consTo (((a * 16 + b) * 16 + c') * 16 + d)%N
                             (stringBody s5)
                  | _, _, _, _ => None
                  end
              | _ => None
              end
            else None
        | EmptyString => None
        end
      else if nat_of_ascii c <? 32 then None
      else consTo (N_of_ascii c) (stringBody s')
  end.

Definition decimal (digits : string) : Z :=
  match Dom.digits 10 None digits with Some v => v | None => 0%Z end.

(** A number: an optional minus sign, an integer part without
    superfluous leading zero, an optional fraction and an optional
    exponent. *)
Definition number (s : string) : option (json * string) :=
  let (negative, s1) :=
    match s with String "-" r => (true, r) | _ => (false, s) end in
  let (intDigits, s2) := span isDigit s1 in
  let intOk :=
    match intDigits with
    | EmptyString => false
    | String "0" (String _ _) => false
    | _ => true
    end in
  let fraction :=
    match s2 with
    | String "." r =>
        let (d, r') := span isDigit r in
        match d with EmptyString => None | _ => Some (d, r') end
    | _ => Some (EmptyString, s2)
    end in
  match intOk, fraction with
  | true, Some (fracDigits, s3) =>
      let expo :=
        match s3 with
        | String e r =>
            if Ascii.eqb e "e" || Ascii.eqb e "E" then
              let (negExp, r1) :=
                match r with
                | String "-" r' => (true, r')
                | String "+" r' => (false, r')
                | _ => (false, r)
                end in
              let (d, r2) := span isDigit r1 in
              match d with
              | EmptyString => None
              | _ => Some (if negExp then (- decimal d)%Z else decimal d, r2)
              end
            else Some (0%Z, s3)
        | EmptyString => Some (0%Z, s3)
        end in
      match expo with
      | Some (e, rest) =>
          let m := decimal (intDigits ++ fracDigits) in
          Some (JNumber (if negative then (- m)%Z else m)
                        (e - Z.of_nat (String.length fracDigits)),
                rest)
      | None => None
      end
  | _, _ => None
  end.

Definition literal (word : string) (v : json) (s : string) : parsed json :=
  if String.prefix word s then Parsed v (drop (String.length word) s)
  else SyntaxError.

Definition ofOption {A} (r : option (A * string)) : parsed A :=
  match r with Some (a, rest) => Parsed a rest | None => SyntaxError end.

(** [value fuel s] reads one value at the head of [s];
    [elements fuel acc s] reads the rest of an array after [[] or [,];
    [members fuel acc s] reads the rest of an object after [{] or [,]. *)
Fixpoint value (fuel : nat) (s : string) : parsed json :=
  match fuel with
  | O => OutOfFuel
  | S fuel' =>
      match s with
      | EmptyString => SyntaxError
      | String c s' =>
          if Ascii.eqb c "{" then
            match skipSpace s' with
            | String "}" rest => Parsed (JObject []) rest
            | s1 => members fuel' [] s1
            end
          else if Ascii.eqb c "[" then
            match skipSpace s' with
            | String "]" rest => Parsed (JArray []) rest
            | s1 => elements fuel' [] s1
            end
          else if Ascii.eqb c (char 34) then
            match stringBody s' with
            | Some (u, rest) => Parsed (JString u) rest
            | None => SyntaxError
            end
          else if Ascii.eqb c "t" then literal "true" (JBool true) s
          else if Ascii.eqb c "f" then literal "false" (JBool false) s
          else if Ascii.eqb c "n" then literal "null" JNull s
          else ofOption (number s)
      end
  end

with elements (fuel : nat) (acc : list json) (s : string) : parsed json :=
  match fuel with
  | O => OutOfFuel
  | S fuel' =>
      match value fuel' s with
      | Parsed v rest =>
          match skipSpace rest with
          | String "," rest' => elements fuel' (acc ++ [v])%list (skipSpace rest')
          | String "]" rest' => Parsed (JArray (acc ++ [v])%list) rest'
          | _ => SyntaxError
          end
      | SyntaxError => SyntaxError
      | OutOfFuel => OutOfFuel
      end
  end

with members (fuel : nat) (acc : list (ustring * json)) (s : string)
  : parsed json :=
  match fuel with
  | O => OutOfFuel
  | S fuel' =>
      match s with
      | String q s' =>
          if Ascii.eqb q (char 34) then
            match stringBody s' with
            | Some (key, rest) =>
                match skipSpace rest with
                | String ":" rest' =>
                    match value fuel' (skipSpace rest') with
                    | Parsed v rest'' =>
                        match skipSpace rest'' with
                        | String "," r =>
                            members fuel' (setMember key v acc) (skipSpace r)
                        | String "}" r =>
                            Parsed (JObject (setMember key v acc)) r
                        | _ => SyntaxError
                        end
                    | SyntaxError => SyntaxError
                    | OutOfFuel => OutOfFuel
                    end
                | _ => SyntaxError
                end
            | None => SyntaxError
            end
          else SyntaxError
      | EmptyString => SyntaxError
      end
  end.

(** Two units of fuel for each character are enough (see
    [parse_fuel_enough] below). *)
Definition parseText (text : string) : parsed json :=
  value (2 * String.length text + 1) (skipSpace text).

(** [JSON.parse(text)]; the wording of the [SyntaxError] is not used
    anywhere. *)
Definition parse (text : string) : Js.result json :=
  match parseText text with
  | Parsed v rest =>
      match skipSpace rest with
      | EmptyString => Js.Ok v
      | _ => Js.Throw "Unexpected non-whitespace character after JSON"
      end
  | _ => Js.Throw "Unexpected token in JSON"
  end.

(** Writing JSON texts in Rocq: [q] turns every apostrophe into a double
    quote, [bs] every [|] into a backslash. *)
Fixpoint substChar (a b : ascii) (s : string) : string :=
  match s with
  | EmptyString => EmptyString
  | String c s' => String (if Ascii.eqb c a then b else c) (substChar a b s')
  end.
Definition q (s : string) : string := substChar "'" (char 34) s.

End Json.

(** ** The content-type detector ([src/utils/contentTypeDetector.js]) *)

Module ContentTypeDetector.

Import JsString Dom.

Definition videoSites : list string :=
  ["youtube.com"; "youtu.be"; "vimeo.com"; "dailymotion.com"; "twitch.tv";
   "ted.com"; "netflix.com"; "hulu.com"; "disneyplus.com"; "hbomax.com";
   "primevideo.com"; "video"].

Definition socialSites : list string :=
  ["twitter.com"; "x.com"; "facebook.com"; "instagram.com"; "linkedin.com";
   "pinterest.com"; "reddit.com"; "tumblr.com"; "threads.net"; "tiktok.com";
   "snapchat.com"; "mastodon"].

Definition ecommerceSites : list string :=
  ["amazon.com"; "ebay.com"; "walmart.com"; "etsy.com"; "shopify.com";
   "bestbuy.com"; "target.com"; "aliexpress.com"; "newegg.com";
   "wayfair.com"].

Definition productPathMarkers : list string :=
  ["/product/"; "/products/"; "/shop/"; "/item/"].

(** [sites.some(site => urlLower.includes(site))] *)
Definition includesSome (urlLower : string) (sites : list string) : bool :=
  existsb (includes urlLower) sites.

Definition isVideoSite (url : string) : bool :=
  includesSome (toLowerCase url) videoSites.

Definition isSocialSite (url : string) : bool :=
  includesSome (toLowerCase url) socialSites.

Definition isEcommerceSite (url : string) : bool :=
  let urlLower := toLowerCase url in
  includesSome urlLower ecommerceSites
  || includes urlLower "/product/"
  || includes urlLower "/products/"
  || includes urlLower "/shop/"
  || includes urlLower "/item/".

(** [script[type="application/ld+json"]] *)
Definition jsonLdScripts : list selector :=
  [Simple (tagAttr "script" (AttrEq "type" "application/ld+json"))].

(** [items.some(test)], where the test may throw *)
Fixpoint some (test : Json.json -> Js.result bool) (items : list Json.json)
  : Js.result bool :=
  match items with
  | [] => Js.Ok false
  | item :: rest =>
      b <- test item ;;
      if b then Js.Ok true else some test rest
  end.

(** [item['@type'] === t1 || item['@type'] === t2 || ...] *)
Definition typeIsOneOf (types : list string) (item : Json.json)
  : Js.result bool :=
  type <- Json.getProp item "@type" ;;
  Js.Ok (existsb (Json.isString type) types).

(** The body of the [try] block of [hasArticleSchema] for one script:
    [Ok true] stands for [return true], [Ok false] for falling through
    to the next script. *)
Definition articleSchemaIn (text : string) : Js.result bool :=
  data <- Json.parse text ;;
  direct <- typeIsOneOf ["Article"; "NewsArticle"; "BlogPosting";
                         "ScholarlyArticle"; "TechArticle"] data ;;
  if direct then Js.Ok true
  else match data with
       | Json.JArray items =>
           some (typeIsOneOf ["Article"; "NewsArticle"; "BlogPosting"]) items
       | _ => Js.Ok false
       end.

Definition productSchemaIn (text : string) : Js.result bool :=
  data <- Json.parse text ;;
  direct <- typeIsOneOf ["Product"; "Offer"; "ProductModel"] data ;;
  if direct then Js.Ok true
  else match data with
       | Json.JArray items => some (typeIsOneOf ["Product"; "Offer"]) items
       | _ => Js.Ok false
       end.

(** [for (const schema of schemas) { try { ... } catch (e) { errorCount++;
    if (errorCount > 5) break; } } return false;] *)
Fixpoint schemaLoop (body : string -> Js.result bool) (errorCount : nat)
                    (schemas : list element) : bool :=
  match schemas with
  | [] => false
  | schema :: rest =>
      match body (textContent schema) with
      | Js.Ok true => true
      | Js.Ok false => schemaLoop body errorCount rest
      | Js.Throw _ =>
          if 5 <? S errorCount then false
          else schemaLoop body (S errorCount) rest
      end
  end.

Definition hasArticleSchema (dom : document) : bool :=
  schemaLoop articleSchemaIn 0 (querySelectorAll dom jsonLdScripts).

Definition hasProductSchema (dom : document) : bool :=
  schemaLoop productSchemaIn 0 (querySelectorAll dom jsonLdScripts).

(** [dom.querySelector(sel)] is not null *)
Definition found (dom : document) (sel : selector) : bool :=
  match querySelector dom [sel] with Some _ => true | None => false end.

Definition articleSelectors : list selector :=
  [Simple (byClass "article"); Simple (byClass "post");
   Simple (byClass "blog-post"); Simple (byClass "news-article");
   Simple (byClass "story"); Simple (byClass "entry-content");
   Inside (Simple (byTag "main")) (byTag "article");
   Inside (Simple (byId "content")) (byTag "article");
   Simple (byAttr (AttrEq "role" "article"))].

Definition hasArticleStructure (dom : document) : bool :=
  if found dom (Simple (byTag "article")) then true
  else if existsb (found dom) articleSelectors then true
  else
    let hasAuthor :=
      found dom (Simple (byAttr (AttrEq "rel" "author")))
      || found dom (Simple (byClass "author"))
      || found dom (Simple (byAttr (AttrEq "itemprop" "author"))) in
    let hasDate :=
      found dom (Simple (byAttr (AttrEq "property" "datePublished")))
      || found dom (Simple (byClass "date"))
      || found dom (Simple (byTag "time"))
      || found dom (Simple (byAttr (AttrEq "itemprop" "datePublished"))) in
    hasAuthor && hasDate.

Definition productSelectors : list selector :=
  [Simple (byClass "product"); Simple (byClass "product-details");
   Simple (byClass "product-info"); Simple (byClass "product-description");
   Simple (byClass "product-price"); Simple (byClass "add-to-cart");
   Simple (byClass "buy-now");
   Simple (byAttr (AttrEq "itemprop" "price"));
   Simple (byAttr (AttrEq "itemprop" "offers"));
   Simple (byClass "price"); Simple (byClass "cart");
   Simple (byId "add-to-cart")].

Definition hasProductStructure (dom : document) : bool :=
  let productElementCount :=
    List.length (filter (found dom) productSelectors) in
  3 <=? productElementCount.

Definition gallerySelectors : list selector :=
  [Simple (byClass "gallery"); Simple (byClass "slideshow");
   Simple (byClass "carousel"); Simple (byClass "images");
   Simple (byClass "photos"); Simple (byAttr (HasAttr "data-gallery"));
   Simple (byClass "image-gallery"); Simple (byClass "photo-gallery")].

(** [parseInt(img.getAttribute(name) || '0')] *)
Definition dimension (img : element) (name : string) : option Z :=
  match or_else (getAttribute img name) (Some "0") with
  | Some s => parseInt false s
  | None => None
  end.

Definition greaterThan (v : option Z) (bound : Z) : bool :=
  match v with Some n => (bound <? n)%Z | None => false end.

(** [!v] for a number: zero or [NaN] *)
Definition numberFalsy (v : option Z) : bool :=
  match v with Some n => (n =? 0)%Z | None => true end.

Definition isSignificantImage (img : element) : bool :=
  let width := dimension img "width" in
  let height := dimension img "height" in
  let src := orEmpty (getAttribute img "src") in
  if includes src "tracking" || includes src "pixel" || includes src "icon"
  then false
  else (greaterThan width 100 && greaterThan height 100)
       || (numberFalsy width && numberFalsy height).

Definition hasGalleryStructure (dom : document) : bool :=
  if existsb (found dom) gallerySelectors then true
  else
    let images := querySelectorAll dom [Simple (byTag "img")] in
    if 5 <? List.length images
    then 4 <? List.length (filter isSignificantImage images)
    else false.

Definition videoSelectors : list selector :=
  [Simple (byClass "video"); Simple (byClass "video-player");
   Simple (byClass "video-container"); Simple (byClass "player");
   Simple (byAttr (HasAttr "data-video")); Simple (byClass "video-embed");
   Simple (byId "video-player")].

Definition hasVideoStructure (dom : document) : bool :=
  if found dom (Simple (byTag "video"))
     || found dom (Simple (tagAttr "iframe" (AttrContains "src" "youtube")))
     || found dom (Simple (tagAttr "iframe" (AttrContains "src" "vimeo")))
     || found dom (Simple (tagAttr "iframe" (AttrContains "src" "dailymotion")))
  then true
  else existsb (found dom) videoSelectors.

(** The loop of [hasSubstantialText], with its early exit *)
Fixpoint textLoop (blocks : list element) (textLength : nat) : bool :=
  match blocks with
  | [] => 1000 <? textLength
  | block :: rest =>
      let text := trim (textContent block) in
      let textLength := textLength + String.length text in
      if 1000 <? textLength then true else textLoop rest textLength
  end.

Definition hasSubstantialText (dom : document) : bool :=
  let contentBlocks :=
    querySelectorAll dom
      [Simple (byTag "p"); Simple (byTag "article"); Simple (byClass "content");
       Simple (byId "content"); Simple (byTag "main")] in
  let maxBlocks := 50 in
  textLoop (firstn maxBlocks contentBlocks) 0.

(** [detect(dom, url)] for a document or [null] and a string.  Inside the
    [try] block nothing throws on a document: the selectors are valid and
    the helpers catch what [JSON.parse] and the property reads throw; the
    handler, which returns ['default'], is kept as a [try_catch]. *)
Definition detect (dom : option document) (url : string) : string :=
  match dom, url with
  | None, _ => "default"
  | _, EmptyString => "default"
  | Some dom, _ =>
      Js.try_catch
        (Js.Ok
           (if isVideoSite url then "video"
            else if isSocialSite url then "social"
            else if isEcommerceSite url then "product"
            else if hasArticleSchema dom || hasArticleStructure dom
                 then "article"
            else if hasProductSchema dom || hasProductStructure dom
                 then "product"
            else if hasGalleryStructure dom then "gallery"
            else if hasVideoStructure dom then "video"
            else if hasSubstantialText dom then "article"
            else "default"))
        (fun _ => "default")
  end.

End ContentTypeDetector.

(** ** The schema detector ([src/services/schemaDetector.js]) *)

Module SchemaDetector.

Import JsString Dom.
Import Json.

(** The first class of [sanitizeJsonLdContent]:
    U+0000-U+0008, U+000B, U+000C, U+000E-U+001F *)
Definition isStrippedC0 (c : ascii) : bool :=
  let n := nat_of_ascii c in
  (n <=? 8) || (n =? 11) || (n =? 12) || ((14 <=? n) && (n <=? 31)).

(** The second class: U+007F-U+009F *)
Definition isStrippedC1 (c : ascii) : bool :=
  let n := nat_of_ascii c in (127 <=? n) && (n <=? 159).

(** [s.replace(/[class]/g, '')] *)
Fixpoint removeChars (class : ascii -> bool) (s : string) : string :=
  match s with
  | EmptyString => EmptyString
  | String c s' =>
      if class c then removeChars class s' else String c (removeChars class s')
  end.

Definition backslash : string := String (char 92) EmptyString.

(** [sanitizeJsonLdContent(content)]; the three [replace] calls do not
    throw on a string, so the handler of its [try] is never entered. *)
Definition sanitizeJsonLdContent (content : string) : string :=
  replaceAll (backslash ++ backslash) backslash
    (removeChars isStrippedC1 (removeChars isStrippedC0 content)).

(** [schemaType.includes(type)] on an array of JSON values *)
Definition arrayIncludes (items : list json) (type : string) : bool :=
  existsb (fun item => isString (Some item) type) items.

(** [{ ...schema }] for an array: its elements under their indices *)
Fixpoint spreadItems (i : nat) (items : list json) : list (ustring * json) :=
  match items with
  | [] => []
  | item :: rest => (codes (ofNat i), item) :: spreadItems (S i) rest
  end.

(** [normalizeSchema(schema)] *)
Definition normalizeSchema (schema : json) : json :=
  match schema with
  | JObject members =>
      match lookup (codes "@type") members with
      | Some (JArray [single]) =>
          JObject (setMember (codes "@type") single members)
      | _ => JObject members
      end
  | JArray items => JObject (spreadItems 0 items)
  | other => other
  end.

(** The callback of [schemas.find] in [findRelevantSchema] *)
Definition hasType (type : string) (schema : json) : bool :=
  match schema with
  | JObject members =>
      let schemaType := lookup (codes "@type") members in
      if truthy schemaType then
        isString schemaType type
        || match schemaType with
           | Some (JArray items) => arrayIncludes items type
           | _ => false
           end
      else false
  | _ => false
  end.

Definition priorityTypes : list string :=
  ["Article"; "NewsArticle"; "BlogPosting"; "ScholarlyArticle";
   "Product"; "Review"; "AggregateRating"; "Recipe";
   "VideoObject"; "Movie"; "TVEpisode"; "TVSeries";
   "Person"; "Organization"; "Event"; "Place";
   "WebPage"; "ItemList"; "ImageGallery"; "Book"].

(** [schema && schema['@type']] *)
Definition hasAnyType (schema : json) : bool :=
  match schema with
  | JObject members => truthy (lookup (codes "@type") members)
  | _ => false
  end.

Fixpoint firstOfPriority (types : list string) (schemas : list json)
  : option json :=
  match types with
  | [] => None
  | type :: rest =>
      match find (hasType type) schemas with
      | Some found => Some (normalizeSchema found)
      | None => firstOfPriority rest schemas
      end
  end.

(** [findRelevantSchema(schemas)] for a value that may be [undefined] *)
Definition findRelevantSchema (schemas : option json) : option json :=
  match schemas with
  | Some (JArray (first :: more)) =>
      let items := first :: more in
      match firstOfPriority priorityTypes items with
      | Some relevant => Some relevant
      | None =>
          match find hasAnyType items with
          | Some schema => Some (normalizeSchema schema)
          | None => None
          end
      end
  | _ => None
  end.

(** The body of the inner [try] of [extractJsonLdSchema] for one script:
    [Ok (Some v)] stands for [return v], [Ok None] for going on to the
    next script. *)
Definition schemaOfScript (script : element) : Js.result (option json) :=
  let textContent := trim (textContent script) in
  match textContent with
  | EmptyString => Js.Ok None
  | _ =>
      let textContent := sanitizeJsonLdContent textContent in
      jsonData <- Json.parse textContent ;;
      match jsonData with
      | JArray _ => Js.Ok (findRelevantSchema (Some jsonData))
      | _ =>
          graph <- getProp jsonData "@graph" ;;
          if truthy graph then Js.Ok (findRelevantSchema graph)
          else
            type <- getProp jsonData "@type" ;;
            if truthy type then Js.Ok (Some (normalizeSchema jsonData))
            else Js.Ok None
      end
  end.

(** [for (const script of scripts) { try { ... } catch (parseError) {
    continue; } } return null;] *)
Fixpoint scanScripts (scripts : list element) : option json :=
  match scripts with
  | [] => None
  | script :: rest =>
      match schemaOfScript script with
      | Js.Ok (Some schema) => Some schema
      | Js.Ok None => scanScripts rest
      | Js.Throw _ => scanScripts rest
      end
  end.

(** [extractJsonLdSchema(dom)] *)
Definition extractJsonLdSchema (dom : document) : option json :=
  scanScripts (querySelectorAll dom ContentTypeDetector.jsonLdScripts).

Section ExtractSchema.

(** [extractMicrodataSchema(dom)] and [extractRdfaSchema(dom)] build an
    object from [itemscope]/[itemprop] and [typeof]/[property] markup.
    Both catch every error and return [null] then.  They are not looked
    into here: what follows holds for any two such functions. *)
Variable extractMicrodataSchema : document -> option json.
Variable extractRdfaSchema : document -> option json.

(** [extractSchema(dom)] *)
Definition extractSchema (dom : option document) : option json :=
  match dom with
  | None => None
  | Some dom =>
      let jsonldSchema := extractJsonLdSchema dom in
      if truthy jsonldSchema then jsonldSchema
      else
        let microdataSchema := extractMicrodataSchema dom in
        if truthy microdataSchema then microdataSchema
        else
          let rdfaSchema := extractRdfaSchema dom in
          if truthy rdfaSchema then rdfaSchema
          else None
  end.

End ExtractSchema.

End SchemaDetector.

(** ** The image processor
    ([src/services/contentProcessing/imageProcessor.js]) *)

Module ImageProcessor.

Import JsString Dom.

(** What the pipeline reads of a [URL] object. *)
Record URL : Type :=
  { href : string; origin : string; pathname : string; search : string }.

Record ImageCandidate : Type :=
  { src : string;
    alt : string;
    width : option string;
    height : option string;
    priority : bool }.

(** The loop state of [extractImportantImages]: [finished] is set by
    [return images] inside the loops. *)
Record State : Type :=
  { images : list ImageCandidate;
    seenUrls : list string;
    finished : bool }.

Record ScoredImage : Type :=
  { sc_element : element; sc_src : string; sc_score : Z }.

Definition prioritySelectors : list selector :=
  [Simple (tagAttr "meta" (AttrEq "property" "og:image"));
   Simple (tagAttr "meta" (AttrEq "name" "twitter:image"));
   Simple (tagAttr "meta" (AttrEq "property" "twitter:image"));
   Simple (tagAttr "link" (AttrEq "rel" "image_src"));
   Inside (Simple (byTag "article")) (tagAttr "img" (HasAttr "src"));
   Inside (Simple (byClass "post-content")) (tagAttr "img" (HasAttr "src"));
   Inside (Simple (byClass "article-content")) (tagAttr "img" (HasAttr "src"));
   Inside (Simple (byTag "main")) (tagAttr "img" (HasAttr "src"));
   Inside (Simple (byClass "content")) (tagAttr "img" (HasAttr "src"));
   Inside (Simple (byClass "entry-content")) (tagAttr "img" (HasAttr "src"))].

(** The compound a selector text begins with *)
Fixpoint leftmost (sel : selector) : compound :=
  match sel with
  | Simple c => c
  | Inside outer _ => leftmost outer
  end.

(** [selector.startsWith('meta') || selector.startsWith('link')]: the
    text of a selector begins with the tag name of its leftmost compound,
    when it has one, and with [.], [#] or [[] otherwise. *)
Definition isMetaOrLink (sel : selector) : bool :=
  match c_tag (leftmost sel) with
  | Some t => startsWith t "meta" || startsWith t "link"
  | None => false
  end.

(** [v1 >= bound] and the like never hold for [NaN]; here the values are
    numbers already *)
Definition ratioInRange (w h : Z) : bool :=
  (if 0 <? h then (h <=? 2 * w) && (w <=? 2 * h)
   else (2 * w <=? h) && (2 * h <=? w))%Z.

(** [img.nextElementSibling && (img.nextElementSibling.tagName ===
    'FIGCAPTION' || img.nextElementSibling.className.includes('caption'))];
    [tagName] is the upper-cased tag name. *)
Definition hasCaptionSibling (img : element) : bool :=
  match nextElementSibling img with
  | Some next =>
      String.eqb (tag next) "figcaption" || includes (className next) "caption"
  | None => false
  end.

Definition uiWords : list string :=
  ["icon"; "logo"; "avatar"; "button"; "badge"; "sprite"].

(** [calculateImageScore(img)].  The quotient [width / height] is compared
    with 0.5 and 2.0 exactly, which agrees with the floating-point
    comparison for dimensions below 2^53. *)
Definition calculateImageScore (img : element) : Z :=
  (let s1 :=
     match getAttribute img "alt" with
     | Some a => if (0 <? String.length (trim a))%nat then 10 else 0
     | None => 0
     end in
   let s2 :=
     match getAttribute img "width", getAttribute img "height" with
     | Some ws, Some hs =>
         match parseInt true ws, parseInt true hs with
         | Some w, Some h =>
             if (w =? 0) || (h =? 0) then 0
             else
               (if (300 <=? w) && (200 <=? h) then 20
                else if (100 <=? w) && (100 <=? h) then 10
                else if (w <? 50) || (h <? 50) then -30
                else 0)
               + (if ratioInRange w h then 10 else 0)
         | _, _ => 0
         end
     | _, _ => 0
     end in
   let s3 := if hasClosest img (Simple (byTag "figure")) then 15 else 0 in
   let s4 := if hasCaptionSibling img then 15 else 0 in
   let s5 :=
     if hasClosest img (Simple (byTag "article"))
        || hasClosest img (Simple (byTag "main"))
        || hasClosest img (Simple (byClass "content"))
        || hasClosest img (Simple (byClass "post"))
     then 15 else 0 in
   let s6 :=
     match getAttribute img "src" with
     | Some (String c rest) =>
         let srcLower := toLowerCase (String c rest) in
         if existsb (includes srcLower) uiWords then -20 else 0
     | _ => 0
     end in
   let s7 :=
     match getAttribute img "loading" with
     | Some l =>
         if String.eqb l "lazy"
            && (hasClosest img (Simple (byTag "header"))
                || hasClosest img (Simple (byTag "footer"))
                || hasClosest img (Simple (byTag "nav")))
         then -10 else 0
     | None => 0
     end in
   s1 + s2 + s3 + s4 + s5 + s6 + s7)%Z.

(** [scoredImages.sort((a, b) => b.score - a.score)]: stable, descending *)
Fixpoint insertScored (x : ScoredImage) (l : list ScoredImage)
  : list ScoredImage :=
  match l with
  | [] => [x]
  | y :: l' =>
      if (sc_score y <=? sc_score x)%Z then x :: l else y :: insertScored x l'
  end.
Fixpoint sortScored (l : list ScoredImage) : list ScoredImage :=
  match l with
  | [] => []
  | x :: l' => insertScored x (sortScored l')
  end.

(** The image objects of [extractGalleryImages] *)
Module Gallery.

Record Image : Type :=
  { src : string;
    alt : string;
    width : option string;
    height : option string;
    caption : option string }.

(** The loop state: the images collected and the set [seenUrls] *)
Record State : Type :=
  { images : list Image;
    seenUrls : list string }.

End Gallery.

Definition gallerySelectors : list selector :=
  [Inside (Simple (byClass "gallery")) (byTag "img");
   Inside (Simple (byClass "slider")) (byTag "img");
   Inside (Simple (byClass "carousel")) (byTag "img");
   Inside (Simple (byClass "gallery-item")) (byTag "img");
   Inside (Simple (byClass "slideshow")) (byTag "img");
   Inside (Simple (byTag "figure")) (byTag "img")].

Section WithUrl.

(** [new URL(input)] and [new URL(input, base)] of the platform: the
    parsed URL, or [None] when the constructor throws.  The parser is left
    arbitrary. *)
Variable newURL : string -> option string -> option URL.

Definition imageExtensions : list string :=
  [".jpg"; ".jpeg"; ".png"; ".gif"; ".webp"; ".svg"; ".bmp"; ".ico"].

(** [isValidImageUrl(url)] for a string.  The test for SVG data URLs
    stands after the return for data URLs, as in the source. *)
Definition isValidImageUrl (url : string) : bool :=
  match url with
  | EmptyString => false
  | _ =>
      if startsWith url "data:" then 100 <? String.length url
      else if startsWith url "data:image/svg" then false
      else if startsWith url "/" || startsWith url "./" || startsWith url "../"
      then true
      else
        match newURL url None with
        | Some parsedUrl =>
            let path := toLowerCase (pathname parsedUrl) in
            let hasExtension := existsb (endsWith path) imageExtensions in
            let hasImagePattern :=
              includes path "/image" || includes path "/img"
              || includes path "/photo"
              || includes (search parsedUrl) "image" in
            hasExtension || hasImagePattern
        | None =>
            includes url ".jpg" || includes url ".png"
            || includes url ".gif" || includes url ".webp"
        end
  end.

(** [resolveImageUrl(imageUrl, baseUrl)] *)
Definition resolveImageUrl (imageUrl : string) (baseUrl : option string)
  : option string :=
  match imageUrl with
  | EmptyString => None
  | _ =>
      if startsWith imageUrl "http://" || startsWith imageUrl "https://"
      then Some imageUrl
      else if startsWith imageUrl "data:" then Some imageUrl
      else
        match baseUrl with
        | Some (String c rest) =>
            match newURL (String c rest) None with
            | Some base =>
                match newURL imageUrl (Some (origin base)) with
                | Some resolved => Some (href resolved)
                | None => None
                end
            | None => None
            end
        | _ => Some imageUrl
        end
  end.

(** One round of the inner loops over the matches of a priority selector;
    [fromMeta] selects the attributes read. *)
Definition visitPriority (fromMeta : bool) (maxImages : Z)
                         (baseUrl : option string)
                         (st : State) (element : element) : State :=
  let src :=
    if fromMeta
    then or_else (getAttribute element "content") (getAttribute element "href")
    else or_else (getAttribute element "src") (getAttribute element "data-src") in
  match src with
  | Some (String c rest) =>
      let src := String c rest in
      if isValidImageUrl src then
        match resolveImageUrl src baseUrl with
        | Some (String c' rest') =>
            let resolvedUrl := String c' rest' in
            if mem resolvedUrl (seenUrls st) then st
            else
              let image :=
                {| src := resolvedUrl;
                   alt := orEmpty (getAttribute element "alt");
                   width := if fromMeta then None
                            else orNull (getAttribute element "width");
                   height := if fromMeta then None
                             else orNull (getAttribute element "height");
                   priority := true |} in
              let images' := (images st ++ [image])%list in
              {| images := images';
                 seenUrls := (seenUrls st ++ [resolvedUrl])%list;
                 finished := (maxImages <=? Z.of_nat (List.length images'))%Z |}
        | _ => st
        end
      else st
  | _ => st
  end.

Fixpoint forElements (fromMeta : bool) (maxImages : Z) (baseUrl : option string)
                     (elements : list element) (st : State) : State :=
  match elements with
  | [] => st
  | element :: rest =>
      let st' := visitPriority fromMeta maxImages baseUrl st element in
      if finished st' then st'
      else forElements fromMeta maxImages baseUrl rest st'
  end.

Fixpoint forSelectors (dom : document) (maxImages : Z) (baseUrl : option string)
                      (selectors : list selector) (st : State) : State :=
  match selectors with
  | [] => st
  | selector :: rest =>
      let st' :=
        forElements (isMetaOrLink selector) maxImages baseUrl
                    (querySelectorAll dom [selector]) st in
      if finished st' then st'
      else forSelectors dom maxImages baseUrl rest st'
  end.

(** The first loop of the second phase: the images that are scored *)
Fixpoint scoreRemaining (baseUrl : option string) (seen : list string)
                        (remainingImages : list element) : list ScoredImage :=
  match remainingImages with
  | [] => []
  | img :: rest =>
      let others := scoreRemaining baseUrl seen rest in
      match or_else (getAttribute img "src") (getAttribute img "data-src") with
      | Some (String c r) =>
          let src := String c r in
          if isValidImageUrl src then
            match resolveImageUrl src baseUrl with
            | Some (String c' r') =>
                let resolvedUrl := String c' r' in
                if mem resolvedUrl seen then others
                else
                  let score := calculateImageScore img in
                  if (0 <? score)%Z
                  then {| sc_element := img; sc_src := resolvedUrl;
                          sc_score := score |} :: others
                  else others
            | _ => others
            end
          else others
      | _ => others
      end
  end.

(** The second loop of the second phase, with its [break] *)
Fixpoint addScored (maxImages : Z) (scoredImages : list ScoredImage)
                   (st : State) : State :=
  match scoredImages with
  | [] => st
  | x :: rest =>
      if (maxImages <=? Z.of_nat (List.length (images st)))%Z then st
      else
        let image :=
          {| src := sc_src x;
             alt := orEmpty (getAttribute (sc_element x) "alt");
             width := orNull (getAttribute (sc_element x) "width");
             height := orNull (getAttribute (sc_element x) "height");
             priority := false |} in
        addScored maxImages rest
          {| images := (images st ++ [image])%list;
             seenUrls := (seenUrls st ++ [sc_src x])%list;
             finished := finished st |}
  end.

(** [extractImportantImages(dom, maxImages = 5, baseUrl = null)].  The
    [try] around each priority selector has nothing to catch: the
    selectors are valid, and [isValidImageUrl] and [resolveImageUrl]
    catch what [new URL] throws. *)
Definition extractImportantImages (dom : option document) (maxImages : Z)
                                  (baseUrl : option string)
  : list ImageCandidate :=
  match dom with
  | None => []
  | Some dom =>
      let st1 :=
        forSelectors dom maxImages baseUrl prioritySelectors
          {| images := []; seenUrls := []; finished := false |} in
      if finished st1 then images st1
      else if (Z.of_nat (List.length (images st1)) <? maxImages)%Z then
        let remainingImages :=
          querySelectorAll dom [Simple (tagAttr "img" (HasAttr "src"));
                                Simple (tagAttr "img" (HasAttr "data-src"))] in
        let scoredImages :=
          sortScored (scoreRemaining baseUrl (seenUrls st1) remainingImages) in
        images (addScored maxImages scoredImages st1)
      else images st1
  end.

(** [extractCaption(img)] looks for a caption in the [figure] around the
    image, in its parent and in its next sibling, and falls back on the
    [alt] text; it catches every error and returns a string or [null].
    Which caption it finds has no influence on the images that are
    kept; it is left arbitrary. *)
Variable extractCaption : element -> option string.



End WithUrl.

End ImageProcessor.

(** ** The readability service
    ([src/services/contentProcessing/readabilityService.js]) *)

Module ReadabilityService.

Import JsString Dom.

Record Article : Type :=
  { title : string;
    content : option element;
    textContent : string;
    excerpt : string;
    readingTime : Z;
    wordCount : Z }.

(** [countWords(text)] *)
Definition countWords (text : string) : Z :=
  match text with
  | EmptyString => 0%Z
  | _ =>
      let words :=
        filter (fun word => 0 <? String.length word) (splitSpaces (trim text)) in
      Z.of_nat (List.length words)
  end.

(** [calculateReadingTime(text, wordsPerMinute = 200)]:
    [Math.ceil(wordCount / wordsPerMinute)] on integers *)
Definition calculateReadingTime (text : string) : Z :=
  let wordCount := countWords text in
  ((wordCount + 199) / 200)%Z.

(** [generateExcerpt(text, length = 150)]; [sentenceBreak > length * 0.5]
    is compared on integers. *)
Definition generateExcerpt (text : string) : string :=
  let length := 150%Z in
  match text with
  | EmptyString => EmptyString
  | _ =>
      if (len text <=? length)%Z then text
      else
        let truncated := substr0 text length in
        let sentenceBreak := lastIndexOf truncated "." in
        if (2 * sentenceBreak >? length)%Z
        then substr0 truncated (sentenceBreak + 1)
        else
          let lastSpace := lastIndexOf truncated " " in
          if (lastSpace >? 0)%Z then substr0 truncated lastSpace ++ "..."
          else truncated ++ "..."
  end.

Definition textSelectors : list selector :=
  map (fun t => Simple (byTag t))
      ["p"; "h1"; "h2"; "h3"; "h4"; "h5"; "h6"; "li"; "td"; "th";
       "blockquote"; "pre"].

(** [extractText(element)]; nothing in its [try] throws on an element *)
Definition extractText (element : option element) : string :=
  match element with
  | None => EmptyString
  | Some element =>
      let textElements := querySelectorAllIn element textSelectors in
      let text :=
        fold_left
          (fun text el =>
             let elementText := trim (Dom.textContent el) in
             if 0 <? String.length elementText
             then text ++ elementText ++ " "
             else text)
          textElements EmptyString in
      trim (collapseSpaces text)
  end.

(** The separators of the title pattern, a bar, a hyphen, U+2013,
    U+2014 and U+00BB, among the code units below U+0100 *)
Definition isTitleSeparator (c : ascii) : bool :=
  let n := nat_of_ascii c in (n =? 124) || (n =? 45) || (n =? 187).

Definition metaContent (dom : document) (attr value : string) : option string :=
  match querySelector dom [Simple (tagAttr "meta" (AttrEq attr value))] with
  | Some el => getAttribute el "content"
  | None => None
  end.

Definition textOfFirst (dom : document) (t : string) : option string :=
  match querySelector dom [Simple (byTag t)] with
  | Some el => Some (Dom.textContent el)
  | None => None
  end.

(** [extractTitle(dom)]; nothing in its [try] throws on a document *)
Definition extractTitle (dom : document) : string :=
  match metaContent dom "property" "og:title" with
  | Some (String c r) => trim (String c r)
  | _ =>
      match metaContent dom "name" "twitter:title" with
      | Some (String c r) => trim (String c r)
      | _ =>
          let fromTitleTag :=
            match textOfFirst dom "title" with
            | Some (String c r) =>
                let title := trim (String c r) in
                let title :=
                  trim (fst (span (fun c => negb (isTitleSeparator c)) title)) in
                if 0 <? String.length title then Some title else None
            | _ => None
            end in
          match fromTitleTag with
          | Some title => title
          | None =>
              match textOfFirst dom "h1" with
              | Some (String c r) => trim (String c r)
              | _ => "Untitled Article"
              end
          end
      end
  end.

(** The record returned by the handler of [parseArticle] *)
Definition degraded : Article :=
  {| title := "Untitled Article";
     content := None;
     textContent := EmptyString;
     excerpt := EmptyString;
     readingTime := 0;
     wordCount := 0 |}.

(** [a || b] on possibly-null elements *)
Definition orElement (a b : option element) : option element :=
  match a with Some _ => a | None => b end.

Section ParseArticle.

(** [findMainContent(dom)] picks the main content element, by a list of
    selectors and then by floating-point scores; [cleanContent(element)]
    works on a copy of it, from which it removes the unwanted elements.
    Both are left arbitrary, and may throw. *)
Variable findMainContent : document -> Js.result (option element).
Variable cleanContent : option element -> Js.result (option element).

(** [parseArticle(dom)] for a document or [null] *)
Definition parseArticle (dom : option document) : Js.result Article :=
  match dom with
  | None => Js.Throw "No DOM provided to parseArticle"
  | Some dom =>
      Js.Ok
        (Js.try_catch
           (article <- findMainContent dom ;;
            cleanedArticle <-
              cleanContent
                (orElement article
                   (orElement (body dom) (documentElement dom))) ;;
            let textContent := extractText cleanedArticle in
            let title := extractTitle dom in
            let readingTime := calculateReadingTime textContent in
            Js.Ok {| title := title;
                     content := cleanedArticle;
                     textContent := textContent;
                     excerpt := generateExcerpt textContent;
                     readingTime := readingTime;
                     wordCount := countWords textContent |})
           (fun _ => degraded))
  end.

End ParseArticle.

(** *** Cleaning the content *)

(** [element.cloneNode(true)]: a copy of the subtree, outside any
    document *)
Definition cloneNode (element : element) : Dom.element :=
  {| self := self element;
     childNodes := childNodes element;
     ancestors := [];
     nextElementSibling := None |}.

(** The subtree of [n] after [el.remove()] on each element of a list
    obtained from [querySelectorAll]: [doomed] tells whether an element,
    as it stood when the list was built, is on the list.  The list is
    built before anything is removed and holds an element before its
    descendants, so removing an element of a subtree that is already
    detached does not show in the result. *)
Fixpoint prune (doomed : element -> bool) (ancs : list info)
               (next : option info) (n : node) : option node :=
  match n with
  | Text data => Some (Text data)
  | Element t a children =>
      let me := {| tag := t; attrs := a |} in
      if doomed {| self := me; childNodes := children;
                   ancestors := ancs; nextElementSibling := next |}
      then None
      else
        Some (Element t a
                ((fix each (l : list node) : list node :=
                    match l with
                    | [] => []
                    | c :: rest =>
                        match prune doomed (me :: ancs) (firstElement rest) c with
                        | Some c' => c' :: each rest
                        | None => each rest
                        end
                    end) children))
  end.

Fixpoint pruneList (doomed : element -> bool) (ancs : list info)
                   (l : list node) : list node :=
  match l with
  | [] => []
  | c :: rest =>
      match prune doomed ancs (firstElement rest) c with
      | Some c' => c' :: pruneList doomed ancs rest
      | None => pruneList doomed ancs rest
      end
  end.

(** [root.querySelectorAll(...).forEach(el => el.remove())], for the
    elements below [root] that are [doomed] *)
Definition removeWhere (doomed : element -> bool) (root : element) : element :=
  {| self := self root;
     childNodes := pruneList doomed (self root :: ancestors root)
                             (childNodes root);
     ancestors := ancestors root;
     nextElementSibling := nextElementSibling root |}.

Definition unwantedSelectors : list selector :=
  [Simple (byTag "script"); Simple (byTag "style"); Simple (byTag "form");
   Simple (byTag "iframe"); Simple (byTag "nav"); Simple (byTag "object");
   Simple (byTag "embed");
   Simple (byClass "comment"); Simple (byClass "comments");
   Simple (byClass "comment-section");
   Simple (byClass "ad"); Simple (byClass "ads");
   Simple (byClass "advertisement"); Simple (byClass "adsbygoogle");
   Simple (byClass "share"); Simple (byClass "social");
   Simple (byClass "social-share");
   Simple (byClass "related"); Simple (byClass "related-posts");
   Simple (byClass "recommended");
   Simple (byTag "aside"); Simple (byClass "sidebar");
   Simple (byClass "widget"); Simple (byClass "promo");
   Simple (byClass "newsletter"); Simple (byClass "subscription");
   Simple (byClass "popup"); Simple (byClass "modal")].

(** The test of the second pass, for an element of
    [querySelectorAll('p, div, span')]: its text is blank and it holds
    no [img], [video] or [audio]. *)
Definition isEmptyBlock (el : element) : bool :=
  matchesAny [Simple (byTag "p"); Simple (byTag "div"); Simple (byTag "span")]
             el
  && (String.length (trim (Dom.textContent el)) =? 0)
  && match querySelectorAllIn el [Simple (byTag "img"); Simple (byTag "video");
                                  Simple (byTag "audio")] with
     | [] => true
     | _ :: _ => false
     end.

(** [cleanContent(element)]: the selectors are valid and [remove] does
    not throw, so the handlers of its [try] blocks are never entered. *)
Definition cleanContent (element : option element)
  : option Dom.element :=
  match element with
  | None => None
  | Some element =>
      let cleanedElement := cloneNode element in
      let cleanedElement :=
        fold_left (fun el selector => removeWhere (matchesAny [selector]) el)
                  unwantedSelectors cleanedElement in
      Some (removeWhere isEmptyBlock cleanedElement)
  end.

(** *** Finding the main content *)

Definition contentSelectors : list selector :=
  [Simple (byTag "article"); Simple (byAttr (AttrEq "role" "main"));
   Simple (byTag "main"); Simple (byClass "main-content");
   Simple (byClass "post-content"); Simple (byClass "article-content");
   Simple (byClass "entry-content"); Simple (byClass "article-body");
   Simple (byId "main-content"); Simple (byClass "content");
   Simple (byId "main")].

(** The loop of [findMainContent] over the selectors *)
Fixpoint firstContent (dom : document) (selectors : list selector)
  : option element :=
  match selectors with
  | [] => None
  | selector :: rest =>
      match querySelector dom [selector] with
      | Some element =>
          if 100 <? String.length (trim (Dom.textContent element))
          then Some element
          else firstContent dom rest
      | None => firstContent dom rest
      end
  end.

Section FindMainContent.

(** [findContentByScoring(dom)] ranks the candidates by a floating-point
    score; it catches every error and returns an element or [null].  It
    is left arbitrary. *)
Variable findContentByScoring : document -> option element.

(** [findMainContent(dom)] *)
Definition findMainContent (dom : document) : option element :=
  match firstContent dom contentSelectors with
  | Some element => Some element
  | None => findContentByScoring dom
  end.

End FindMainContent.

End ReadabilityService.

(** ** The fetch service
    ([src/services/contentProcessing/fetchService.js]) *)

Module FetchService.

Import JsString.

(** What one [chrome.runtime.sendMessage({ action: 'fetchUrl', url })]
    leads to, as the callback and the two timers of an attempt see it.
    The background script answers with [{ error }] or [{ content }],
    both strings. *)
Inductive Reply : Type :=
| LastError (message : string)               (* [chrome.runtime.lastError] is set *)
| Response (error content : option string)   (* a response object *)
| NoResponse                                 (* the callback gets no response *)
| Timeout                                    (* a timer fires first *)
| SendThrows (message : string).             (* [sendMessage] itself throws *)

(** The test applied to the message of [lastError], in the callback and
    after the last attempt *)
Definition contextInvalidated (message : string) : bool :=
  includes message "Extension context invalidated"
  || includes message "receiving end does not exist"
  || includes message "message port closed".

(** The promise of one attempt: resolved with [response.content], or
    rejected with an error message *)
Definition attemptOutcome (reply : Reply) : Js.result string :=
  match reply with
  | LastError error =>
      if contextInvalidated error
      then Js.Throw "Extension context invalidated"
      else Js.Throw error
  | Response error content =>
      match or_else error None with
      | Some e => Js.Throw e
      | None =>
          match or_else content None with
          | Some c => Js.Ok c
          | None => Js.Throw "Invalid response received"
          end
      end
  | NoResponse => Js.Throw "Invalid response received"
  | Timeout => Js.Throw "Request timeout"
  | SendThrows message => Js.Throw message
  end.

(** The loop [for (let attempt = 1; attempt <= 3; attempt++)]: the
    content returned by the first attempt that succeeds, or else the
    value of [lastError] (the message of the last failure) after the
    loop. *)
Fixpoint attemptLoop (replies : nat -> Reply) (attempts : list nat)
                     (lastError : option string) : string + option string :=
  match attempts with
  | [] => inr lastError
  | attempt :: rest =>
      match attemptOutcome (replies attempt) with
      | Js.Ok content => inl content
      | Js.Throw message => attemptLoop replies rest (Some message)
      end
  end.

(** [fetchContent(url)].  [contextValid] tells that [chrome.runtime.id]
    is there (the global [chrome] exists in a content script), [pingOk]
    that the background script answered the ping
    within a second without error; [replies] gives the reply to each
    attempt and [fallback] the outcome of [await this.fetchFallback(url)]
    (in an arrow function of a module, [this] is not the service object,
    so that this call can only throw; what follows holds for every
    outcome). *)
Definition fetchContent (contextValid pingOk : bool) (replies : nat -> Reply)
                        (fallback : Js.result string) : Js.result string :=
  let body : Js.result string :=
    if negb contextValid then Js.Throw "Extension context invalidated"
    else if negb pingOk then Js.Throw "Extension context invalidated"
    else
      match attemptLoop replies [1; 2; 3] None with
      | inl content => Js.Ok content
      | inr None =>
          Js.Throw "Cannot read properties of undefined (reading 'message')"
      | inr (Some lastError) =>
          if contextInvalidated lastError
          then match fallback with
               | Js.Ok content => Js.Ok content
               | Js.Throw _ =>
                   Js.Throw "Extension was reloaded. Please refresh the page to continue using link previews."
               end
          else Js.Throw lastError
      end in
  match body with
  | Js.Ok content => Js.Ok content
  | Js.Throw message => Js.Throw ("Failed to fetch content: " ++ message)
  end.

End FetchService.

(** ** The extraction orchestrator
    ([src/components/content/ContentExtractor.jsx]) *)

Module ContentExtractor.

Import JsString Dom.

(** The values of the fields of a preview object. *)
Inductive Value : Type :=
| VUndefined
| VNull
| VString (s : string)
| VJson (v : Json.json)
| VImages (images : list ImageProcessor.ImageCandidate)
| VImage (image : ImageProcessor.ImageCandidate).

(** A preview object: its fields in insertion order. *)
Definition PreviewData : Type := list (string * Value).

Fixpoint getField (name : string) (o : PreviewData) : option Value :=
  match o with
  | [] => None
  | (k, v) :: rest => if String.eqb k name then Some v else getField name rest
  end.

(** [{ ...o, name: v }] *)
Fixpoint setField (name : string) (v : Value) (o : PreviewData) : PreviewData :=
  match o with
  | [] => [(name, v)]
  | (k, w) :: rest =>
      if String.eqb k name then (k, v) :: rest
      else (k, w) :: setField name v rest
  end.

Definition ofString (s : option string) : Value :=
  match s with Some s => VString s | None => VNull end.

Definition ofJson (v : option Json.json) : Value :=
  match v with Some v => VJson v | None => VUndefined end.

(** [dom.querySelector(sel)] followed by a truthy [getAttribute(attr)] *)
Definition attributeOfFirst (dom : document) (sel : selector) (attr : string)
  : option string :=
  match querySelector dom [sel] with
  | Some el =>
      match getAttribute el attr with
      | Some (String c r) => Some (String c r)
      | _ => None
      end
  | None => None
  end.

(** [dom.querySelector(sel)] followed by a truthy [textContent] *)
Definition textOfFirst (dom : document) (sel : selector) : option string :=
  match querySelector dom [sel] with
  | Some el =>
      match textContent el with
      | String c r => Some (String c r)
      | EmptyString => None
      end
  | None => None
  end.

(** [extractTitle(dom)] *)
Definition extractTitle (dom : document) : string :=
  match attributeOfFirst dom
          (Simple (tagAttr "meta" (AttrEq "property" "og:title"))) "content" with
  | Some t => t
  | None =>
      match textOfFirst dom (Simple (byTag "title")) with
      | Some t => trim t
      | None => "Untitled Page"
      end
  end.

(** [extractDescription(dom)] *)
Definition extractDescription (dom : document) : string :=
  match attributeOfFirst dom
          (Simple (tagAttr "meta" (AttrEq "name" "description"))) "content" with
  | Some d => d
  | None =>
      match attributeOfFirst dom
              (Simple (tagAttr "meta" (AttrEq "property" "og:description")))
              "content" with
      | Some d => d
      | None =>
          match textOfFirst dom (Simple (byTag "p")) with
          | Some t => trim t
          | None => "No description available"
          end
      end
  end.

(** The first selector of the list whose element yields a value *)
Fixpoint firstOf {A} (f : selector -> option A) (sels : list selector)
  : option A :=
  match sels with
  | [] => None
  | sel :: rest =>
      match f sel with
      | Some a => Some a
      | None => firstOf f rest
      end
  end.

Definition isPriceChar (c : ascii) : bool :=
  Json.isDigit c || Ascii.eqb c "." || Ascii.eqb c ",".

(** [extractPrice(dom)] *)
Definition extractPrice (dom : document) : option string :=
  match attributeOfFirst dom (Simple (byAttr (AttrEq "itemprop" "price")))
                         "content" with
  | Some p => Some p
  | None =>
      firstOf
        (fun sel =>
           match textOfFirst dom sel with
           | Some t =>
               match SchemaDetector.removeChars
                       (fun c => negb (isPriceChar c)) (trim t) with
               | String c r => Some (String c r)
               | EmptyString => None
               end
           | None => None
           end)
        [Simple (byClass "price"); Simple (byClass "product-price");
         Simple (byClass "offer-price"); Simple (byClass "regular-price");
         Simple (byClass "current-price")]
  end.

(** The first match of [/(\d+(\.\d+)?)/] in a text *)
Fixpoint firstNumber (s : string) : option string :=
  match s with
  | EmptyString => None
  | String c s' =>
      if Json.isDigit c then
        let (whole, rest) := span Json.isDigit s in
        match rest with
        | String "." rest' =>
            match span Json.isDigit rest' with
            | (String d ds, _) => Some (whole ++ "." ++ String d ds)
            | _ => Some whole
            end
        | _ => Some whole
        end
      else firstNumber s'
  end.

(** [extractRating(dom)] *)
Definition extractRating (dom : document) : option string :=
  match attributeOfFirst dom (Simple (byAttr (AttrEq "itemprop" "ratingValue")))
                         "content" with
  | Some r => Some r
  | None =>
      firstOf
        (fun sel =>
           match textOfFirst dom sel with
           | Some t => firstNumber t
           | None => None
           end)
        [Simple (byClass "rating"); Simple (byClass "product-rating");
         Simple (byClass "review-rating"); Simple (byClass "stars")]
  end.

(** [extractAvailability(dom)] *)
Definition extractAvailability (dom : document) : option string :=
  match attributeOfFirst dom (Simple (byAttr (AttrEq "itemprop" "availability")))
                         "content" with
  | Some a => Some a
  | None =>
      firstOf
        (fun sel =>
           match textOfFirst dom sel with
           | Some t => Some (trim t)
           | None => None
           end)
        [Simple (byClass "availability"); Simple (byClass "stock-status");
         Simple (byClass "in-stock"); Simple (byClass "out-of-stock")]
  end.

(** [imageProcessor.extractProductImages(dom)].  The [imageProcessor]
    object has the methods [extractImportantImages], [extractGalleryImages],
    [calculateImageScore], [extractCaption], [isValidImageUrl] and
    [resolveImageUrl], and none called [extractProductImages]: the read
    gives [undefined], and calling it throws a [TypeError]. *)
Definition extractProductImages (dom : document)
  : Js.result (list ImageProcessor.ImageCandidate) :=
  Js.Throw "imageProcessor.extractProductImages is not a function".

(** [images.length > 0 ? images[0] : null] *)
Definition mainImageOf (images : list ImageProcessor.ImageCandidate) : Value :=
  match images with
  | first :: _ => VImage first
  | [] => VNull
  end.

(** [processProduct(dom, previewData, schema)] *)
Definition processProduct (dom : document) (previewData : PreviewData)
                          (schema : option Json.json) : Js.result PreviewData :=
  let '(price, rating, availability) :=
    if Json.truthy schema
       && Json.isString (Json.getPropOpt schema "@type") "Product"
    then
      (ofJson (Json.getPropOpt (Json.getPropOpt schema "offers") "price"),
       ofJson (Json.getPropOpt (Json.getPropOpt schema "aggregateRating")
                               "ratingValue"),
       ofJson (Json.getPropOpt (Json.getPropOpt schema "offers")
                               "availability"))
    else
      (ofString (extractPrice dom),
       ofString (extractRating dom),
       ofString (extractAvailability dom)) in
  images <- extractProductImages dom ;;
  Js.Ok
    (setField "description" (VString (extractDescription dom))
       (setField "mainImage" (mainImageOf images)
          (setField "images" (VImages images)
             (setField "availability" availability
                (setField "rating" rating
                   (setField "price" price previewData)))))).

(** The [if]/[else if] chain of the handler: the title and the message
    shown for an error message. *)
Definition describeError (text : option string) (message : string)
  : string * string :=
  let title :=
    match or_else text None with
    | Some t => t
    | None => "Preview unavailable"
    end in
  if includes message "Extension context invalidated"
     || includes message "Extension was reloaded"
  then ("Extension Reloaded",
        "The extension was updated or reloaded. Please refresh this page to continue using link previews.")
  else if includes message "Mixed content blocked"
  then ("Security Blocked",
        "Cannot load HTTP content from HTTPS page due to browser security policies.")
  else if includes message "CORS" || includes message "Failed to fetch"
  then (title,
        "This website blocks external preview requests for security reasons.")
  else if includes message "timeout" || includes message "Request timeout"
  then (title,
        "Preview request timed out. The website may be slow to respond.")
  else if includes message "Network error" || includes message "net::"
  then (title,
        "Network connection issue. Please check your internet connection.")
  else if includes message "404" || includes message "Not Found"
  then (title, "The requested page could not be found.")
  else if includes message "403" || includes message "Forbidden"
  then (title, "Access to this content is restricted or forbidden.")
  else if includes message "500" || includes message "Server Error"
  then (title, "The server encountered an error. Please try again later.")
  else (title, "Unable to load preview for this link.").

(** The object handed to [onExtracted] by the handler *)
Definition errorRecord (url : string) (text : option string) (message : string)
  : PreviewData :=
  let (title, userMessage) := describeError text message in
  [("url", VString url);
   ("contentType", VString "error");
   ("title", VString title);
   ("description", VString userMessage);
   ("error", VString message)].

Section Extract.

(** The platform: the HTML parser behind [DOMParser.parseFromString(html,
    'text/html')], which returns a document for every string, and the
    clock behind [new Date().toISOString()]. *)
Variable parseFromString : string -> document.
Variable nowISO : string.

(** The microdata and RDFa extractors of the schema detector. *)
Variable extractMicrodataSchema : document -> option Json.json.
Variable extractRdfaSchema : document -> option Json.json.

(** The processing of the other content types, which may throw: each
    takes the document and the initial preview object ([processVideo] and
    [processSocial] the schema as well) and returns the preview object. *)
Variable processArticle : document -> PreviewData -> Js.result PreviewData.
Variable processGallery : document -> PreviewData -> Js.result PreviewData.
Variable processVideo :
  document -> PreviewData -> option Json.json -> Js.result PreviewData.
Variable processSocial :
  document -> PreviewData -> option Json.json -> Js.result PreviewData.
Variable processDefault : document -> PreviewData -> Js.result PreviewData.

(** [domParser.parseHTML(htmlString)] *)
Definition parseHTML (htmlString : string) : Js.result document :=
  match htmlString with
  | EmptyString => Js.Throw "Invalid HTML string provided"
  | _ => Js.Ok (parseFromString htmlString)
  end.

(** The [try] block of [extract], up to the call of [onExtracted];
    [fetched] is the outcome of [await fetchService.fetchContent(url)]. *)
Definition extractBody (fetched : Js.result string) (url : string)
                       (text : option string) : Js.result PreviewData :=
  content <- fetched ;;
  match trim content with
  | EmptyString => Js.Throw "Empty content received from URL"
  | _ =>
      parsedDom <- parseHTML content ;;
      let contentType := ContentTypeDetector.detect (Some parsedDom) url in
      let schema :=
        SchemaDetector.extractSchema extractMicrodataSchema extractRdfaSchema
                                     (Some parsedDom) in
      let previewData : PreviewData :=
        [("url", VString url);
         ("contentType", VString contentType);
         ("title", VString (match or_else text None with
                            | Some t => t
                            | None => extractTitle parsedDom
                            end));
         ("sourceUrl", VString url);
         ("timestamp", VString nowISO)] in
      if String.eqb contentType "article"
      then processArticle parsedDom previewData
      else if String.eqb contentType "product"
      then processProduct parsedDom previewData schema
      else if String.eqb contentType "gallery"
      then processGallery parsedDom previewData
      else if String.eqb contentType "video"
      then processVideo parsedDom previewData schema
      else if String.eqb contentType "social"
      then processSocial parsedDom previewData schema
      else processDefault parsedDom previewData
  end.

(** [extract(url, text, linkElement)]: the objects handed to the callback
    [onExtracted], in order.  The callback is the state setter of the
    parent component and returns normally. *)
Definition extract (fetched : Js.result string) (url : string)
                   (text : option string) : list PreviewData :=
  [Js.try_catch (extractBody fetched url text) (errorRecord url text)].

End Extract.

Section ProcessDefault.

(** [new URL(...)] of the platform, used by the image processor *)
Variable newURL : string -> option string -> option ImageProcessor.URL.

(** [processDefault(dom, previewData)]; [extractImportantImages(dom)] is
    called with its default quota of 5 and without base URL. *)
Definition processDefault (dom : document) (previewData : PreviewData)
  : Js.result PreviewData :=
  let description := extractDescription dom in
  let images :=
    ImageProcessor.extractImportantImages newURL (Some dom) 5 None in
  Js.Ok
    (setField "mainImage" (mainImageOf images)
       (setField "images" (VImages images)
          (setField "description" (VString description) previewData))).

End ProcessDefault.

End ContentExtractor.

(* ================================================================== *)
(** * Part II: notions used in the statements *)
(* ================================================================== *)

(** ** Content types and URLs *)

Section DetectorNotions.

Import JsString Dom ContentTypeDetector.

(** The values [detect] may return. *)
Definition contentTypes : list string :=
  ["article"; "product"; "video"; "social"; "gallery"; "default"].

(** The classification by steps 4 to 9, which reads the document only. *)
Definition documentType (dom : document) : string :=
  if hasArticleSchema dom || hasArticleStructure dom then "article"
  else if hasProductSchema dom || hasProductStructure dom then "product"
  else if hasGalleryStructure dom then "gallery"
  else if hasVideoStructure dom then "video"
  else if hasSubstantialText dom then "article"
  else "default".

(** The host and the path of a URL, as a reader of the host lists
    understands them. *)
Definition isAuthorityEnd (c : ascii) : bool :=
  Ascii.eqb c "/" || Ascii.eqb c "?" || Ascii.eqb c "#".

(** The part of the URL after [scheme://] *)
Definition afterScheme (url : string) : string :=
  let i := indexOf url "://" in
  if (i <? 0)%Z then url else drop (Z.to_nat i + 3) url.

(** The host: the authority without user information and port *)
Definition hostOf (url : string) : string :=
  let authority :=
    fst (span (fun c => negb (isAuthorityEnd c)) (afterScheme url)) in
  let i := lastIndexOf authority "@" in
  let hostPort :=
    if (i <? 0)%Z then authority else drop (Z.to_nat i + 1) authority in
  toLowerCase (fst (span (fun c => negb (Ascii.eqb c ":")) hostPort)).

(** The path: from the end of the authority to the query or fragment *)
Definition pathOf (url : string) : string :=
  let rest := snd (span (fun c => negb (isAuthorityEnd c)) (afterScheme url)) in
  fst (span (fun c => negb (Ascii.eqb c "?" || Ascii.eqb c "#")) rest).

(** The host is a listed domain or one of its subdomains *)
Definition hostOnList (sites : list string) (url : string) : bool :=
  existsb (fun site => String.eqb (hostOf url) site
                       || endsWith (hostOf url) ("." ++ site))
          sites.

(** The path holds one of the product markers *)
Definition pathHasProductMarker (url : string) : bool :=
  existsb (includes (toLowerCase (pathOf url)))
          ContentTypeDetector.productPathMarkers.

End DetectorNotions.

(** ** Images *)

Section ImageNotions.

Import JsString Dom ImageProcessor.

Variable newURL : string -> option string -> option URL.
Variable maxImages : Z.
Variable baseUrl : option string.

(** A returned [src] comes from an attribute value [raw] that passed
    [isValidImageUrl] and that [resolveImageUrl] turned into it. *)
Definition accepted (s : string) : Prop :=
  exists raw,
    isValidImageUrl newURL raw = true
    /\ resolveImageUrl newURL raw baseUrl = Some s
    /\ s <> EmptyString.

(** What the first phase keeps true of its state, whatever [maxImages]. *)
Definition SeenInv (st : State) : Prop :=
  map src (images st) = seenUrls st
  /\ NoDup (seenUrls st)
  /\ Forall (fun c => priority c = true /\ accepted (src c)) (images st).


(** The state before the first phase *)
Definition initialState : State :=
  {| images := []; seenUrls := []; finished := false |}.

End ImageNotions.


(** ** Two runs of the image extraction with different quotas *)

(** How the state of the first phase under a quota relates to the state
    under a larger quota at the same point of the loops: both runs are
    still going and agree, or the run with the smaller quota has
    stopped and the other one has gone on adding images. *)
Definition Ahead (st st' : ImageProcessor.State) : Prop :=
  (ImageProcessor.finished st = false
   /\ ImageProcessor.finished st' = false
   /\ ImageProcessor.images st = ImageProcessor.images st'
   /\ ImageProcessor.seenUrls st = ImageProcessor.seenUrls st')
  \/ (ImageProcessor.finished st = true
      /\ exists more,
           ImageProcessor.images st'
           = (ImageProcessor.images st ++ more)%list).

(** No URL can be parsed: the parser is not consulted on the pages of the
    examples, whose addresses begin with [/] or [data:]. *)
Definition noURL (input : string) (base : option string)
  : option ImageProcessor.URL := None.



(** A page whose body holds one image with a relative address. *)
Definition C5_page : Dom.document :=
  [Dom.Element "html" []
     [Dom.Element "head" [] [];
      Dom.Element "body" []
        [Dom.Element "img" [("src", "/a.jpg"); ("alt", "A")] []]]].

(** Two images with the same address, both with a positive score. *)
Definition twice_page : Dom.document :=
  [Dom.Element "html" []
     [Dom.Element "head" [] [];
      Dom.Element "body" []
        [Dom.Element "img" [("src", "/a.jpg"); ("alt", "A")] [];
         Dom.Element "img" [("src", "/a.jpg"); ("alt", "B")] []]]].

(** An inline SVG data URI of 114 characters. *)
Definition svg_data_uri : string :=
  "data:image/svg+xml;utf8,<svg xmlns='http://www.w3.org/2000/svg' "
  ++ "width='400' height='300'><rect width='400'/></svg>".

(** A page whose only image is that data URI, as its Open Graph image. *)
Definition svg_page : Dom.document :=
  [Dom.Element "html" []
     [Dom.Element "head" []
        [Dom.Element "meta"
           [("property", "og:image"); ("content", svg_data_uri)] []];
      Dom.Element "body" [] []]].


(** ** Structured data *)

(** What the first two replacements of the sanitizer leave. *)
Definition withoutStripped (content : string) : string :=
  SchemaDetector.removeChars SchemaDetector.isStrippedC1
    (SchemaDetector.removeChars SchemaDetector.isStrippedC0 content).

(** The control characters: U+0000-U+001F and U+007F-U+009F *)
Definition isControl (c : ascii) : bool :=
  let n := nat_of_ascii c in (n <=? 31) || ((127 <=? n) && (n <=? 159)).

(** A JSON-LD script element with the given text. *)
Definition jsonLdScript (text : string) : Dom.element :=
  {| Dom.self := {| Dom.tag := "script";
                    Dom.attrs := [("type", "application/ld+json")] |};
     Dom.childNodes := [Dom.Text text];
     Dom.ancestors := [];
     Dom.nextElementSibling := None |}.

(** The raw characters U+0001 and TAB *)
Definition U0001 : string := String (JsString.char 1) EmptyString.
Definition TAB : string := String (JsString.char 9) EmptyString.

(** ** Error messages and the product scenario *)

(** The categories of the handler in the order in which they are tried:
    the markers looked for in the error message, and the message shown. *)
Definition errorCategories : list (list string * string) :=
  [(["Extension context invalidated"; "Extension was reloaded"],
    "The extension was updated or reloaded. Please refresh this page to continue using link previews.");
   (["Mixed content blocked"],
    "Cannot load HTTP content from HTTPS page due to browser security policies.");
   (["CORS"; "Failed to fetch"],
    "This website blocks external preview requests for security reasons.");
   (["timeout"; "Request timeout"],
    "Preview request timed out. The website may be slow to respond.");
   (["Network error"; "net::"],
    "Network connection issue. Please check your internet connection.");
   (["404"; "Not Found"], "The requested page could not be found.");
   (["403"; "Forbidden"], "Access to this content is restricted or forbidden.");
   (["500"; "Server Error"],
    "The server encountered an error. Please try again later.")].

(** The message of the first category one of whose markers occurs in the
    error message, and the generic message when there is none. *)
Fixpoint chooseMessage (categories : list (list string * string))
                       (message : string) : string :=
  match categories with
  | [] => "Unable to load preview for this link."
  | (markers, shown) :: rest =>
      if existsb (JsString.includes message) markers then shown
      else chooseMessage rest message
  end.

(** The page of the product scenario: the document the HTML parser
    builds from the single JSON-LD script. *)
Definition product_jsonld : string :=
  Json.q "{'@type':'Product','offers':{'price':'19.99'}}".

(** Its HTML text *)
Definition product_html : string :=
  Json.q "<script type='application/ld+json'>" ++ product_jsonld ++ "</script>".

(** Its document *)
Definition product_page : Dom.document :=
  [Dom.Element "html" []
     [Dom.Element "head" []
        [Dom.Element "script" [("type", "application/ld+json")]
           [Dom.Text product_jsonld]];
      Dom.Element "body" [] []]].

(** Its URL, which matches no host list and no product path marker *)
Definition product_url : string := "https://example.org/catalog/19".

(** ** Long texts *)

(** Thirty copies of a twelve-character phrase: one sentence of 359
    characters once trimmed. *)
Definition C2_long_sentence : string :=
  String.concat "" (repeat "lorem ipsum " 30).

(** Three hundred letters without any white space. *)
Definition C2_long_word : string :=
  String.concat "" (repeat "abcdefghij" 30).

(** ** The preview cache *)

Section CacheNotions.

Import PreviewGenerator.
Context {Preview : Type}.

(** The keys of the map, oldest first *)
Definition keys (c : Cache Preview) : list string := map fst c.

(** The caches a generator can come to hold: it starts with an empty map,
    which only [getCached], [setCached], [clearCache] and
    [clearExpiredCache] change. *)
Inductive reachable : Cache Preview -> Prop :=
| reachable_new : reachable []
| reachable_get now url c :
    reachable c -> reachable (snd (getCached now url c))
| reachable_set now url p c :
    reachable c -> reachable (setCached now url p c)
| reachable_clear c :
    reachable c -> reachable (clearCache c)
| reachable_clearExpired now c :
    reachable c -> reachable (clearExpiredCache now c).

(** The entry is not expired at the time [now] *)
Definition unexpired (now : Z) (e : CacheEntry Preview) : bool :=
  negb (now - timestamp e >? cacheTimeout)%Z.

(** [n] calls of [setCached] at time 0 on a new generator, with the keys
    0, 1, ... *)
Definition filled (n : nat) : Cache string :=
  fold_left (fun c i => setCached 0 (JsString.ofNat i) (JsString.ofNat i) c)
            (seq 0 n) [].

(** The strings of a list are pairwise distinct *)
Fixpoint distinct (l : list string) : bool :=
  match l with
  | [] => true
  | x :: rest => negb (Dom.mem x rest) && distinct rest
  end.

End CacheNotions.

(** ** Order of sentences *)

(** [l1] is made of elements of [l2], in the order they have in [l2]. *)
Inductive Subsequence {A : Type} : list A -> list A -> Prop :=
| Subsequence_nil l : Subsequence [] l
| Subsequence_take x l1 l2 : Subsequence l1 l2 -> Subsequence (x :: l1) (x :: l2)
| Subsequence_skip x l1 l2 : Subsequence l1 l2 -> Subsequence l1 (x :: l2).

(** A text of three sentences of five words each. *)
Definition three_sentences : string :=
  "Alpha bravo charlie delta echo. Foxtrot golf hotel india juliet. "
  ++ "Kilo lima mike november oscar.".

(** ** Text blocks and JSON-LD scripts *)

(** The selector list of [hasSubstantialText]:
    [p, article, .content, #content, main] *)
Definition textBlocks : list Dom.selector :=
  [Dom.Simple (Dom.byTag "p"); Dom.Simple (Dom.byTag "article");
   Dom.Simple (Dom.byClass "content"); Dom.Simple (Dom.byId "content");
   Dom.Simple (Dom.byTag "main")].

(** The number of characters a block contributes *)
Definition blockLength (block : Dom.element) : nat :=
  String.length (JsString.trim (Dom.textContent block)).

(** A JSON-LD script node with the given text *)
Definition scriptNode (text : string) : Dom.node :=
  Dom.Element "script" [("type", "application/ld+json")] [Dom.Text text].

(** A page with six JSON-LD scripts that are not JSON, followed by one
    that describes an article. *)
Definition six_broken_scripts_page : Dom.document :=
  [Dom.Element "html" []
     [Dom.Element "head" []
        (repeat (scriptNode "{") 6
         ++ [scriptNode (Json.q "{'@type':'Article','headline':'News'}")])%list;
      Dom.Element "body" [] []]].

(** ** Trees before and after a removal *)

(** The elements below [root], in document order *)
Definition below (root : Dom.element) : list Dom.element :=
  Dom.elementsOfList (Dom.self root :: Dom.ancestors root) (Dom.childNodes root).

(** An element [e'] of a pruned tree stands for an element of the tree
    [before] that was not removed: same tag and attributes, same
    ancestors. *)
Definition kept (doomed : Dom.element -> bool) (before : list Dom.element)
                (e' : Dom.element) : Prop :=
  exists e,
    In e before /\ Dom.self e = Dom.self e'
    /\ Dom.ancestors e = Dom.ancestors e'
    /\ doomed e = false.

(** An article with a navigation bar, an advertisement, a script and an
    empty paragraph around one paragraph of text. *)
Definition cluttered_article : Dom.element :=
  {| Dom.self := {| Dom.tag := "article"; Dom.attrs := [] |};
     Dom.childNodes :=
       [Dom.Element "nav" [] [Dom.Element "a" [("href", "/")] [Dom.Text "Home"]];
        Dom.Element "p" [] [Dom.Text "The text of the article."];
        Dom.Element "div" [("class", "ad banner")]
          [Dom.Element "p" [] [Dom.Text "Buy now"]];
        Dom.Element "p" [] [Dom.Text "  "];
        Dom.Element "script" [] [Dom.Text "track()"]];
     Dom.ancestors := [{| Dom.tag := "body"; Dom.attrs := [] |};
                       {| Dom.tag := "html"; Dom.attrs := [] |}];
     Dom.nextElementSibling := None |}.

(* ================================================================== *)
(** * Part III: properties *)
(* ================================================================== *)

(** ** Preview cache *)

Section CacheProperties.

Import PreviewGenerator.
Context {Preview : Type}.
Implicit Types (c : Cache Preview) (url : string) (r : Preview).

Lemma Map_get_set_same url v c : Map_get url (Map_set url v c) = Some v.
Proof.
  induction c as [|[k w] c IH]; simpl.
  - now rewrite String.eqb_refl.
  - destruct (String.eqb k url) eqn:E; simpl; rewrite E; auto.
Qed.

Lemma getCached_setCached now0 now1 url r c :
  getCached now1 url (setCached now0 url r c) =
    if (now1 - now0 >? cacheTimeout)%Z
    then (None, Map_delete url (setCached now0 url r c))
    else (Some r, setCached now0 url r c).
Proof.
  unfold getCached, setCached.
  rewrite Map_get_set_same; reflexivity.
Qed.

End CacheProperties.

(** C9 (as amended): a [set(url, record)] followed by [get(url)] returns
    that record, leaving the cache unchanged, whenever the time elapsed
    since the set is at most the TTL ([now - timestamp <= TTL]); once the
    elapsed time exceeds the TTL ([now - timestamp > TTL]) the [get] is a
    miss and removes the entry. *)
Theorem C9_cache_roundtrip :
  forall (Preview : Type) (c : PreviewGenerator.Cache Preview)
         (url : string) (r : Preview) (t0 t1 : Z),
    let c' := PreviewGenerator.setCached t0 url r c in
    ((t1 - t0 <= PreviewGenerator.cacheTimeout)%Z ->
       PreviewGenerator.getCached t1 url c' = (Some r, c'))
    /\ ((t1 - t0 > PreviewGenerator.cacheTimeout)%Z ->
       PreviewGenerator.getCached t1 url c'
       = (None, PreviewGenerator.Map_delete url c')).
Proof.
  intros Preview c url r t0 t1 c'. subst c'.
  rewrite getCached_setCached.
  split; intros H.
  - destruct (Z.gtb_spec (t1 - t0) PreviewGenerator.cacheTimeout); [lia | reflexivity].
  - destruct (Z.gtb_spec (t1 - t0) PreviewGenerator.cacheTimeout); [reflexivity | lia].
Qed.

Lemma C9_cache_roundtrip_witness :
  PreviewGenerator.getCached 1000 "https://a.example/"
    (PreviewGenerator.setCached 0 "https://a.example/" "record" [])
  = (Some "record",
     PreviewGenerator.setCached 0 "https://a.example/" "record" [])
  /\ PreviewGenerator.getCached 300001 "https://a.example/"
       (PreviewGenerator.setCached 0 "https://a.example/" "record" [])
     = (None,
        PreviewGenerator.Map_delete "https://a.example/"
          (PreviewGenerator.setCached 0 "https://a.example/" "record" [])).
Proof.
  split.
  - apply (C9_cache_roundtrip string [] "https://a.example/" "record" 0 1000).
    unfold PreviewGenerator.cacheTimeout; lia.
  - apply (C9_cache_roundtrip string [] "https://a.example/" "record" 0 300001).
    unfold PreviewGenerator.cacheTimeout; lia.
Defined.

(** C9 as stated fails at the boundary: exactly one TTL after the set the
    TTL has elapsed ([now - timestamp < TTL] is false), yet [get] still
    returns the record. *)
Lemma C9_counterexample :
  let c := PreviewGenerator.setCached 0 "https://a.example/" "record" [] in
  ~ (300000 - 0 < PreviewGenerator.cacheTimeout)%Z
  /\ fst (PreviewGenerator.getCached 300000 "https://a.example/" c)
     = Some "record"
  /\ fst (PreviewGenerator.getCached 300000 "https://a.example/" c) <> None.
Proof.
  cbv zeta. split; [|split].
  - unfold PreviewGenerator.cacheTimeout; lia.
  - reflexivity.
  - discriminate.
Qed.

(** ** Text summarizer *)

Section SummarizerProperties.

Import JsString TextSummarizer.

Lemma take_nonempty n s :
  0 < n -> s <> EmptyString -> take n s <> EmptyString.
Proof.
  destruct n, s; simpl; intros; try lia; congruence.
Qed.

Lemma append_nonempty_r (a b : string) :
  b <> EmptyString -> (a ++ b)%string <> EmptyString.
Proof.
  destruct a; simpl; intros; congruence.
Qed.

Lemma append_nonempty_l (a b : string) :
  a <> EmptyString -> (a ++ b)%string <> EmptyString.
Proof.
  destruct a; simpl; intros; congruence.
Qed.

Lemma truncateToFit_nonempty text maxChars :
  (0 < maxChars)%Z -> text <> EmptyString ->
  truncateToFit text maxChars <> EmptyString.
Proof.
  intros Hm Ht. unfold truncateToFit.
  destruct text as [|c text']; [congruence|].
  set (text := String c text') in *.
  destruct (len text <=? maxChars)%Z; [assumption|].
  assert (Htr : substr0 text maxChars <> EmptyString).
  { unfold substr0. apply take_nonempty; [lia | assumption]. }
  destruct (bestBreakOf (substr0 text maxChars) maxChars >? 0)%Z eqn:Hb.
  - unfold substr0 at 1. apply take_nonempty; [|assumption].
    apply Z.gtb_lt in Hb. lia.
  - destruct (2 * lastIndexOf (substr0 text maxChars) " " >? maxChars)%Z;
      apply append_nonempty_r; discriminate.
Qed.

Lemma keepSentence_nonempty s : keepSentence s = true -> s <> EmptyString.
Proof.
  unfold keepSentence. intros H ->. discriminate.
Qed.

Lemma splitIntoSentences_nonempty text s :
  In s (splitIntoSentences text) -> s <> EmptyString.
Proof.
  unfold splitIntoSentences. destruct text; [intros []|].
  intros H. apply filter_In in H. apply keepSentence_nonempty, H.
Qed.

Lemma insertByScore_In x y l :
  In y (insertByScore x l) <-> y = x \/ In y l.
Proof.
  induction l as [|z l IH]; simpl.
  - intuition.
  - destruct (score z <=? score x)%Z; simpl; [intuition|].
    rewrite IH. intuition.
Qed.

Lemma sortByScore_In y l : In y (sortByScore l) <-> In y l.
Proof.
  induction l as [|x l IH]; simpl; [reflexivity|].
  rewrite insertByScore_In, IH. intuition.
Qed.

Lemma insertByScore_length x l :
  List.length (insertByScore x l) = S (List.length l).
Proof.
  induction l as [|z l IH]; simpl; [reflexivity|].
  destruct (score z <=? score x)%Z; simpl; auto.
Qed.

Lemma sortByScore_length l : List.length (sortByScore l) = List.length l.
Proof.
  induction l as [|x l IH]; simpl; [reflexivity|].
  now rewrite insertByScore_length, IH.
Qed.

Lemma insertByIndex_In x y l :
  In y (insertByIndex x l) <-> y = x \/ In y l.
Proof.
  induction l as [|z l IH]; simpl.
  - intuition.
  - destruct (index x <=? index z); simpl; [intuition|].
    rewrite IH. intuition.
Qed.

Lemma sortByIndex_In y l : In y (sortByIndex l) <-> In y l.
Proof.
  induction l as [|x l IH]; simpl; [reflexivity|].
  rewrite insertByIndex_In, IH. intuition.
Qed.

Lemma insertByIndex_length x l :
  List.length (insertByIndex x l) = S (List.length l).
Proof.
  induction l as [|z l IH]; simpl; [reflexivity|].
  destruct (index x <=? index z); simpl; auto.
Qed.

Lemma sortByIndex_length l : List.length (sortByIndex l) = List.length l.
Proof.
  induction l as [|x l IH]; simpl; [reflexivity|].
  now rewrite insertByIndex_length, IH.
Qed.

Lemma scoreAll_length f text total i sentences :
  List.length (scoreAll f text total i sentences) = List.length sentences.
Proof.
  revert i; induction sentences; simpl; auto.
Qed.

Lemma scoreAll_sentence f text total i sentences x :
  In x (scoreAll f text total i sentences) -> In (sentence x) sentences.
Proof.
  revert i; induction sentences as [|s l IH]; simpl; intros i H; [assumption|].
  destruct H as [<-|H]; [now left | right; eauto].
Qed.

Lemma firstn_In {A} n (l : list A) x : In x (firstn n l) -> In x l.
Proof.
  revert l; induction n as [|n IH]; intros [|y l]; simpl; try tauto.
  intros [->|H]; [now left | right; auto].
Qed.

Lemma slice0_In {A} (l : list A) k x : In x (slice0 l k) -> In x l.
Proof.
  unfold slice0. destruct (k <? 0)%Z; apply firstn_In.
Qed.

Lemma slice0_length_pos {A} (l : list A) k :
  (0 < k)%Z -> l <> [] -> slice0 l k <> [].
Proof.
  intros Hk Hl. unfold slice0.
  destruct (Z.ltb_spec k 0); [lia|].
  destruct l; [congruence|].
  destruct (Z.to_nat k) eqn:E; [lia|]. simpl. discriminate.
Qed.

Lemma join_nonempty sep parts :
  parts <> [] -> (forall p, In p parts -> p <> EmptyString) ->
  join sep parts <> EmptyString.
Proof.
  destruct parts as [|x rest]; [congruence|]. intros _ H.
  assert (Hx : x <> EmptyString) by (apply H; now left).
  simpl. destruct rest; [assumption|].
  now apply append_nonempty_l.
Qed.

(** X30: for positive limits, the summary is empty exactly when the
    text is: the summary of a non-empty text is not empty, whatever the
    sentence scores are. *)
Lemma summarize_empty_iff scoreSentence text maxSentences maxChars :
  (0 < maxSentences)%Z -> (0 < maxChars)%Z ->
  summarize scoreSentence text maxSentences maxChars = EmptyString
  <-> text = EmptyString.
Proof.
  intros Hs Hc. split; [|intros ->; reflexivity].
  intros H. destruct text as [|c text']; [reflexivity|]. exfalso.
  revert H. unfold summarize.
  set (text := String c text').
  pose proof (splitIntoSentences_nonempty text) as Hne.
  destruct (splitIntoSentences text) as [|s1 [|s2 [|s3 rest]]] eqn:E.
  - apply truncateToFit_nonempty; [assumption | discriminate].
  - apply Hne; now left.
  - apply Hne; now left.
  - set (sentences := s1 :: s2 :: s3 :: rest) in *.
    set (top := sortByIndex _).
    assert (Htop : join " " (map sentence top) <> EmptyString).
    { apply join_nonempty.
      - subst top. intros Hnil. apply (f_equal (@List.length _)) in Hnil.
        rewrite length_map, sortByIndex_length in Hnil.
        apply length_zero_iff_nil in Hnil. revert Hnil.
        apply slice0_length_pos; [simpl List.length; lia|].
        intros Hnil. apply (f_equal (@List.length _)) in Hnil.
        rewrite sortByScore_length, scoreAll_length in Hnil. discriminate.
      - intros p Hp. apply in_map_iff in Hp. destruct Hp as [x [<- Hx]].
        subst top. rewrite sortByIndex_In in Hx. apply slice0_In in Hx.
        rewrite sortByScore_In in Hx.
        apply scoreAll_sentence in Hx. now apply Hne. }
    destruct (len _ >? maxChars)%Z; [|assumption].
    now apply truncateToFit_nonempty.
Qed.

End SummarizerProperties.

(** C2, evaluated on the code: with the default limits (3 sentences, 280
    characters) the summary of a text made of one long sentence is that
    sentence, 359 characters long; and the summary of a 300-character text
    without sentence structure is its first 280 characters followed by an
    ellipsis, 283 characters long.  Both exceed [maxChars]. *)
Theorem C2_summary_exceeds_maxChars :
  forall scoreSentence : string -> string -> nat -> nat -> Z,
    JsString.len
      (TextSummarizer.summarize scoreSentence C2_long_sentence 3 280) = 359%Z
    /\ TextSummarizer.summarize scoreSentence C2_long_word 3 280
       = (JsString.take 280 C2_long_word ++ "...")%string
    /\ JsString.len
         (TextSummarizer.summarize scoreSentence C2_long_word 3 280) = 283%Z.
Proof.
  intros scoreSentence. repeat split; vm_compute; reflexivity.
Qed.

(** ** Content-type detector *)

Section DetectorProperties.

Import JsString Dom ContentTypeDetector.

Lemma documentType_enumerated dom : In (documentType dom) contentTypes.
Proof.
  unfold documentType, contentTypes.
  repeat match goal with
         | |- context [if ?b then _ else _] => destruct b
         end; simpl; tauto.
Qed.

Lemma detect_unfold dom url :
  url <> EmptyString ->
  detect (Some dom) url =
    if isVideoSite url then "video"
    else if isSocialSite url then "social"
    else if isEcommerceSite url then "product"
    else documentType dom.
Proof.
  intros Hurl. destruct url as [|c url']; [congruence|].
  unfold detect, documentType, Js.try_catch. reflexivity.
Qed.

Lemma includesSome_spec urlLower sites :
  includesSome urlLower sites = true
  <-> exists site, In site sites /\ includes urlLower site = true.
Proof.
  unfold includesSome. apply existsb_exists.
Qed.

End DetectorProperties.

(** C3: for every document, present or null, and every URL string,
    [detect] returns one of the six content types 'article', 'product',
    'video', 'social', 'gallery', 'default'; it returns 'default' when the
    document is null or the URL is empty, and when no decision rule
    matches.  ([detect] is a total function of the embedding: it returns
    and does not throw.) *)
Theorem C3_detect_total :
  forall (dom : option Dom.document) (url : string),
    In (ContentTypeDetector.detect dom url) contentTypes
    /\ (dom = None \/ url = EmptyString ->
        ContentTypeDetector.detect dom url = "default")
    /\ (forall d,
          dom = Some d ->
          ContentTypeDetector.isVideoSite url = false ->
          ContentTypeDetector.isSocialSite url = false ->
          ContentTypeDetector.isEcommerceSite url = false ->
          ContentTypeDetector.hasArticleSchema d = false ->
          ContentTypeDetector.hasArticleStructure d = false ->
          ContentTypeDetector.hasProductSchema d = false ->
          ContentTypeDetector.hasProductStructure d = false ->
          ContentTypeDetector.hasGalleryStructure d = false ->
          ContentTypeDetector.hasVideoStructure d = false ->
          ContentTypeDetector.hasSubstantialText d = false ->
          ContentTypeDetector.detect dom url = "default").
Proof.
  intros dom url. split; [|split].
  - destruct dom as [d|]; [|simpl; tauto].
    destruct url as [|c url']; [simpl; tauto|].
    rewrite detect_unfold by discriminate.
    destruct (ContentTypeDetector.isVideoSite _); [simpl; tauto|].
    destruct (ContentTypeDetector.isSocialSite _); [simpl; tauto|].
    destruct (ContentTypeDetector.isEcommerceSite _); [simpl; tauto|].
    apply documentType_enumerated.
  - intros [-> | ->]; [reflexivity|]. destruct dom; reflexivity.
  - intros d -> Hv Hs He Has Hast Hps Hpst Hg Hvs Ht.
    destruct url as [|c url']; [reflexivity|].
    rewrite detect_unfold by discriminate.
    rewrite Hv, Hs, He. unfold documentType.
    now rewrite Has, Hast, Hps, Hpst, Hg, Hvs, Ht.
Qed.

Lemma C3_detect_total_witness :
  ContentTypeDetector.detect None "https://example.org/" = "default"
  /\ ContentTypeDetector.detect (Some []) "https://example.org/" = "default".
Proof.
  split.
  - apply (C3_detect_total None "https://example.org/"). now left.
  - apply (C3_detect_total (Some []) "https://example.org/" ) with (d := []);
      reflexivity.
Defined.

(** C4 as stated fails.  The host [example.org] is on none of the three
    lists and neither path holds a product marker, yet the same (empty)
    document is classified 'video' for one URL and 'default' for the
    other: the result is not determined by the document alone.  And the
    host [twitter.com] is on the social list and not on the video list,
    yet the URL is classified 'video', since its path contains the word
    'video'. *)
Lemma C4_counterexample :
  let u1 := "https://example.org/video/1" in
  let u2 := "https://example.org/about" in
  let u3 := "https://twitter.com/user/video/1" in
  (hostOf u1 = "example.org" /\ hostOf u2 = "example.org"
   /\ hostOnList ContentTypeDetector.videoSites u1 = false
   /\ hostOnList ContentTypeDetector.socialSites u1 = false
   /\ hostOnList ContentTypeDetector.ecommerceSites u1 = false
   /\ pathHasProductMarker u1 = false
   /\ hostOnList ContentTypeDetector.videoSites u2 = false
   /\ hostOnList ContentTypeDetector.socialSites u2 = false
   /\ hostOnList ContentTypeDetector.ecommerceSites u2 = false
   /\ pathHasProductMarker u2 = false
   /\ ContentTypeDetector.detect (Some []) u1 = "video"
   /\ ContentTypeDetector.detect (Some []) u2 = "default")
  /\ (hostOf u3 = "twitter.com"
      /\ hostOnList ContentTypeDetector.videoSites u3 = false
      /\ hostOnList ContentTypeDetector.socialSites u3 = true
      /\ ContentTypeDetector.detect (Some []) u3 = "video").
Proof.
  cbv zeta. repeat split; vm_compute; reflexivity.
Qed.

(** C4 (as amended): for every document and non-empty URL, the first
    three steps are decided from the whole lower-cased URL string by
    substring search, in order: 'video' if it contains an entry of the
    video list (which includes the bare word 'video'), otherwise 'social'
    if it contains an entry of the social list, otherwise 'product' if it
    contains an entry of the e-commerce list or one of /product/,
    /products/, /shop/, /item/; and whenever the lower-cased URL contains
    none of these entries and markers, the returned type is that of steps
    4 to 9, which depends on the document alone. *)
Theorem C4_url_steps :
  forall (dom : Dom.document) (url : string),
    url <> EmptyString ->
    let urlLower := JsString.toLowerCase url in
    let hasEntry sites :=
      exists site, In site sites /\ JsString.includes urlLower site = true in
    (hasEntry ContentTypeDetector.videoSites ->
       ContentTypeDetector.detect (Some dom) url = "video")
    /\ (~ hasEntry ContentTypeDetector.videoSites ->
        hasEntry ContentTypeDetector.socialSites ->
        ContentTypeDetector.detect (Some dom) url = "social")
    /\ (~ hasEntry ContentTypeDetector.videoSites ->
        ~ hasEntry ContentTypeDetector.socialSites ->
        hasEntry (ContentTypeDetector.ecommerceSites
                  ++ ContentTypeDetector.productPathMarkers)%list ->
        ContentTypeDetector.detect (Some dom) url = "product")
    /\ (~ hasEntry ContentTypeDetector.videoSites ->
        ~ hasEntry ContentTypeDetector.socialSites ->
        ~ hasEntry (ContentTypeDetector.ecommerceSites
                    ++ ContentTypeDetector.productPathMarkers)%list ->
        ContentTypeDetector.detect (Some dom) url = documentType dom).
Proof.
  intros dom url Hurl urlLower hasEntry.
  rewrite detect_unfold by assumption.
  assert (Hv : ContentTypeDetector.isVideoSite url = true
               <-> hasEntry ContentTypeDetector.videoSites)
    by apply includesSome_spec.
  assert (Hs : ContentTypeDetector.isSocialSite url = true
               <-> hasEntry ContentTypeDetector.socialSites)
    by apply includesSome_spec.
  assert (He : ContentTypeDetector.isEcommerceSite url = true
               <-> hasEntry (ContentTypeDetector.ecommerceSites
                             ++ ContentTypeDetector.productPathMarkers)%list).
  { unfold hasEntry. rewrite <- includesSome_spec.
    unfold ContentTypeDetector.isEcommerceSite, ContentTypeDetector.includesSome.
    fold urlLower. rewrite existsb_app. simpl.
    rewrite !orb_false_r, !orb_assoc. reflexivity. }
  destruct (ContentTypeDetector.isVideoSite url);
    destruct (ContentTypeDetector.isSocialSite url);
    destruct (ContentTypeDetector.isEcommerceSite url);
    repeat split; intros; try reflexivity;
    repeat match goal with
           | H : ~ _ |- _ => exfalso; apply H; tauto
           | H : _ <-> ?P, G : ?P |- _ =>
               apply H in G; discriminate
           end.
Qed.

Lemma C4_url_steps_witness :
  ContentTypeDetector.detect (Some []) "https://youtu.be/abc" = "video".
Proof.
  apply (C4_url_steps [] "https://youtu.be/abc"); [discriminate|].
  exists "youtu.be". split; [simpl; tauto | reflexivity].
Defined.

(** ** Image processor *)

Section ImageProperties.

Import JsString Dom ImageProcessor.

Variable newURL : string -> option string -> option URL.
Variable maxImages : Z.
Variable baseUrl : option string.

Lemma mem_In x l : mem x l = true <-> In x l.
Proof.
  unfold mem. rewrite existsb_exists. split.
  - intros [y [Hy E]]. apply String.eqb_eq in E. now subst.
  - intros H. exists x. split; [assumption | apply String.eqb_refl].
Qed.

Lemma NoDup_snoc {A} (l : list A) x :
  NoDup l -> ~ In x l -> NoDup (l ++ [x]).
Proof.
  induction 1 as [|y l Hy Hl IH]; simpl; intros Hx.
  - constructor; [tauto | constructor].
  - constructor.
    + rewrite in_app_iff. simpl. intros [H | [H | []]]; [tauto|].
      subst. tauto.
    + apply IH. tauto.
Qed.

(** [visitPriority] either leaves the state alone or appends one accepted
    priority candidate whose [src] was not seen before. *)
Lemma visitPriority_cases fromMeta st element :
  let st' := visitPriority newURL fromMeta maxImages baseUrl st element in
  st' = st
  \/ exists c,
       images st' = (images st ++ [c])%list
       /\ seenUrls st' = (seenUrls st ++ [src c])%list
       /\ finished st'
          = (maxImages <=? Z.of_nat (S (List.length (images st))))%Z
       /\ priority c = true
       /\ accepted newURL baseUrl (src c)
       /\ ~ In (src c) (seenUrls st).
Proof.
  unfold visitPriority.
  destruct (if fromMeta then _ else _) as [[|c r]|]; auto.
  destruct (isValidImageUrl newURL (String c r)) eqn:Hvalid; auto.
  destruct (resolveImageUrl newURL (String c r) baseUrl)
    as [[|c' r']|] eqn:Hres; auto.
  destruct (mem (String c' r') (seenUrls st)) eqn:Hmem; auto.
  right. eexists. simpl. repeat split.
  - rewrite length_app. simpl. now rewrite Nat.add_1_r.
  - exists (String c r). repeat split; [assumption.. | discriminate].
  - intros H. apply mem_In in H. simpl in H. congruence.
Qed.

Lemma visitPriority_SeenInv fromMeta st element :
  SeenInv newURL baseUrl st ->
  SeenInv newURL baseUrl
    (visitPriority newURL fromMeta maxImages baseUrl st element).
Proof.
  intros (Hmap & Hnd & Hall).
  destruct (visitPriority_cases fromMeta st element)
    as [-> | (c & Hi & Hs & _ & Hp & Ha & Hn)]; [now repeat split|].
  unfold SeenInv. rewrite Hi, Hs. repeat split.
  - rewrite map_app, Hmap. reflexivity.
  - now apply NoDup_snoc.
  - apply Forall_app. split; [assumption|]. constructor; [tauto | constructor].
Qed.


Lemma forElements_inv (P : State -> Prop) fromMeta elements :
  (forall st e, P st -> finished st = false ->
                P (visitPriority newURL fromMeta maxImages baseUrl st e)) ->
  forall st, P st -> finished st = false ->
             P (forElements newURL fromMeta maxImages baseUrl elements st).
Proof.
  intros Hstep. induction elements as [|e rest IH]; simpl; intros st HP Hf.
  - assumption.
  - destruct (finished (visitPriority _ _ _ _ st e)) eqn:E.
    + now apply Hstep.
    + apply IH; [now apply Hstep | assumption].
Qed.

Lemma forSelectors_inv (P : State -> Prop) dom selectors :
  (forall fromMeta st e, P st -> finished st = false ->
                P (visitPriority newURL fromMeta maxImages baseUrl st e)) ->
  forall st, P st -> finished st = false ->
             P (forSelectors newURL dom maxImages baseUrl selectors st).
Proof.
  intros Hstep. induction selectors as [|s rest IH]; simpl; intros st HP Hf.
  - assumption.
  - destruct (finished (forElements _ _ _ _ _ st)) eqn:E.
    + apply forElements_inv; auto.
    + apply IH; [apply forElements_inv; auto | assumption].
Qed.

Lemma firstPhase_SeenInv dom :
  SeenInv newURL baseUrl
    (forSelectors newURL dom maxImages baseUrl prioritySelectors initialState).
Proof.
  apply forSelectors_inv; [| |reflexivity].
  - intros. now apply visitPriority_SeenInv.
  - repeat split; simpl; constructor.
Qed.



(** *** The second phase *)

Lemma insertScored_In x y l : In y (insertScored x l) <-> y = x \/ In y l.
Proof.
  induction l as [|z l IH]; simpl.
  - intuition.
  - destruct (sc_score z <=? sc_score x)%Z; simpl; [intuition|].
    rewrite IH. intuition.
Qed.

Lemma sortScored_In y l : In y (sortScored l) <-> In y l.
Proof.
  induction l as [|x l IH]; simpl; [reflexivity|].
  rewrite insertScored_In, IH. intuition.
Qed.

(** Every scored image has a strictly positive score, an accepted [src]
    not seen in the first phase, and comes from one of the elements. *)
Lemma scoreRemaining_In seen remaining x :
  In x (scoreRemaining newURL baseUrl seen remaining) ->
  In (sc_element x) remaining
  /\ sc_score x = calculateImageScore (sc_element x)
  /\ (0 < sc_score x)%Z
  /\ accepted newURL baseUrl (sc_src x)
  /\ ~ In (sc_src x) seen.
Proof.
  induction remaining as [|img rest IH]; cbn [scoreRemaining In]; [intros []|].
  assert (Hrest : In x (scoreRemaining newURL baseUrl seen rest) ->
                  (img = sc_element x \/ In (sc_element x) rest)
                  /\ sc_score x = calculateImageScore (sc_element x)
                  /\ (0 < sc_score x)%Z
                  /\ accepted newURL baseUrl (sc_src x)
                  /\ ~ In (sc_src x) seen)
    by (intros H; apply IH in H; tauto).
  destruct (or_else _ _) as [[|c r]|]; auto.
  destruct (isValidImageUrl newURL (String c r)) eqn:Hvalid; auto.
  destruct (resolveImageUrl newURL (String c r) baseUrl)
    as [[|c' r']|] eqn:Hres; auto.
  destruct (mem (String c' r') seen) eqn:Hmem; auto.
  destruct (0 <? calculateImageScore img)%Z eqn:Hscore; auto.
  cbn [In]. intros [<- | H]; [|auto]. cbn [sc_element sc_src sc_score].
  repeat split.
  - now left.
  - now apply Z.ltb_lt.
  - exists (String c r). repeat split; [assumption.. | discriminate].
  - intros H. apply mem_In in H. congruence.
Qed.


(** [addScored] appends candidates taken from the scored images, marked
    as not priority, and stops at the quota. *)
Lemma addScored_spec scored :
  forall st,
    (Z.of_nat (List.length (images st)) <= maxImages)%Z ->
    let st' := addScored maxImages scored st in
    (Z.of_nat (List.length (images st')) <= maxImages)%Z
    /\ exists added,
         images st' = (images st ++ added)%list
         /\ Forall (fun c => priority c = false
                             /\ exists x, In x scored /\ src c = sc_src x)
                   added.
Proof.
  induction scored as [|x rest IH]; simpl; intros st Hle.
  - split; [assumption|]. exists []. now rewrite app_nil_r.
  - destruct (Z.leb_spec maxImages (Z.of_nat (List.length (images st)))).
    + split; [assumption|]. exists []. now rewrite app_nil_r.
    + match goal with |- context [addScored _ _ ?s] => set (st1 := s) end.
      destruct (IH st1) as (Hle' & added & Hadd & Hall).
      { subst st1. simpl. rewrite length_app. simpl. lia. }
      split; [assumption|].
      eexists (_ :: added). split.
      * rewrite Hadd. subst st1. simpl. now rewrite <- app_assoc.
      * constructor.
        -- simpl. split; [reflexivity|]. exists x. split; [now left | reflexivity].
        -- eapply Forall_impl; [|exact Hall]. simpl.
           intros c (Hp & y & Hy & Hsrc). split; [assumption|]. eauto.
Qed.

End ImageProperties.

Section ImageTheorems.

Import JsString Dom ImageProcessor.


Lemma filter_none {A} (f : A -> bool) l :
  Forall (fun x => f x = false) l -> filter f l = [].
Proof.
  induction 1 as [|x l Hx _ IH]; simpl; [reflexivity|].
  now rewrite Hx.
Qed.

(** What [resolveImageUrl] returns. *)
Lemma resolveImageUrl_cases newURL raw baseUrl s :
  resolveImageUrl newURL raw baseUrl = Some s ->
  (s = raw
   /\ (startsWith raw "http://" || startsWith raw "https://"
       || startsWith raw "data:") = true)
  \/ (s = raw /\ (baseUrl = None \/ baseUrl = Some EmptyString))
  \/ (exists b base resolved,
        baseUrl = Some b
        /\ newURL b None = Some base
        /\ newURL raw (Some (origin base)) = Some resolved
        /\ s = href resolved).
Proof.
  unfold resolveImageUrl. destruct raw as [|c r]; [discriminate|].
  destruct (startsWith (String c r) "http://" || startsWith (String c r) "https://")
    eqn:E1.
  { intros [= <-]. left. split; reflexivity. }
  destruct (startsWith (String c r) "data:") eqn:E2.
  { intros [= <-]. left. split; reflexivity. }
  destruct baseUrl as [[|cb rb]|].
  - intros [= <-]. right; left. auto.
  - destruct (newURL (String cb rb) None) as [base|] eqn:Eb; [|discriminate].
    destruct (newURL (String c r) (Some (origin base))) as [resolved|] eqn:Er;
      [|discriminate].
    intros [= <-]. right; right. exists (String cb rb), base, resolved. auto.
  - intros [= <-]. right; left. auto.
Qed.

End ImageTheorems.




(** The scored phase does not look at the addresses it has itself added:
    the same [src] is returned twice. *)
Lemma extractImportantImages_repeats_src :
  forall newURL,
    map ImageProcessor.src
        (ImageProcessor.extractImportantImages newURL (Some twice_page) 5 None)
    = ["/a.jpg"; "/a.jpg"].
Proof.
  intros newURL. reflexivity.
Qed.

(** The test that blocks SVG data URLs is never reached, because every
    data URL returns before it: a long enough SVG data URI is valid and
    becomes a candidate. *)
Lemma extractImportantImages_keeps_svg_data_uri :
  forall newURL,
    ImageProcessor.isValidImageUrl newURL svg_data_uri = true
    /\ map ImageProcessor.src
           (ImageProcessor.extractImportantImages newURL (Some svg_page) 5 None)
       = [svg_data_uri].
Proof.
  intros newURL. split; reflexivity.
Qed.

(** With a quota of zero the first priority match is still returned. *)
Lemma extractImportantImages_zero_quota :
  forall newURL,
    List.length
      (ImageProcessor.extractImportantImages newURL (Some svg_page) 0 None)
    = 1.
Proof.
  intros newURL. reflexivity.
Qed.



(** ** Schema detector *)

Section SchemaProperties.

Import JsString Dom SchemaDetector.

Lemma matchAtoms_literal lit s :
  matchAtoms (literal lit) s = String.prefix lit s.
Proof.
  revert s. induction lit as [|a lit IH]; intros s; simpl.
  - now destruct s.
  - destruct s as [|c s]; [reflexivity|].
    simpl. rewrite IH. destruct (ascii_dec a c) as [Heq|Hne].
    + apply Ascii.eqb_eq in Heq. rewrite Heq. reflexivity.
    + apply Ascii.eqb_neq in Hne. rewrite Hne. reflexivity.
Qed.

(** Replacing the occurrences of a literal that does not occur changes
    nothing. *)
Lemma replaceAll_absent lit repl s :
  includes s lit = false -> replaceAll lit repl s = s.
Proof.
  unfold replaceAll, replacePattern.
  induction s as [|c s IH]; intros H; [reflexivity|].
  cbn [includes] in H. apply orb_false_iff in H. destruct H as [Hp Hi].
  assert (Hm : matchAtoms (literal lit) (String c s) = false)
    by (rewrite matchAtoms_literal; exact Hp).
  specialize (IH Hi). cbn [replacePattern_go].
  destruct (literal lit) as [|a p'].
  - now rewrite IH.
  - now rewrite Hm, IH.
Qed.

Lemma sanitize_without_double_backslash content :
  includes (withoutStripped content) (backslash ++ backslash) = false ->
  sanitizeJsonLdContent content = withoutStripped content.
Proof.
  intros H. unfold sanitizeJsonLdContent. now apply replaceAll_absent.
Qed.

End SchemaProperties.

(** C8 (as amended): a JSON-LD block that is valid JSON once the
    characters U+0000-U+0008, U+000B, U+000C, U+000E-U+001F and
    U+007F-U+009F are removed, and that then holds no two adjacent
    backslashes, is parsed successfully after sanitization, to the same
    value; when that value is an object with a [@type] and without
    [@graph], the scan returns it, normalized.  And a block whose content
    cannot be parsed after sanitization is skipped: the scan goes on with
    the following blocks. *)
Theorem C8_jsonld_sanitization :
  forall (script : Dom.element) (rest : list Dom.element),
    let content := JsString.trim (Dom.textContent script) in
    (forall v,
       JsString.includes (withoutStripped content)
                         (SchemaDetector.backslash ++ SchemaDetector.backslash)
       = false ->
       Json.parse (withoutStripped content) = Js.Ok v ->
       Json.parse (SchemaDetector.sanitizeJsonLdContent content) = Js.Ok v
       /\ (content <> EmptyString ->
           Json.truthy (Json.getPropOpt (Some v) "@graph") = false ->
           Json.truthy (Json.getPropOpt (Some v) "@type") = true ->
           SchemaDetector.scanScripts (script :: rest)
           = Some (SchemaDetector.normalizeSchema v)))
    /\ (forall message,
          Json.parse (SchemaDetector.sanitizeJsonLdContent content)
          = Js.Throw message ->
          SchemaDetector.scanScripts (script :: rest)
          = SchemaDetector.scanScripts rest).
Proof.
  intros script rest content. split.
  - intros v Hbs Hparse.
    rewrite sanitize_without_double_backslash by assumption.
    split; [assumption|].
    intros Hne Hgraph Htype. simpl. unfold SchemaDetector.schemaOfScript.
    fold content. destruct content as [|c0 r0] eqn:Ec; [congruence|].
    rewrite sanitize_without_double_backslash by assumption.
    rewrite Hparse. simpl.
    destruct v as [| | | |items|members]; simpl in Htype; try discriminate.
    simpl in Hgraph. simpl. rewrite Hgraph, Htype. reflexivity.
  - intros message Hthrow. simpl. unfold SchemaDetector.schemaOfScript.
    fold content. destruct content as [|c0 r0] eqn:Ec; [reflexivity|].
    rewrite Hthrow. reflexivity.
Qed.

Lemma C8_jsonld_sanitization_witness :
  let script :=
    jsonLdScript (Json.q "{'@type':'Product','name':'a" ++ U0001
                  ++ Json.q "b'}") in
  SchemaDetector.scanScripts [script]
  = Some (Json.JObject
            [(Json.codes "@type", Json.JString (Json.codes "Product"));
             (Json.codes "name", Json.JString (Json.codes "ab"))])
  /\ SchemaDetector.scanScripts
       [jsonLdScript "{not json"; script]
     = SchemaDetector.scanScripts [script].
Proof.
  cbv zeta. split.
  - refine (proj2 (proj1 (C8_jsonld_sanitization _ [])
                     (Json.JObject
                        [(Json.codes "@type", Json.JString (Json.codes "Product"));
                         (Json.codes "name", Json.JString (Json.codes "ab"))])
                     _ _) _ _ _);
      (reflexivity || discriminate).
  - refine (proj2 (C8_jsonld_sanitization (jsonLdScript "{not json") _)
              "Unexpected token in JSON" _).
    reflexivity.
Defined.

(** C8 as stated fails.  Both blocks below are valid JSON once their
    control characters are removed.  The first holds a raw TAB inside a
    string, which the sanitizer keeps; the second holds an escaped
    backslash, which the sanitizer halves into an invalid escape.
    Neither is parsed after sanitization, and each is skipped. *)
Lemma C8_counterexample :
  let block1 := Json.q "{'@type':'Product','name':'a" ++ TAB ++ Json.q "b'}" in
  let block2 :=
    Json.q "{'@type':'Product','name':'C:" ++ SchemaDetector.backslash
    ++ SchemaDetector.backslash ++ "dir" ++ U0001 ++ Json.q "'}" in
  (exists v, Json.parse (SchemaDetector.removeChars isControl block1) = Js.Ok v)
  /\ (exists m, Json.parse (SchemaDetector.sanitizeJsonLdContent block1)
                = Js.Throw m)
  /\ SchemaDetector.scanScripts [jsonLdScript block1] = None
  /\ (exists v, Json.parse (SchemaDetector.removeChars isControl block2) = Js.Ok v)
  /\ (exists m, Json.parse (SchemaDetector.sanitizeJsonLdContent block2)
                = Js.Throw m)
  /\ SchemaDetector.scanScripts [jsonLdScript block2] = None.
Proof.
  cbv zeta. repeat split; try (eexists; vm_compute; reflexivity);
    vm_compute; reflexivity.
Qed.

(** ** Readability service *)

(** C6 (as amended): for every document that is not null, [parseArticle]
    returns a record and does not throw; when a step inside it throws, the
    record is the degraded one, with title 'Untitled Article', empty text
    content, empty excerpt, zero reading time and zero word count.  For a
    null document it throws 'No DOM provided to parseArticle'. *)
Theorem C6_parseArticle_errors :
  forall (findMainContent : Dom.document -> Js.result (option Dom.element))
         (cleanContent : option Dom.element -> Js.result (option Dom.element))
         (dom : Dom.document),
    let parse := ReadabilityService.parseArticle findMainContent cleanContent in
    (exists article, parse (Some dom) = Js.Ok article)
    /\ (forall message,
          findMainContent dom = Js.Throw message
          \/ (exists main,
                findMainContent dom = Js.Ok main
                /\ cleanContent
                     (ReadabilityService.orElement main
                        (ReadabilityService.orElement
                           (Dom.body dom) (Dom.documentElement dom)))
                   = Js.Throw message) ->
          parse (Some dom) = Js.Ok ReadabilityService.degraded)
    /\ ReadabilityService.title ReadabilityService.degraded = "Untitled Article"
    /\ ReadabilityService.textContent ReadabilityService.degraded = EmptyString
    /\ ReadabilityService.excerpt ReadabilityService.degraded = EmptyString
    /\ ReadabilityService.readingTime ReadabilityService.degraded = 0%Z
    /\ ReadabilityService.wordCount ReadabilityService.degraded = 0%Z
    /\ parse None = Js.Throw "No DOM provided to parseArticle".
Proof.
  intros findMainContent cleanContent dom parse. subst parse.
  unfold ReadabilityService.parseArticle.
  split; [eexists; reflexivity|].
  split; [|repeat split].
  intros message [H | (main & Hm & Hc)].
  - now rewrite H.
  - rewrite Hm. simpl. now rewrite Hc.
Qed.

Lemma C6_parseArticle_errors_witness :
  ReadabilityService.parseArticle
    (fun _ => Js.Throw "querySelector failed") (fun e => Js.Ok e) (Some [])
  = Js.Ok ReadabilityService.degraded.
Proof.
  apply (C6_parseArticle_errors
           (fun _ => Js.Throw "querySelector failed") (fun e => Js.Ok e) []
         ) with (message := "querySelector failed").
  now left.
Defined.

(** C6 as stated fails on the null document: [parseArticle] throws,
    whatever its helpers do. *)
Lemma C6_counterexample :
  (forall findMainContent cleanContent,
     ReadabilityService.parseArticle findMainContent cleanContent None
     = Js.Throw "No DOM provided to parseArticle")
  /\ (forall article : ReadabilityService.Article,
        Js.Throw "No DOM provided to parseArticle" <> Js.Ok article).
Proof.
  split; [reflexivity | discriminate].
Qed.

(** ** Extraction orchestrator *)

Section ExtractorProperties.

Import JsString ContentExtractor.

Lemma describeError_chooseMessage text message :
  snd (describeError text message) = chooseMessage errorCategories message.
Proof.
  unfold describeError, errorCategories.
  cbn [chooseMessage existsb]. rewrite !orb_false_r.
  destruct (includes message "Extension context invalidated"
            || includes message "Extension was reloaded"); [reflexivity|].
  destruct (includes message "Mixed content blocked"); [reflexivity|].
  destruct (includes message "CORS" || includes message "Failed to fetch");
    [reflexivity|].
  destruct (includes message "timeout" || includes message "Request timeout");
    [reflexivity|].
  destruct (includes message "Network error" || includes message "net::");
    [reflexivity|].
  destruct (includes message "404" || includes message "Not Found");
    [reflexivity|].
  destruct (includes message "403" || includes message "Forbidden");
    [reflexivity|].
  destruct (includes message "500" || includes message "Server Error");
    reflexivity.
Qed.

Lemma errorRecord_fields url text message :
  getField "contentType" (errorRecord url text message) = Some (VString "error")
  /\ getField "description" (errorRecord url text message)
     = Some (VString (chooseMessage errorCategories message))
  /\ getField "error" (errorRecord url text message) = Some (VString message)
  /\ getField "url" (errorRecord url text message) = Some (VString url).
Proof.
  rewrite <- (describeError_chooseMessage text message). unfold errorRecord.
  destruct (describeError text message) as [title userMessage].
  repeat split.
Qed.

(** Every failure of the fetch reaches the handler as 'Failed to fetch
    content: ...', which holds the marker 'Failed to fetch': such a
    failure is never shown as a timeout, a network failure or an HTTP
    status. *)
Lemma fetch_failure_message cause :
  In (chooseMessage errorCategories ("Failed to fetch content: " ++ cause))
     (map snd (firstn 3 errorCategories)).
Proof.
  set (message := "Failed to fetch content: " ++ cause).
  assert (H : includes message "Failed to fetch" = true) by reflexivity.
  unfold errorCategories. cbn [chooseMessage existsb firstn map snd In].
  rewrite H, !orb_false_r, orb_true_r.
  destruct (includes message "Extension context invalidated"
            || includes message "Extension was reloaded"); [tauto|].
  destruct (includes message "Mixed content blocked"); tauto.
Qed.

End ExtractorProperties.



(** C7, evaluated on the code.  For the product scenario the classifier
    returns 'product', the schema detector returns the Product object and
    [processProduct] reads the price "19.99" from it; but it then calls
    [imageProcessor.extractProductImages], which does not exist, so it
    throws, and the object delivered by [extract] is the error object,
    which has no price field. *)
Theorem C7_product_scenario :
  forall (nowISO : string)
         (extractMicrodataSchema extractRdfaSchema :
            Dom.document -> option Json.json)
         (processArticle processGallery :
            Dom.document -> ContentExtractor.PreviewData ->
            Js.result ContentExtractor.PreviewData)
         (processVideo processSocial :
            Dom.document -> ContentExtractor.PreviewData ->
            option Json.json -> Js.result ContentExtractor.PreviewData)
         (processDefault :
            Dom.document -> ContentExtractor.PreviewData ->
            Js.result ContentExtractor.PreviewData)
         (text : option string),
    let schema :=
      SchemaDetector.extractSchema extractMicrodataSchema extractRdfaSchema
                                   (Some product_page) in
    let delivered :=
      ContentExtractor.extract (fun _ => product_page) nowISO
        extractMicrodataSchema extractRdfaSchema processArticle processGallery
        processVideo processSocial processDefault
        (Js.Ok product_html) product_url text in
    ContentTypeDetector.detect (Some product_page) product_url = "product"
    /\ Json.getPropOpt (Json.getPropOpt schema "offers") "price"
       = Some (Json.JString (Json.codes "19.99"))
    /\ (forall previewData,
          ContentExtractor.processProduct product_page previewData schema
          = Js.Throw "imageProcessor.extractProductImages is not a function")
    /\ delivered
       = [ContentExtractor.errorRecord product_url text
            "imageProcessor.extractProductImages is not a function"]
    /\ (forall record, In record delivered ->
          ContentExtractor.getField "contentType" record
          = Some (ContentExtractor.VString "error")
          /\ ContentExtractor.getField "price" record = None).
Proof.
  intros nowISO extractMicrodataSchema extractRdfaSchema processArticle
         processGallery processVideo processSocial processDefault text
         schema delivered.
  assert (Hschema : schema = Some (Json.JObject
            [(Json.codes "@type", Json.JString (Json.codes "Product"));
             (Json.codes "offers",
              Json.JObject [(Json.codes "price",
                             Json.JString (Json.codes "19.99"))])]))
    by (subst schema; vm_compute; reflexivity).
  assert (Hdetect :
    ContentTypeDetector.detect (Some product_page) product_url = "product")
    by (vm_compute; reflexivity).
  assert (Hdelivered : delivered
       = [ContentExtractor.errorRecord product_url text
            "imageProcessor.extractProductImages is not a function"]).
  { subst delivered schema. vm_compute. reflexivity. }
  split; [exact Hdetect|]. split; [rewrite Hschema; reflexivity|].
  split; [intros previewData; rewrite Hschema; reflexivity|].
  split; [exact Hdelivered|].
  intros record Hin. rewrite Hdelivered in Hin.
  destruct Hin as [<- | []].
  unfold ContentExtractor.errorRecord.
  destruct (ContentExtractor.describeError _ _). split; reflexivity.
Qed.

(** ** The JSON parser never runs out of fuel *)

Section JsonFuel.

Import JsString Json.

Lemma skipSpace_length s : String.length (skipSpace s) <= String.length s.
Proof.
  induction s as [|c s IH]; simpl; [lia|].
  destruct (isJsonSpace c); simpl; lia.
Qed.

Lemma span_length f s :
  String.length (fst (span f s)) + String.length (snd (span f s))
  = String.length s.
Proof.
  induction s as [|c s IH]; simpl; [reflexivity|].
  destruct (f c); simpl; [|reflexivity].
  destruct (span f s) as [a b]. simpl in *. lia.
Qed.

Lemma span_snd_length f s :
  String.length (snd (span f s)) <= String.length s.
Proof.
  pose proof (span_length f s). lia.
Qed.

Lemma drop_length n s :
  String.length (drop n s) = String.length s - n.
Proof.
  revert s; induction n as [|n IH]; intros [|c s]; simpl; auto.
Qed.

Lemma prefix_length w s :
  String.prefix w s = true -> String.length w <= String.length s.
Proof.
  revert s; induction w as [|a w IH]; intros [|c s]; simpl; try lia;
    try discriminate.
  destruct (ascii_dec a c); [|discriminate].
  intros H. apply IH in H. lia.
Qed.

Lemma consTo_length c r u rest :
  consTo c r = Some (u, rest) ->
  exists u', r = Some (u', rest).
Proof.
  destruct r as [[u' rest']|]; simpl; [|discriminate].
  intros [= <- <-]. eauto.
Qed.

(** A string body ends after its closing quote: it consumes at least one
    character. *)
Lemma stringBody_length n :
  forall s u rest,
    String.length s <= n ->
    stringBody s = Some (u, rest) ->
    String.length rest < String.length s.
Proof.
  induction n as [|n IH]; intros s u rest Hn.
  - destruct s; [discriminate | simpl in Hn; lia].
  - destruct s as [|c s]; [discriminate|].
    simpl in Hn. cbn [stringBody].
    destruct (Ascii.eqb c (char 34)); [intros [= <- <-]; simpl; lia|].
    destruct (Ascii.eqb c (char 92)).
    + destruct s as [|e s]; [discriminate|]. simpl in Hn.
      assert (Hrec : forall code,
                consTo code (stringBody s) = Some (u, rest) ->
                String.length rest < String.length (String c (String e s))).
      { intros code Hc. apply consTo_length in Hc. destruct Hc as [u' Hc].
        apply IH in Hc; [simpl; lia | lia]. }
      repeat match goal with
             | |- (if ?b then _ else _) = _ -> _ =>
                 destruct b; [now apply Hrec|]
             end.
      destruct (Ascii.eqb e "u"); [|discriminate].
      destruct s as [|h1 [|h2 [|h3 [|h4 s5]]]]; try discriminate.
      destruct (hexValue h1), (hexValue h2), (hexValue h3), (hexValue h4);
        try discriminate.
      intros H. apply consTo_length in H. destruct H as [u' H].
      apply IH in H; simpl in *; lia.
    + destruct (nat_of_ascii c <? 32); [discriminate|].
      intros H. apply consTo_length in H. destruct H as [u' H].
      apply IH in H; simpl; lia.
Qed.

(** A number consumes at least one digit. *)
Lemma number_length s v rest :
  number s = Some (v, rest) -> String.length rest < String.length s.
Proof.
  unfold number.
  set (sign := match s with String "-" r => (true, r) | _ => (false, s) end).
  assert (Hsign : String.length (snd sign) <= String.length s).
  { subst sign. destruct s as [|c s]; simpl; [lia|].
    destruct c as [[] [] [] [] [] [] [] []]; simpl; lia. }
  destruct sign as [negative s1]. simpl in Hsign.
  pose proof (span_length isDigit s1) as Hint.
  destruct (span isDigit s1) as [intDigits s2]. simpl in Hint.
  destruct intDigits as [|d ds]; [discriminate|]. simpl in Hint.
  assert (Hs2 : String.length s2 < String.length s) by lia.
  clear Hint Hsign.
  set (intOk := match String d ds with
                | String "0" (String _ _) => false
                | _ => true
                end).
  destruct intOk; [|discriminate].
  set (fraction := match s2 with
                   | String "." r =>
                       let (d0, r') := span isDigit r in
                       match d0 with
                       | EmptyString => None
                       | _ => Some (d0, r')
                       end
                   | _ => Some (EmptyString, s2)
                   end).
  assert (Hfrac : forall fd s3, fraction = Some (fd, s3) ->
                                String.length s3 <= String.length s2).
  { subst fraction. intros fd s3. destruct s2 as [|c r]; [intros [= <- <-]; lia|].
    destruct (Ascii.eqb_spec c "."); [subst c|].
    - pose proof (span_snd_length isDigit r) as Hr.
      destruct (span isDigit r) as [d0 r']. simpl in Hr.
      destruct d0; [discriminate|]. intros [= <- <-]. simpl. lia.
    - assert (E : match c with
                  | "."%char =>
                      let (d0, r') := span isDigit r in
                      match d0 with
                      | EmptyString => None
                      | _ => Some (d0, r')
                      end
                  | _ => Some (EmptyString, String c r)
                  end = Some (EmptyString, String c r)).
      { destruct c as [[] [] [] [] [] [] [] []]; try reflexivity. congruence. }
      rewrite E. intros [= <- <-]. lia. }
  destruct fraction as [[fracDigits s3]|]; [|discriminate].
  specialize (Hfrac _ _ eq_refl).
  set (expo := match s3 with
               | String e r => _
               | EmptyString => _
               end).
  assert (Hexp : forall e r, expo = Some (e, r) ->
                             String.length r <= String.length s3).
  { subst expo. intros e r. destruct s3 as [|c r0]; [intros [= <- <-]; lia|].
    destruct (Ascii.eqb c "e" || Ascii.eqb c "E"); [|intros [= <- <-]; lia].
    set (esign := match r0 with
                  | String "-" r' => (true, r')
                  | String "+" r' => (false, r')
                  | _ => (false, r0)
                  end).
    assert (Hes : String.length (snd esign) <= String.length r0).
    { subst esign. destruct r0 as [|c1 r1]; simpl; [lia|].
      destruct c1 as [[] [] [] [] [] [] [] []]; simpl; lia. }
    destruct esign as [negExp r1]. simpl in Hes.
    pose proof (span_snd_length isDigit r1) as Hr.
    destruct (span isDigit r1) as [d0 r2]. simpl in Hr.
    destruct d0; [discriminate|]. intros [= <- <-]. simpl. lia. }
  destruct expo as [[e r]|]; [|discriminate].
  specialize (Hexp _ _ eq_refl).
  intros [= <- <-]. lia.
Qed.

Lemma literal_length word v s v' rest :
  word <> EmptyString ->
  literal word v s = Parsed v' rest ->
  String.length rest < String.length s.
Proof.
  unfold literal. intros Hw. destruct (String.prefix word s) eqn:E;
    [|discriminate].
  intros [= <- <-]. apply prefix_length in E. rewrite drop_length.
  destruct word; [congruence|]. simpl in *. lia.
Qed.

(** With two units of fuel per character the three parsers never stop for
    lack of fuel, and a parsed value has consumed at least one
    character. *)
Lemma parsers_fuel fuel :
  (forall s,
     2 * String.length s + 1 <= fuel ->
     value fuel s <> OutOfFuel
     /\ forall v rest, value fuel s = Parsed v rest ->
                       String.length rest < String.length s)
  /\ (forall acc s,
        2 * String.length s + 2 <= fuel ->
        elements fuel acc s <> OutOfFuel
        /\ forall v rest, elements fuel acc s = Parsed v rest ->
                          String.length rest < String.length s)
  /\ (forall acc s,
        2 * String.length s + 2 <= fuel ->
        members fuel acc s <> OutOfFuel
        /\ forall v rest, members fuel acc s = Parsed v rest ->
                          String.length rest < String.length s).
Proof.
  induction fuel as [|fuel (IHv & IHe & IHm)].
  - repeat split; intros; lia.
  - split; [|split].
    + (* value *)
      intros s Hfuel. cbn [value].
      destruct s as [|c s']; [split; [discriminate | intros; discriminate]|].
      simpl in Hfuel.
      destruct (Ascii.eqb c "{").
      { pose proof (skipSpace_length s') as Hsk.
        destruct (IHm [] (skipSpace s')) as [Hne Hlen]; [lia|].
        destruct (skipSpace s') as [|c1 r1] eqn:Es.
        - split; [exact Hne | intros v rest H; apply Hlen in H; simpl in *; lia].
        - assert (Hgen : members fuel [] (String c1 r1) <> OutOfFuel
                         /\ forall v rest,
                              members fuel [] (String c1 r1) = Parsed v rest ->
                              String.length rest < String.length (String c s')).
          { split; [exact Hne|]. intros v rest H. apply Hlen in H.
            simpl in *. lia. }
          destruct c1 as [[] [] [] [] [] [] [] []]; try exact Hgen.
          split; [discriminate|]. intros v rest [= <- <-]. simpl in *. lia. }
      destruct (Ascii.eqb c "[").
      { pose proof (skipSpace_length s') as Hsk.
        destruct (IHe [] (skipSpace s')) as [Hne Hlen]; [lia|].
        destruct (skipSpace s') as [|c1 r1] eqn:Es.
        - split; [exact Hne | intros v rest H; apply Hlen in H; simpl in *; lia].
        - assert (Hgen : elements fuel [] (String c1 r1) <> OutOfFuel
                         /\ forall v rest,
                              elements fuel [] (String c1 r1) = Parsed v rest ->
                              String.length rest < String.length (String c s')).
          { split; [exact Hne|]. intros v rest H. apply Hlen in H.
            simpl in *. lia. }
          destruct c1 as [[] [] [] [] [] [] [] []]; try exact Hgen.
          split; [discriminate|]. intros v rest [= <- <-]. simpl in *. lia. }
      destruct (Ascii.eqb c (char 34)).
      { destruct (stringBody s') as [[u rest0]|] eqn:Eb;
          [|split; [discriminate | intros; discriminate]].
        split; [discriminate|]. intros v rest [= <- <-].
        apply (stringBody_length _ _ _ _ (le_n _)) in Eb. simpl. lia. }
      destruct (Ascii.eqb c "t").
      { split; [unfold literal; destruct (String.prefix _ _); discriminate|].
        intros v rest H. eapply literal_length; [|exact H]. discriminate. }
      destruct (Ascii.eqb c "f").
      { split; [unfold literal; destruct (String.prefix _ _); discriminate|].
        intros v rest H. eapply literal_length; [|exact H]. discriminate. }
      destruct (Ascii.eqb c "n").
      { split; [unfold literal; destruct (String.prefix _ _); discriminate|].
        intros v rest H. eapply literal_length; [|exact H]. discriminate. }
      destruct (number (String c s')) as [[v0 rest0]|] eqn:En.
      * split; [discriminate|]. intros v rest [= <- <-].
        now apply number_length in En.
      * split; [discriminate | intros; discriminate].
    + (* elements *)
      intros acc s Hfuel. cbn [elements].
      destruct (IHv s) as [Hne Hlen]; [lia|].
      destruct (value fuel s) as [v rest| |] eqn:Ev;
        [|split; [discriminate | intros; discriminate] | congruence].
      specialize (Hlen _ _ eq_refl).
      pose proof (skipSpace_length rest) as Hsk.
      destruct (skipSpace rest) as [|c1 r1] eqn:Es;
        [split; [discriminate | intros; discriminate]|].
      simpl in Hsk.
      pose proof (skipSpace_length r1) as Hsk1.
      destruct (IHe (acc ++ [v])%list (skipSpace r1)) as [Hne' Hlen']; [lia|].
      assert (Hcomma :
        elements fuel (acc ++ [v])%list (skipSpace r1) <> OutOfFuel
        /\ forall v' rest',
             elements fuel (acc ++ [v])%list (skipSpace r1) = Parsed v' rest' ->
             String.length rest' < String.length s).
      { split; [exact Hne'|]. intros v' rest' H. apply Hlen' in H. lia. }
      assert (Hclose :
        Parsed (JArray (acc ++ [v])%list) r1 <> OutOfFuel
        /\ forall v' rest',
             Parsed (JArray (acc ++ [v])%list) r1 = Parsed v' rest' ->
             String.length rest' < String.length s).
      { split; [discriminate|]. intros v' rest' [= <- <-]. lia. }
      destruct c1 as [[] [] [] [] [] [] [] []];
        first [exact Hcomma | exact Hclose
              | split; [discriminate | intros; discriminate]].
    + (* members *)
      intros acc s Hfuel. cbn [members].
      destruct s as [|q0 s']; [split; [discriminate | intros; discriminate]|].
      simpl in Hfuel.
      destruct (Ascii.eqb q0 (char 34));
        [|split; [discriminate | intros; discriminate]].
      destruct (stringBody s') as [[key rest]|] eqn:Eb;
        [|split; [discriminate | intros; discriminate]].
      apply (stringBody_length _ _ _ _ (le_n _)) in Eb.
      pose proof (skipSpace_length rest) as Hsk.
      destruct (skipSpace rest) as [|c1 r1] eqn:Es;
        [split; [discriminate | intros; discriminate]|].
      simpl in Hsk.
      pose proof (skipSpace_length r1) as Hsk1.
      assert (Hcolon :
        match value fuel (skipSpace r1) with
        | Parsed v rest'' =>
            match skipSpace rest'' with
            | String "," r =>
                members fuel (setMember key v acc) (skipSpace r)
            | String "}" r => Parsed (JObject (setMember key v acc)) r
            | _ => SyntaxError
            end
        | SyntaxError => SyntaxError
        | OutOfFuel => OutOfFuel
        end <> OutOfFuel
        /\ forall v' rest',
             match value fuel (skipSpace r1) with
             | Parsed v rest'' =>
                 match skipSpace rest'' with
                 | String "," r =>
                     members fuel (setMember key v acc) (skipSpace r)
                 | String "}" r => Parsed (JObject (setMember key v acc)) r
                 | _ => SyntaxError
                 end
             | SyntaxError => SyntaxError
             | OutOfFuel => OutOfFuel
             end = Parsed v' rest' ->
             String.length rest' < String.length (String q0 s')).
      { destruct (IHv (skipSpace r1)) as [Hne Hlen]; [lia|].
        destruct (value fuel (skipSpace r1)) as [v rest''| |] eqn:Ev;
          [|split; [discriminate | intros; discriminate] | congruence].
        specialize (Hlen _ _ eq_refl).
        pose proof (skipSpace_length rest'') as Hsk2.
        destruct (skipSpace rest'') as [|c2 r2] eqn:Es2;
          [split; [discriminate | intros; discriminate]|].
        simpl in Hsk2.
        pose proof (skipSpace_length r2) as Hsk3.
        destruct (IHm (setMember key v acc) (skipSpace r2)) as [Hne' Hlen'];
          [lia|].
        assert (Hcomma :
          members fuel (setMember key v acc) (skipSpace r2) <> OutOfFuel
          /\ forall v' rest',
               members fuel (setMember key v acc) (skipSpace r2)
               = Parsed v' rest' ->
               String.length rest' < String.length (String q0 s')).
        { split; [exact Hne'|]. intros v' rest' H. apply Hlen' in H.
          simpl. lia. }
        assert (Hclose :
          Parsed (JObject (setMember key v acc)) r2 <> OutOfFuel
          /\ forall v' rest',
               Parsed (JObject (setMember key v acc)) r2 = Parsed v' rest' ->
               String.length rest' < String.length (String q0 s')).
        { split; [discriminate|]. intros v' rest' [= <- <-]. simpl. lia. }
        destruct c2 as [[] [] [] [] [] [] [] []];
          first [exact Hcomma | exact Hclose
                | split; [discriminate | intros; discriminate]]. }
      destruct c1 as [[] [] [] [] [] [] [] []];
        first [exact Hcolon | split; [discriminate | intros; discriminate]].
Qed.

(** [JSON.parse] always has fuel enough: a text is either parsed or
    rejected as a syntax error. *)
Lemma parse_fuel_enough text : parseText text <> OutOfFuel.
Proof.
  unfold parseText. apply (parsers_fuel _).
  pose proof (skipSpace_length text). lia.
Qed.

End JsonFuel.

(* ------------------------------------------------------------------ *)
(** * Further properties of the code *)
(* ------------------------------------------------------------------ *)

(** ** Preview cache: capacity, eviction and expiry *)

Section CacheInvariants.

Import PreviewGenerator.
Context {Preview : Type}.
Implicit Types (c : Cache Preview) (url : string) (p : Preview).

Lemma Map_get_set_other url url' v c :
  url' <> url -> Map_get url' (Map_set url v c) = Map_get url' c.
Proof.
  intros Hne. induction c as [|[k w] c IH]; simpl.
  - destruct (String.eqb_spec url url'); congruence.
  - destruct (String.eqb_spec k url) as [->|Hk]; simpl.
    + destruct (String.eqb_spec url url'); congruence.
    + now rewrite IH.
Qed.

Lemma Map_get_delete_other url url' c :
  url' <> url -> Map_get url' (Map_delete url c) = Map_get url' c.
Proof.
  intros Hne. induction c as [|[k w] c IH]; simpl; [reflexivity|].
  destruct (String.eqb_spec k url) as [->|Hk]; simpl.
  - destruct (String.eqb_spec url url'); congruence.
  - now rewrite IH.
Qed.

Lemma Map_get_None url c : ~ In url (keys c) -> Map_get url c = None.
Proof.
  induction c as [|[k w] c IH]; simpl; [reflexivity|].
  intros H. destruct (String.eqb_spec k url) as [->|Hk]; [tauto|].
  apply IH. tauto.
Qed.

Lemma Map_get_In url c e : Map_get url c = Some e -> In (url, e) c.
Proof.
  induction c as [|[k w] c IH]; simpl; [discriminate|].
  destruct (String.eqb_spec k url) as [->|Hk].
  - intros [= ->]. now left.
  - intros H. right. auto.
Qed.

Lemma keys_delete_incl url c k : In k (keys (Map_delete url c)) -> In k (keys c).
Proof.
  induction c as [|[k' w] c IH]; simpl; [tauto|].
  destruct (String.eqb k' url); simpl; tauto.
Qed.

Lemma NoDup_delete url c : NoDup (keys c) -> NoDup (keys (Map_delete url c)).
Proof.
  induction c as [|[k w] c IH]; simpl; [trivial|].
  intros H. inversion H as [|? ? Hk Hc]; subst.
  destruct (String.eqb k url); simpl; [assumption|].
  constructor; [|auto].
  intros Hin. apply Hk. eapply keys_delete_incl, Hin.
Qed.

Lemma keys_set url v c k : In k (keys (Map_set url v c)) -> k = url \/ In k (keys c).
Proof.
  induction c as [|[k' w] c IH]; simpl; [intuition|].
  destruct (String.eqb_spec k' url) as [->|Hk]; simpl; intuition.
Qed.

Lemma NoDup_set url v c : NoDup (keys c) -> NoDup (keys (Map_set url v c)).
Proof.
  induction c as [|[k w] c IH]; simpl.
  - intros _. repeat constructor. simpl. tauto.
  - intros H. inversion H as [|? ? Hk Hc]; subst.
    destruct (String.eqb_spec k url) as [->|Hne]; simpl.
    + now constructor.
    + constructor; [|auto].
      intros Hin. apply keys_set in Hin. destruct Hin; [congruence | tauto].
Qed.

Lemma Map_get_delete_same url c :
  NoDup (keys c) -> Map_get url (Map_delete url c) = None.
Proof.
  induction c as [|[k w] c IH]; simpl; [reflexivity|].
  intros H. inversion H as [|? ? Hk Hc]; subst.
  destruct (String.eqb_spec k url) as [->|Hne]; simpl.
  - now apply Map_get_None.
  - destruct (String.eqb_spec k url); [congruence | auto].
Qed.

Lemma length_delete url c :
  List.length (Map_delete url c) <= List.length c.
Proof.
  induction c as [|[k w] c IH]; simpl; [lia|].
  destruct (String.eqb k url); simpl; lia.
Qed.

Lemma length_set url v c :
  List.length (Map_set url v c) <= S (List.length c).
Proof.
  induction c as [|[k w] c IH]; simpl; [lia|].
  destruct (String.eqb k url); simpl; lia.
Qed.

Lemma Map_delete_notin url c : ~ In url (keys c) -> Map_delete url c = c.
Proof.
  induction c as [|[k w] c IH]; simpl; [reflexivity|].
  intros H. destruct (String.eqb_spec k url) as [->|Hne]; [tauto|].
  f_equal. apply IH. tauto.
Qed.

Lemma Map_delete_app url (kept rest : Cache Preview) :
  ~ In url (keys kept) ->
  Map_delete url (kept ++ rest)%list = (kept ++ Map_delete url rest)%list.
Proof.
  induction kept as [|[k w] kept IH]; simpl; [reflexivity|].
  intros H. destruct (String.eqb_spec k url) as [->|Hne]; [tauto|].
  f_equal. apply IH. tauto.
Qed.

(** On a map, whose keys are distinct, the loop of [clearExpiredCache]
    keeps exactly the entries that are not expired, in their order. *)
Lemma clearExpired_loop_filter now (kept entries : Cache Preview) :
  NoDup (keys (kept ++ entries)%list) ->
  clearExpired_loop now entries (kept ++ entries)%list
  = (kept ++ filter (fun kv => unexpired now (snd kv)) entries)%list.
Proof.
  revert kept. induction entries as [|[url data] rest IH]; intros kept Hnd.
  - reflexivity.
  - cbn [clearExpired_loop filter snd]. unfold unexpired at 1.
    assert (Hk : ~ In url (keys kept) /\ ~ In url (keys rest)).
    { unfold keys in *. rewrite map_app in Hnd. simpl in Hnd.
      apply NoDup_remove_2 in Hnd. rewrite in_app_iff in Hnd. tauto. }
    destruct (now - timestamp data >? cacheTimeout)%Z; cbn [negb].
    + rewrite Map_delete_app by tauto. simpl. rewrite String.eqb_refl.
      apply IH. unfold keys in *. rewrite map_app in *. simpl in Hnd.
      now apply NoDup_remove_1 in Hnd.
    + change (kept ++ (url, data) :: rest)%list
        with (kept ++ [(url, data)] ++ rest)%list.
      rewrite app_assoc. rewrite IH.
      * now rewrite <- app_assoc.
      * now rewrite <- app_assoc.
Qed.

Lemma clearExpiredCache_filter now c :
  NoDup (keys c) ->
  clearExpiredCache now c = filter (fun kv => unexpired now (snd kv)) c.
Proof.
  intros H. apply (clearExpired_loop_filter now [] c H).
Qed.

Lemma NoDup_filter_keys (f : string * CacheEntry Preview -> bool) c :
  NoDup (keys c) -> NoDup (keys (filter f c)).
Proof.
  induction c as [|[k w] c IH]; simpl; [trivial|].
  intros H. inversion H as [|? ? Hk Hc]; subst.
  destruct (f (k, w)); simpl; [|auto].
  constructor; [|auto]. intros Hin. apply Hk.
  unfold keys in *. apply in_map_iff in Hin. destruct Hin as [x [<- Hx]].
  apply filter_In in Hx. apply in_map. tauto.
Qed.

Lemma setCached_size now url p c :
  (Map_size _ c <= 51)%Z -> (Map_size _ (setCached now url p c) <= 51)%Z.
Proof.
  unfold setCached, Map_size. intros H.
  destruct (Z.gtb_spec (Z.of_nat (List.length c)) 50).
  - destruct c as [|[k w] c']; [simpl in *; lia|].
    cbn [Map_delete]. rewrite String.eqb_refl.
    pose proof (length_set url {| preview := p; timestamp := now |} c').
    simpl in H. lia.
  - pose proof (length_set url {| preview := p; timestamp := now |} c). lia.
Qed.

Lemma setCached_NoDup now url p c :
  NoDup (keys c) -> NoDup (keys (setCached now url p c)).
Proof.
  unfold setCached. intros H. apply NoDup_set.
  destruct (Map_size _ c >? 50)%Z; [|assumption].
  destruct c as [|[k w] c']; [assumption|]. now apply NoDup_delete.
Qed.

Lemma getCached_cache now url c :
  snd (getCached now url c) = c \/ snd (getCached now url c) = Map_delete url c.
Proof.
  unfold getCached. destruct (Map_get url c); [|now left].
  destruct (now - timestamp c0 >? cacheTimeout)%Z; simpl; auto.
Qed.

End CacheInvariants.

Lemma distinct_NoDup l : distinct l = true -> NoDup l.
Proof.
  induction l as [|x l IH]; simpl; [constructor|].
  intros H. apply andb_true_iff in H. destruct H as [Hx Hl].
  constructor; [|auto].
  intros Hin. apply mem_In in Hin. rewrite Hin in Hx. discriminate.
Qed.

Lemma reachable_fold (l : list nat) (c : PreviewGenerator.Cache string) :
  reachable c ->
  reachable
    (fold_left (fun c i => PreviewGenerator.setCached 0 (JsString.ofNat i)
                             (JsString.ofNat i) c) l c).
Proof.
  revert c. induction l as [|i l IH]; simpl; intros c H; [assumption|].
  apply IH. now apply reachable_set.
Qed.

Lemma reachable_filled n : reachable (filled n).
Proof.
  apply reachable_fold, reachable_new.
Qed.

(** X1: whatever calls of [getCached], [setCached], [clearCache] and
    [clearExpiredCache] a generator has served, its map holds distinct
    keys and at most 51 entries: [setCached] evicts one entry only when
    the size exceeds 50, before adding the new one. *)
Theorem cache_capacity :
  forall (Preview : Type) (c : PreviewGenerator.Cache Preview),
    reachable c ->
    NoDup (keys c) /\ (PreviewGenerator.Map_size Preview c <= 51)%Z.
Proof.
  intros Preview.
  induction 1 as [|now url c _ [IH1 IH2]|now url p c _ [IH1 IH2]
                  |c _ _|now c _ [IH1 IH2]].
  - split; [constructor | unfold PreviewGenerator.Map_size; simpl; lia].
  - destruct (getCached_cache now url c) as [-> | ->]; [tauto|].
    split; [now apply NoDup_delete|].
    unfold PreviewGenerator.Map_size in *.
    pose proof (length_delete url c). lia.
  - split; [now apply setCached_NoDup | now apply setCached_size].
  - split; [constructor | unfold PreviewGenerator.Map_size; simpl; lia].
  - rewrite clearExpiredCache_filter by assumption.
    split; [now apply NoDup_filter_keys|].
    unfold PreviewGenerator.Map_size in *.
    pose proof (filter_length_le (fun kv => unexpired now (snd kv)) c). lia.
Qed.

Lemma cache_capacity_witness :
  NoDup (keys (filled 3))
  /\ (PreviewGenerator.Map_size string (filled 3) <= 51)%Z.
Proof.
  apply (cache_capacity string (filled 3)).
  unfold filled. simpl.
  repeat apply reachable_set. apply reachable_new.
Defined.

(** The bound is reached: after 51 calls of [setCached] with distinct
    keys the map holds 51 entries. *)
Lemma cache_holds_51 :
  reachable (filled 51)
  /\ PreviewGenerator.Map_size string (filled 51) = 51%Z.
Proof.
  split; [apply reachable_filled | vm_compute; reflexivity].
Qed.

(** X2: [setCached(url, preview)] leaves the answer of [getCached] for
    every other key as it was, unless that key is the oldest one of a
    map with more than 50 entries. *)
Theorem setCached_keeps_other_entries :
  forall (Preview : Type) (c : PreviewGenerator.Cache Preview)
         (url url' : string) (p : Preview) (now now' : Z),
    url' <> url ->
    ((PreviewGenerator.Map_size Preview c > 50)%Z ->
     hd_error (keys c) <> Some url') ->
    fst (PreviewGenerator.getCached now' url'
           (PreviewGenerator.setCached now url p c))
    = fst (PreviewGenerator.getCached now' url' c).
Proof.
  intros Preview c url url' p now now' Hne Hold.
  assert (H : PreviewGenerator.Map_get url'
                (PreviewGenerator.setCached now url p c)
              = PreviewGenerator.Map_get url' c).
  { unfold PreviewGenerator.setCached.
    rewrite Map_get_set_other by assumption.
    destruct (Z.gtb_spec (PreviewGenerator.Map_size Preview c) 50) as [Hs|Hs];
      [|reflexivity].
    destruct c as [|[k w] c']; [reflexivity|].
    apply Map_get_delete_other. intros ->. apply Hold; [lia | reflexivity]. }
  unfold PreviewGenerator.getCached. rewrite H.
  destruct (PreviewGenerator.Map_get url' c) as [e|]; [|reflexivity].
  now destruct (now' - PreviewGenerator.timestamp e
                >? PreviewGenerator.cacheTimeout)%Z.
Qed.

Lemma setCached_keeps_other_entries_witness :
  fst (PreviewGenerator.getCached 10 "1"
         (PreviewGenerator.setCached 5 "new" "preview" (filled 51)))
  = fst (PreviewGenerator.getCached 10 "1" (filled 51)).
Proof.
  apply (setCached_keeps_other_entries string (filled 51) "new" "1" "preview"
           5 10).
  - discriminate.
  - intros _. vm_compute. discriminate.
Defined.

(** X3: on a map with more than 50 entries, [setCached] for another key
    drops the oldest entry, expired or not: a later [getCached] for the
    oldest key is a miss. *)
Theorem setCached_evicts_oldest :
  forall (Preview : Type) (oldest : string)
         (e : PreviewGenerator.CacheEntry Preview)
         (rest : PreviewGenerator.Cache Preview)
         (url : string) (p : Preview) (now now' : Z),
    let c := (oldest, e) :: rest in
    NoDup (keys c) ->
    (PreviewGenerator.Map_size Preview c > 50)%Z ->
    oldest <> url ->
    fst (PreviewGenerator.getCached now' oldest
           (PreviewGenerator.setCached now url p c)) = None.
Proof.
  intros Preview oldest e rest url p now now' c Hnd Hsize Hne.
  assert (H : PreviewGenerator.Map_get oldest
                (PreviewGenerator.setCached now url p c) = None).
  { unfold PreviewGenerator.setCached.
    rewrite Map_get_set_other by assumption.
    destruct (Z.gtb_spec (PreviewGenerator.Map_size Preview c) 50); [|lia].
    subst c. now apply Map_get_delete_same. }
  unfold PreviewGenerator.getCached. now rewrite H.
Qed.

Lemma setCached_evicts_oldest_witness :
  fst (PreviewGenerator.getCached 10 "0"
         (PreviewGenerator.setCached 5 "new" "preview" (filled 51))) = None.
Proof.
  set (rest := tl (filled 51)).
  change (filled 51)
    with (("0", {| PreviewGenerator.preview := "0";
                   PreviewGenerator.timestamp := 0%Z |}) :: rest).
  apply (setCached_evicts_oldest string "0" _ rest "new" "preview" 5 10).
  - apply distinct_NoDup. vm_compute. reflexivity.
  - vm_compute. reflexivity.
  - discriminate.
Defined.

Section ExpiredEntries.

Import PreviewGenerator.
Context {Preview : Type}.

Lemma Map_get_filter (g : CacheEntry Preview -> bool) url
                     (c : Cache Preview) :
  NoDup (keys c) ->
  Map_get url (filter (fun kv => g (snd kv)) c)
  = match Map_get url c with
    | Some e => if g e then Some e else None
    | None => None
    end.
Proof.
  induction c as [|[k w] c IH]; simpl; [reflexivity|].
  intros H. inversion H as [|? ? Hk Hc]; subst.
  destruct (String.eqb_spec k url) as [->|Hne].
  - destruct (g w) eqn:E; simpl.
    + now rewrite String.eqb_refl.
    + apply Map_get_None. intros Hin. apply Hk.
      unfold keys in *. apply in_map_iff in Hin. destruct Hin as [x [<- Hx]].
      apply filter_In in Hx. apply in_map. tauto.
  - destruct (g w); simpl; [|auto].
    destruct (String.eqb_spec k url); [congruence | auto].
Qed.

End ExpiredEntries.

(** X4: on a map (distinct keys), [clearExpiredCache()] keeps exactly the
    entries that are not expired, in their order, and no later
    [getCached] can tell that it ran: the answer for every key at every
    later time is the same with and without it. *)
Theorem clearExpiredCache_transparent :
  forall (Preview : Type) (c : PreviewGenerator.Cache Preview) (now : Z),
    NoDup (keys c) ->
    PreviewGenerator.clearExpiredCache now c
    = filter (fun kv => unexpired now (snd kv)) c
    /\ forall (now' : Z) (url : string),
         (now <= now')%Z ->
         fst (PreviewGenerator.getCached now' url
                (PreviewGenerator.clearExpiredCache now c))
         = fst (PreviewGenerator.getCached now' url c).
Proof.
  intros Preview c now Hnd.
  split; [now apply clearExpiredCache_filter|].
  intros now' url Hle.
  rewrite clearExpiredCache_filter by assumption.
  unfold PreviewGenerator.getCached.
  rewrite (Map_get_filter (unexpired now)) by assumption.
  destruct (PreviewGenerator.Map_get url c) as [e|]; [|reflexivity].
  unfold unexpired.
  destruct (Z.gtb_spec (now - PreviewGenerator.timestamp e)
                       PreviewGenerator.cacheTimeout) as [H1|H1]; simpl.
  - destruct (Z.gtb_spec (now' - PreviewGenerator.timestamp e)
                         PreviewGenerator.cacheTimeout); [reflexivity | lia].
  - now destruct (now' - PreviewGenerator.timestamp e
                  >? PreviewGenerator.cacheTimeout)%Z.
Qed.

Lemma clearExpiredCache_transparent_witness :
  PreviewGenerator.clearExpiredCache 400000 (filled 3)
  = filter (fun kv => unexpired 400000 (snd kv)) (filled 3)
  /\ forall (now' : Z) (url : string),
       (400000 <= now')%Z ->
       fst (PreviewGenerator.getCached now' url
              (PreviewGenerator.clearExpiredCache 400000 (filled 3)))
       = fst (PreviewGenerator.getCached now' url (filled 3)).
Proof.
  apply (clearExpiredCache_transparent string (filled 3) 400000).
  apply distinct_NoDup. vm_compute. reflexivity.
Defined.

(** ** Text summarizer: length and order of the summary *)

Section SummaryShape.

Import JsString TextSummarizer.

Lemma length_app_string (a b : string) :
  String.length (a ++ b) = String.length a + String.length b.
Proof.
  induction a as [|c a IH]; simpl; [reflexivity | now rewrite IH].
Qed.

Lemma length_take n s : String.length (take n s) = Nat.min n (String.length s).
Proof.
  revert s; induction n as [|n IH]; intros [|c s]; simpl; auto.
Qed.

Lemma take_take n m s : take n (take m s) = take (Nat.min n m) s.
Proof.
  revert m s; induction n as [|n IH]; intros [|m] [|c s]; simpl; auto.
  now rewrite IH.
Qed.

Lemma take_all s : take (String.length s) s = s.
Proof.
  induction s as [|c s IH]; simpl; [reflexivity | now rewrite IH].
Qed.

(** What [truncateToFit] returns: the text when it fits, and otherwise
    one of its prefixes of at most [maxChars] characters, alone or
    followed by an ellipsis. *)
Lemma truncateToFit_cases text maxChars :
  (0 <= maxChars)%Z ->
  exists n,
    (Z.of_nat n <= maxChars)%Z
    /\ (truncateToFit text maxChars = take n text
        \/ truncateToFit text maxChars = take n text ++ "...").
Proof.
  intros Hm. unfold truncateToFit.
  destruct text as [|c text']; [exists 0; split; [lia | now left]|].
  set (text := String c text').
  destruct (Z.leb_spec (len text) maxChars) as [Hfit|Hlong].
  - exists (String.length text). unfold len in Hfit.
    split; [lia | left; now rewrite take_all].
  - unfold substr0.
    destruct (bestBreakOf (take (Z.to_nat maxChars) text) maxChars >? 0)%Z.
    + rewrite take_take. eexists. split; [|left; reflexivity]. lia.
    + destruct (2 * lastIndexOf (take (Z.to_nat maxChars) text) " "
                >? maxChars)%Z.
      * rewrite take_take. eexists. split; [|right; reflexivity]. lia.
      * exists (Z.to_nat maxChars). split; [lia | right; reflexivity].
Qed.

Lemma truncateToFit_length text maxChars :
  (0 <= maxChars)%Z ->
  (len (truncateToFit text maxChars) <= maxChars + 3)%Z.
Proof.
  intros Hm. destruct (truncateToFit_cases text maxChars Hm) as [n [Hn [-> | ->]]];
    unfold len; [|rewrite length_app_string]; rewrite length_take; simpl; lia.
Qed.

End SummaryShape.

(** X5: for a limit [maxChars >= 0], [truncateToFit(text, maxChars)]
    returns the text itself when it has at most [maxChars] characters,
    and otherwise a prefix of the text of at most [maxChars] characters,
    alone or followed by '...': the result never has more than
    [maxChars + 3] characters. *)
Theorem truncateToFit_shape :
  forall (text : string) (maxChars : Z),
    (0 <= maxChars)%Z ->
    let result := TextSummarizer.truncateToFit text maxChars in
    (JsString.len result <= maxChars + 3)%Z
    /\ ((JsString.len text <= maxChars)%Z -> result = text)
    /\ exists n,
         (Z.of_nat n <= maxChars)%Z
         /\ (result = JsString.take n text
             \/ result = (JsString.take n text ++ "...")%string).
Proof.
  intros text maxChars Hm result. subst result.
  split; [now apply truncateToFit_length|].
  split; [|now apply truncateToFit_cases].
  intros Hfit. unfold TextSummarizer.truncateToFit.
  destruct text; [reflexivity|].
  destruct (Z.leb_spec (JsString.len (String a text)) maxChars);
    [reflexivity | lia].
Qed.

Lemma truncateToFit_shape_witness :
  let result := TextSummarizer.truncateToFit C2_long_word 280 in
  (JsString.len result <= 280 + 3)%Z
  /\ ((JsString.len C2_long_word <= 280)%Z -> result = C2_long_word)
  /\ exists n,
       (Z.of_nat n <= 280)%Z
       /\ (result = JsString.take n C2_long_word
           \/ result = (JsString.take n C2_long_word ++ "...")%string).
Proof.
  apply (truncateToFit_shape C2_long_word 280). lia.
Defined.

(** X6: for a limit [maxChars >= 0], the summary has at most
    [maxChars + 3] characters whenever the text splits into no sentence
    or into three or more; only the path for one or two sentences, which
    returns the first sentence as it is, escapes the limit. *)
Theorem summarize_length_bound :
  forall (scoreSentence : string -> string -> nat -> nat -> Z)
         (text : string) (maxSentences maxChars : Z),
    (0 <= maxChars)%Z ->
    List.length (TextSummarizer.splitIntoSentences text) <> 1 ->
    List.length (TextSummarizer.splitIntoSentences text) <> 2 ->
    (JsString.len
       (TextSummarizer.summarize scoreSentence text maxSentences maxChars)
     <= maxChars + 3)%Z.
Proof.
  intros scoreSentence text maxSentences maxChars Hm H1 H2.
  unfold TextSummarizer.summarize.
  destruct text as [|c text']; [unfold JsString.len; simpl; lia|].
  set (text := String c text') in *.
  destruct (TextSummarizer.splitIntoSentences text)
    as [|s1 [|s2 [|s3 rest]]] eqn:E.
  - now apply truncateToFit_length.
  - simpl in H1. congruence.
  - simpl in H2. congruence.
  - match goal with
    | |- context [if (JsString.len ?s >? maxChars)%Z then _ else _] =>
        destruct (Z.gtb_spec (JsString.len s) maxChars)
    end.
    + now apply truncateToFit_length.
    + lia.
Qed.

Lemma summarize_length_bound_witness :
  (JsString.len
     (TextSummarizer.summarize (fun _ _ _ _ => 0%Z) three_sentences 2 40)
   <= 40 + 3)%Z.
Proof.
  apply (summarize_length_bound (fun _ _ _ _ => 0%Z) three_sentences 2 40).
  - lia.
  - vm_compute. discriminate.
  - vm_compute. discriminate.
Defined.
Section SummaryOrder.

Import JsString TextSummarizer.

Lemma NoDup_firstn {A} n (l : list A) : NoDup l -> NoDup (firstn n l).
Proof.
  revert l; induction n as [|n IH]; intros [|x l] H; simpl; try constructor.
  - inversion H; subst. intros Hin. apply firstn_In in Hin. tauto.
  - inversion H; subst. auto.
Qed.

Lemma slice0_NoDup_index l k :
  NoDup (map index l) -> NoDup (map index (slice0 l k)).
Proof.
  intros H. unfold slice0.
  destruct (k <? 0)%Z; rewrite <- firstn_map; now apply NoDup_firstn.
Qed.

Variable scoreSentence : string -> string -> nat -> nat -> Z.
Variable text : string.
Variable total : nat.

Lemma scoreAll_index i sentences :
  map index (scoreAll scoreSentence text total i sentences)
  = seq i (List.length sentences).
Proof.
  revert i; induction sentences as [|s l IH]; simpl; intros i; [reflexivity|].
  now rewrite IH.
Qed.

Lemma scoreAll_index_ge i sentences x :
  In x (scoreAll scoreSentence text total i sentences) -> i <= index x.
Proof.
  intros H. apply (in_map index) in H. rewrite scoreAll_index in H.
  apply in_seq in H. lia.
Qed.

Lemma insertByScore_Permutation x l : Permutation (insertByScore x l) (x :: l).
Proof.
  induction l as [|y l IH]; simpl; [reflexivity|].
  destruct (score y <=? score x)%Z; [reflexivity|].
  rewrite IH. apply perm_swap.
Qed.

Lemma sortByScore_Permutation l : Permutation (sortByScore l) l.
Proof.
  induction l as [|x l IH]; simpl; [reflexivity|].
  rewrite insertByScore_Permutation. now constructor.
Qed.

Lemma insertByIndex_Permutation x l : Permutation (insertByIndex x l) (x :: l).
Proof.
  induction l as [|y l IH]; simpl; [reflexivity|].
  destruct (index x <=? index y); [reflexivity|].
  rewrite IH. apply perm_swap.
Qed.

Lemma sortByIndex_Permutation l : Permutation (sortByIndex l) l.
Proof.
  induction l as [|x l IH]; simpl; [reflexivity|].
  rewrite insertByIndex_Permutation. now constructor.
Qed.

Lemma insertByIndex_sorted x l :
  StronglySorted (fun a b => index a <= index b) l ->
  StronglySorted (fun a b => index a <= index b) (insertByIndex x l).
Proof.
  induction 1 as [|y l Hl IH Hy]; simpl.
  - repeat constructor.
  - destruct (Nat.leb_spec (index x) (index y)) as [Hxy|Hxy].
    + constructor; [now constructor|].
      constructor; [assumption|].
      eapply Forall_impl; [|exact Hy]. simpl. intros; lia.
    + constructor; [assumption|].
      rewrite Forall_forall. intros z Hz.
      apply (Permutation_in _ (insertByIndex_Permutation x l)) in Hz.
      destruct Hz as [<-|Hz]; [lia|].
      rewrite Forall_forall in Hy. now apply Hy.
Qed.

Lemma sortByIndex_sorted l :
  StronglySorted (fun a b => index a <= index b) (sortByIndex l).
Proof.
  induction l as [|x l IH]; simpl; [constructor|].
  now apply insertByIndex_sorted.
Qed.

Lemma sorted_strictly l :
  StronglySorted (fun a b => index a <= index b) l ->
  NoDup (map index l) ->
  StronglySorted (fun a b => index a < index b) l.
Proof.
  induction 1 as [|y l Hl IH Hy]; simpl; intros Hnd; [constructor|].
  inversion Hnd as [|? ? Hin Hnd']; subst.
  constructor; [auto|].
  rewrite Forall_forall in *. intros z Hz.
  specialize (Hy z Hz).
  assert (index z <> index y) by (intros E; apply Hin; rewrite <- E; now apply in_map).
  lia.
Qed.

(** Sentences picked among the scored ones, in strictly increasing order
    of index, stand in the order of the text. *)
Lemma increasing_Subsequence sentences :
  forall i l,
    (forall x, In x l -> In x (scoreAll scoreSentence text total i sentences)) ->
    StronglySorted (fun a b => index a < index b) l ->
    Subsequence (map sentence l) sentences.
Proof.
  induction sentences as [|s rest IH]; intros i l Hin Hsorted.
  - destruct l as [|y l]; [constructor|].
    destruct (Hin y (or_introl eq_refl)).
  - destruct l as [|y l]; [constructor|].
    cbn [scoreAll] in Hin.
    inversion Hsorted as [|? ? Hl Hy]; subst.
    rewrite Forall_forall in Hy.
    destruct (Hin y (or_introl eq_refl)) as [<-|Hytail].
    + cbn [map sentence]. apply Subsequence_take.
      apply (IH (S i)); [|assumption].
      intros x Hx. destruct (Hin x (or_intror Hx)) as [<-|H]; [|assumption].
      specialize (Hy _ Hx). simpl in Hy. lia.
    + apply Subsequence_skip. apply (IH (S i)); [|assumption].
      intros x [<-|Hx]; [assumption|].
      destruct (Hin x (or_intror Hx)) as [<-|H]; [|assumption].
      specialize (Hy _ Hx). apply scoreAll_index_ge in Hytail.
      simpl in Hy. lia.
Qed.

End SummaryOrder.

(** X7: when the text splits into three or more sentences and
    [maxSentences >= 0], the summary is built from
    [min(maxSentences, number of sentences)] of these sentences, each
    taken once and in the order of the text, whatever their scores:
    joined by single spaces, and passed through [truncateToFit] when the
    result exceeds [maxChars]. *)
Theorem summarize_keeps_order :
  forall (scoreSentence : string -> string -> nat -> nat -> Z)
         (text : string) (maxSentences maxChars : Z),
    3 <= List.length (TextSummarizer.splitIntoSentences text) ->
    (0 <= maxSentences)%Z ->
    exists chosen,
      Subsequence chosen (TextSummarizer.splitIntoSentences text)
      /\ Z.of_nat (List.length chosen)
         = Z.min maxSentences
             (Z.of_nat (List.length (TextSummarizer.splitIntoSentences text)))
      /\ TextSummarizer.summarize scoreSentence text maxSentences maxChars
         = let summary := JsString.join " " chosen in
           if (JsString.len summary >? maxChars)%Z
           then TextSummarizer.truncateToFit summary maxChars
           else summary.
Proof.
  intros scoreSentence text maxSentences maxChars H3 Hk.
  unfold TextSummarizer.summarize.
  destruct text as [|c text']; [simpl in H3; lia|].
  set (text := String c text') in *.
  destruct (TextSummarizer.splitIntoSentences text)
    as [|s1 [|s2 [|s3 rest]]] eqn:E; simpl in H3; try lia.
  set (sentences := s1 :: s2 :: s3 :: rest) in *.
  set (total := List.length sentences).
  set (scored := TextSummarizer.scoreAll scoreSentence text total 0 sentences).
  set (top := TextSummarizer.sortByIndex
                (TextSummarizer.slice0 (TextSummarizer.sortByScore scored)
                   (Z.min maxSentences (Z.of_nat total)))).
  exists (map TextSummarizer.sentence top).
  split; [|split; [|reflexivity]].
  - apply (increasing_Subsequence scoreSentence text total sentences 0).
    + intros x Hx. subst top. rewrite sortByIndex_In in Hx.
      apply slice0_In in Hx. now rewrite sortByScore_In in Hx.
    + subst top. apply sorted_strictly; [apply sortByIndex_sorted|].
      eapply Permutation_NoDup.
      * apply Permutation_map. symmetry. apply sortByIndex_Permutation.
      * apply slice0_NoDup_index.
        eapply Permutation_NoDup.
        -- apply Permutation_map. symmetry. apply sortByScore_Permutation.
        -- subst scored. rewrite scoreAll_index. apply seq_NoDup.
  - subst top. rewrite length_map, sortByIndex_length.
    unfold TextSummarizer.slice0.
    destruct (Z.ltb_spec (Z.min maxSentences (Z.of_nat total)) 0); [lia|].
    rewrite length_firstn, sortByScore_length.
    subst scored. rewrite scoreAll_length. fold total. lia.
Qed.

Lemma summarize_keeps_order_witness :
  exists chosen,
    Subsequence chosen (TextSummarizer.splitIntoSentences three_sentences)
    /\ Z.of_nat (List.length chosen)
       = Z.min 2 (Z.of_nat (List.length
                    (TextSummarizer.splitIntoSentences three_sentences)))
    /\ TextSummarizer.summarize (fun _ _ i _ => Z.of_nat i) three_sentences 2 280
       = let summary := JsString.join " " chosen in
         if (JsString.len summary >? 280)%Z
         then TextSummarizer.truncateToFit summary 280
         else summary.
Proof.
  apply (summarize_keeps_order (fun _ _ i _ => Z.of_nat i) three_sentences 2 280).
  - vm_compute. lia.
  - lia.
Defined.

(** ** Content-type detector: text volume, error budget, letter case *)

Section DetectorLoops.

Import JsString Dom ContentTypeDetector.

Lemma textLoop_sum blocks :
  forall n, textLoop blocks n = (1000 <? n + list_sum (map blockLength blocks)).
Proof.
  induction blocks as [|b rest IH]; intros n; cbn [textLoop map list_sum].
  - now rewrite Nat.add_0_r.
  - assert (Eb : blockLength b = String.length (trim (textContent b)))
      by reflexivity.
    change (list_sum (blockLength b :: map blockLength rest))
      with (blockLength b + list_sum (map blockLength rest)).
    destruct (Nat.ltb_spec 1000
                (n + String.length (trim (textContent b)))) as [H|H].
    + symmetry. apply Nat.ltb_lt. lia.
    + rewrite IH. f_equal. lia.
Qed.

Lemma schemaLoop_budget (body : string -> Js.result bool) bad rest :
  (forall s, In s bad -> exists m, body (textContent s) = Js.Throw m) ->
  forall n,
    1 <= List.length bad -> 6 <= n + List.length bad ->
    schemaLoop body n (bad ++ rest) = false.
Proof.
  induction bad as [|s bad IH]; intros Hbad n H1 H6; simpl in *; [lia|].
  destruct (Hbad s (or_introl eq_refl)) as [m ->].
  destruct n as [|[|[|[|[|n]]]]]; try reflexivity;
    (apply IH; [intros; apply Hbad; now right | lia | lia]).
Qed.

Lemma toLowerCase_empty url : toLowerCase url = EmptyString -> url = EmptyString.
Proof.
  destruct url; simpl; [reflexivity | discriminate].
Qed.

End DetectorLoops.

(** X8: the early exit of [hasSubstantialText] does not change its
    answer: the page has substantial text exactly when the trimmed texts
    of the first 50 elements matching [p, article, .content, #content,
    main], in document order, total more than 1000 characters; later
    blocks never count. *)
Theorem hasSubstantialText_total :
  forall dom : Dom.document,
    ContentTypeDetector.hasSubstantialText dom
    = (1000 <? list_sum (map blockLength
                           (firstn 50 (Dom.querySelectorAll dom textBlocks)))).
Proof.
  intros dom. unfold ContentTypeDetector.hasSubstantialText.
  now rewrite textLoop_sum.
Qed.

(** X9: the schema checks of the detector give up at the sixth JSON-LD
    script that fails to parse: when the first six scripts of the page
    (or more) are not JSON, [hasArticleSchema] and [hasProductSchema]
    are false whatever the scripts after them hold. *)
Theorem schema_error_budget :
  forall (dom : Dom.document) (bad rest : list Dom.element),
    Dom.querySelectorAll dom ContentTypeDetector.jsonLdScripts
    = (bad ++ rest)%list ->
    6 <= List.length bad ->
    (forall s, In s bad ->
               exists m, Json.parse (Dom.textContent s) = Js.Throw m) ->
    ContentTypeDetector.hasArticleSchema dom = false
    /\ ContentTypeDetector.hasProductSchema dom = false.
Proof.
  intros dom bad rest Hq H6 Hbad.
  unfold ContentTypeDetector.hasArticleSchema,
         ContentTypeDetector.hasProductSchema.
  rewrite Hq. split; apply schemaLoop_budget; try lia.
  - intros s Hs. destruct (Hbad s Hs) as [m Hm]. exists m.
    unfold ContentTypeDetector.articleSchemaIn. now rewrite Hm.
  - intros s Hs. destruct (Hbad s Hs) as [m Hm]. exists m.
    unfold ContentTypeDetector.productSchemaIn. now rewrite Hm.
Qed.

Lemma schema_error_budget_witness :
  ContentTypeDetector.hasArticleSchema six_broken_scripts_page = false
  /\ ContentTypeDetector.hasProductSchema six_broken_scripts_page = false.
Proof.
  apply (schema_error_budget six_broken_scripts_page
           (firstn 6 (Dom.querySelectorAll six_broken_scripts_page
                        ContentTypeDetector.jsonLdScripts))
           (skipn 6 (Dom.querySelectorAll six_broken_scripts_page
                       ContentTypeDetector.jsonLdScripts))).
  - symmetry. apply firstn_skipn.
  - vm_compute. lia.
  - intros s Hs. vm_compute in Hs.
    repeat (destruct Hs as [<- | Hs];
            [eexists; vm_compute; reflexivity|]).
    destruct Hs.
Defined.

(** The schema detector has no such budget: on the same page it skips
    the six broken scripts and returns the article of the seventh. *)
Lemma six_broken_scripts_schema :
  Json.getPropOpt
    (SchemaDetector.extractJsonLdSchema six_broken_scripts_page) "@type"
  = Some (Json.JString (Json.codes "Article")).
Proof.
  vm_compute. reflexivity.
Qed.

(** X10: the detector reads the URL in lower case only: two URLs that
    differ in the case of their letters are classified alike, for every
    document. *)
Theorem detect_ignores_case :
  forall (dom : option Dom.document) (url url' : string),
    JsString.toLowerCase url = JsString.toLowerCase url' ->
    ContentTypeDetector.detect dom url = ContentTypeDetector.detect dom url'.
Proof.
  intros [dom|] url url' H; [|reflexivity].
  destruct url as [|c u].
  - symmetry in H. apply toLowerCase_empty in H. now subst.
  - destruct url' as [|c' u'].
    + apply toLowerCase_empty in H. discriminate.
    + unfold ContentTypeDetector.detect, ContentTypeDetector.isVideoSite,
        ContentTypeDetector.isSocialSite, ContentTypeDetector.isEcommerceSite.
      now rewrite H.
Qed.

Lemma detect_ignores_case_witness :
  ContentTypeDetector.detect (Some C5_page) "HTTPS://Example.ORG/Shop/Lamp"
  = ContentTypeDetector.detect (Some C5_page) "https://example.org/shop/lamp".
Proof.
  apply (detect_ignores_case (Some C5_page) "HTTPS://Example.ORG/Shop/Lamp"
           "https://example.org/shop/lamp").
  reflexivity.
Defined.

(** ** Schema detector: sanitizer output and the choice of a schema *)

Section SanitizerOutput.

Import JsString SchemaDetector.

Lemma removeChars_chars (class : ascii -> bool) s c :
  In c (list_ascii_of_string (removeChars class s)) ->
  In c (list_ascii_of_string s) /\ class c = false.
Proof.
  induction s as [|a s IH]; simpl; [tauto|].
  destruct (class a) eqn:E; simpl.
  - intros H. destruct (IH H). tauto.
  - intros [<-|H]; [tauto|]. destruct (IH H). tauto.
Qed.

Lemma removeChars_length (class : ascii -> bool) s :
  String.length (removeChars class s) <= String.length s.
Proof.
  induction s as [|a s IH]; simpl; [lia|].
  destruct (class a); simpl; lia.
Qed.

Lemma chars_app (a b : string) :
  list_ascii_of_string (a ++ b)
  = (list_ascii_of_string a ++ list_ascii_of_string b)%list.
Proof.
  induction a as [|c a IH]; simpl; [reflexivity | now rewrite IH].
Qed.

(** A character of the result of a replacement comes from the
    replacement text or from the subject. *)
Lemma replacePattern_chars p repl s c :
  forall skip,
    In c (list_ascii_of_string (replacePattern_go p repl skip s)) ->
    In c (list_ascii_of_string repl) \/ In c (list_ascii_of_string s).
Proof.
  induction s as [|a s IH]; intros skip; cbn [replacePattern_go].
  - simpl. tauto.
  - destruct skip as [|k].
    + destruct p as [|a0 p'].
      * simpl. intros [<-|H]; [tauto|]. destruct (IH 0 H); tauto.
      * destruct (matchAtoms (a0 :: p') (String a s)).
        -- rewrite chars_app, in_app_iff.
           intros [H|H]; [tauto|]. destruct (IH _ H); simpl; tauto.
        -- simpl. intros [<-|H]; [tauto|]. destruct (IH 0 H); tauto.
    + intros H. destruct (IH _ H); simpl; tauto.
Qed.

Lemma matchAtoms_length p s :
  matchAtoms p s = true -> List.length p <= String.length s.
Proof.
  revert s; induction p as [|[a|] p IH]; intros [|c s]; simpl;
    try discriminate; try lia.
  - intros H. apply andb_true_iff in H. destruct H as [_ H].
    apply IH in H. lia.
  - intros H. apply andb_true_iff in H. destruct H as [_ H].
    apply IH in H. lia.
Qed.

(** A replacement text no longer than the pattern does not lengthen the
    subject. *)
Lemma replacePattern_length p repl s :
  String.length repl <= List.length p ->
  forall skip,
    String.length (replacePattern_go p repl skip s)
    + Nat.min skip (String.length s) <= String.length s.
Proof.
  intros Hrepl. induction s as [|a s IH]; intros skip; cbn [replacePattern_go].
  - simpl. lia.
  - destruct skip as [|k].
    + destruct p as [|a0 p'].
      * specialize (IH 0). simpl in *. lia.
      * destruct (matchAtoms (a0 :: p') (String a s)) eqn:E.
        -- apply matchAtoms_length in E. simpl in E.
           specialize (IH (List.length p')).
           rewrite length_app_string. simpl in *. lia.
        -- specialize (IH 0). simpl in *. lia.
    + specialize (IH k). simpl. lia.
Qed.

End SanitizerOutput.

(** X11: the text returned by [sanitizeJsonLdContent] holds none of the
    characters it strips (U+0000-U+0008, U+000B, U+000C, U+000E-U+001F,
    U+007F-U+009F) and is never longer than the content it was given. *)
Theorem sanitized_content :
  forall content : string,
    String.length (SchemaDetector.sanitizeJsonLdContent content)
    <= String.length content
    /\ forall c : ascii,
         In c (list_ascii_of_string
                 (SchemaDetector.sanitizeJsonLdContent content)) ->
         SchemaDetector.isStrippedC0 c = false
         /\ SchemaDetector.isStrippedC1 c = false.
Proof.
  intros content. unfold SchemaDetector.sanitizeJsonLdContent.
  set (s1 := SchemaDetector.removeChars SchemaDetector.isStrippedC0 content).
  set (s2 := SchemaDetector.removeChars SchemaDetector.isStrippedC1 s1).
  split.
  - pose proof (replacePattern_length
        (JsString.literal (SchemaDetector.backslash ++ SchemaDetector.backslash))
        SchemaDetector.backslash s2 ltac:(simpl; lia) 0) as Hreplace.
    pose proof (removeChars_length SchemaDetector.isStrippedC1 s1) as Hc1.
    pose proof (removeChars_length SchemaDetector.isStrippedC0 content) as Hc0.
    unfold JsString.replaceAll, JsString.replacePattern.
    fold s1 in Hc0. fold s2 in Hc1. lia.
  - intros c Hc. unfold JsString.replaceAll, JsString.replacePattern in Hc.
    apply replacePattern_chars in Hc. destruct Hc as [Hc|Hc].
    + simpl in Hc. destruct Hc as [<-|[]]. split; reflexivity.
    + subst s2. apply removeChars_chars in Hc. destruct Hc as [Hc H1].
      subst s1. apply removeChars_chars in Hc. tauto.
Qed.

Section RelevantSchema.

Import Json SchemaDetector.

Lemma hasType_hasAnyType type schema :
  hasType type schema = true -> hasAnyType schema = true.
Proof.
  unfold hasType, hasAnyType.
  destruct schema as [| | | | |fields]; try discriminate.
  destruct (truthy (lookup (codes "@type") fields)); [reflexivity | discriminate].
Qed.

Lemma firstOfPriority_Some types items schema :
  firstOfPriority types items = Some schema ->
  exists item,
    In item items /\ hasAnyType item = true /\ schema = normalizeSchema item.
Proof.
  induction types as [|t types IH]; simpl; [discriminate|].
  destruct (find (hasType t) items) as [found|] eqn:E; [|exact IH].
  intros [= <-]. apply find_some in E. destruct E as [Hin Ht].
  exists found. split; [assumption|]. split; [|reflexivity].
  eapply hasType_hasAnyType, Ht.
Qed.

Lemma normalizeSchema_typed item :
  hasAnyType item = true ->
  exists members,
    normalizeSchema item = JObject members
    /\ lookup (codes "@type") members <> None.
Proof.
  unfold hasAnyType, normalizeSchema.
  destruct item as [| | | | |fields]; try discriminate.
  intros H. destruct (lookup (codes "@type") fields) as [t|] eqn:E;
    [|discriminate].
  assert (Hsame : exists m, JObject fields = JObject m
                            /\ lookup (codes "@type") m <> None).
  { exists fields. split; [reflexivity|]. rewrite E. discriminate. }
  destruct t as [| | | |[|single [|]]|]; try exact Hsame.
  eexists. split; [reflexivity|].
  clear. generalize (codes "@type"). intros key.
  induction fields as [|[k w] fields IH]; simpl.
  - assert (Hkey : ustring_eqb key key = true).
    { clear. induction key as [|x key IH]; simpl; [reflexivity|].
      now rewrite N.eqb_refl. }
    rewrite Hkey. discriminate.
  - destruct (ustring_eqb k key) eqn:Ek; simpl; rewrite Ek;
      [discriminate | exact IH].
Qed.

Lemma findRelevantSchema_Some schemas schema :
  findRelevantSchema schemas = Some schema ->
  exists items item,
    schemas = Some (JArray items)
    /\ In item items
    /\ hasAnyType item = true
    /\ schema = normalizeSchema item.
Proof.
  unfold findRelevantSchema.
  destruct schemas as [[| | | |[|first more]|]|]; try discriminate.
  destruct (firstOfPriority _ _) as [relevant|] eqn:E.
  - intros [= <-]. apply firstOfPriority_Some in E.
    destruct E as (item & H). exists (first :: more), item. tauto.
  - destruct (find hasAnyType (first :: more)) as [s|] eqn:F; [|discriminate].
    intros [= <-]. apply find_some in F. exists (first :: more), s. tauto.
Qed.

Lemma schemaOfScript_typed script schema :
  schemaOfScript script = Js.Ok (Some schema) ->
  exists fields,
    schema = JObject fields /\ lookup (codes "@type") fields <> None.
Proof.
  unfold schemaOfScript.
  destruct (JsString.trim (Dom.textContent script)) as [|c text];
    [discriminate|].
  destruct (parse _) as [jsonData|m]; [|discriminate]. cbn [Js.bind].
  assert (Hfind : forall schemas,
            Js.Ok (findRelevantSchema schemas) = Js.Ok (Some schema) ->
            exists fields,
              schema = JObject fields
              /\ lookup (codes "@type") fields <> None).
  { intros schemas [= H]. apply findRelevantSchema_Some in H.
    destruct H as (items & item & _ & _ & Ht & ->).
    now apply normalizeSchema_typed. }
  destruct jsonData as [| | | | |fields]; try (apply Hfind);
    cbn [getProp Js.bind]; try discriminate;
    try (cbn [truthy]; discriminate).
  destruct (truthy (lookup (codes "@graph") fields)); [apply Hfind|].
  destruct (truthy (lookup (codes "@type") fields)) eqn:Et; [|discriminate].
  intros H.
  assert (Hs : schema = normalizeSchema (JObject fields)) by congruence.
  rewrite Hs. apply (normalizeSchema_typed (JObject fields)). exact Et.
Qed.

Lemma scanScripts_typed scripts schema :
  scanScripts scripts = Some schema ->
  exists fields,
    schema = JObject fields /\ lookup (codes "@type") fields <> None.
Proof.
  induction scripts as [|script rest IH]; simpl; [discriminate|].
  destruct (schemaOfScript script) as [[found|]|m] eqn:E; try exact IH.
  intros [= <-]. eapply schemaOfScript_typed, E.
Qed.

End RelevantSchema.

(** X12: [findRelevantSchema] on an array returns nothing exactly when
    no element of the array is an object with a truthy [@type]; what it
    returns otherwise is the normalized copy of such an element, an
    object that has an [@type] member. *)
Theorem findRelevantSchema_typed :
  forall items : list Json.json,
    (SchemaDetector.findRelevantSchema (Some (Json.JArray items)) = None
     <-> forall item, In item items -> SchemaDetector.hasAnyType item = false)
    /\ forall schema,
         SchemaDetector.findRelevantSchema (Some (Json.JArray items))
         = Some schema ->
         (exists item,
            In item items
            /\ SchemaDetector.hasAnyType item = true
            /\ schema = SchemaDetector.normalizeSchema item)
         /\ exists members,
              schema = Json.JObject members
              /\ Json.lookup (Json.codes "@type") members <> None.
Proof.
  intros items.
  assert (Hsome : forall schema,
            SchemaDetector.findRelevantSchema (Some (Json.JArray items))
            = Some schema ->
            exists item,
              In item items
              /\ SchemaDetector.hasAnyType item = true
              /\ schema = SchemaDetector.normalizeSchema item).
  { intros schema H. apply findRelevantSchema_Some in H.
    destruct H as (items' & item & [= <-] & H). exists item. exact H. }
  split; [split|].
  - intros Hnone item Hin.
    destruct (SchemaDetector.hasAnyType item) eqn:Ht; [|reflexivity].
    exfalso. revert Hnone. unfold SchemaDetector.findRelevantSchema.
    destruct items as [|first more]; [destruct Hin|].
    destruct (SchemaDetector.firstOfPriority _ _); [discriminate|].
    destruct (find SchemaDetector.hasAnyType (first :: more)) eqn:F;
      [discriminate|].
    intros _. eapply find_none in F; [|exact Hin]. congruence.
  - intros Hall.
    destruct (SchemaDetector.findRelevantSchema (Some (Json.JArray items)))
      as [schema|] eqn:E; [|reflexivity].
    destruct (Hsome schema eq_refl) as (item & Hin & Ht & _).
    rewrite (Hall item Hin) in Ht. discriminate.
  - intros schema H. split; [now apply Hsome|].
    destruct (Hsome schema H) as (item & Hin & Ht & ->).
    now apply normalizeSchema_typed.
Qed.

(** X13: a schema returned by [extractJsonLdSchema] is always a JSON
    object that has an [@type] member, whichever of the three shapes (an
    array, an [@graph], a single object) the script had. *)
Theorem extractJsonLdSchema_typed :
  forall (dom : Dom.document) (schema : Json.json),
    SchemaDetector.extractJsonLdSchema dom = Some schema ->
    exists fields,
      schema = Json.JObject fields
      /\ Json.lookup (Json.codes "@type") fields <> None.
Proof.
  intros dom schema. unfold SchemaDetector.extractJsonLdSchema.
  apply scanScripts_typed.
Qed.

Lemma extractJsonLdSchema_typed_witness :
  exists fields,
    Json.JObject
      [(Json.codes "@type", Json.JString (Json.codes "Product"));
       (Json.codes "offers",
        Json.JObject [(Json.codes "price", Json.JString (Json.codes "19.99"))])]
    = Json.JObject fields
    /\ Json.lookup (Json.codes "@type") fields <> None.
Proof.
  apply (extractJsonLdSchema_typed product_page).
  vm_compute. reflexivity.
Defined.

(** ** Image processor: scores, order of the candidates, galleries *)

Section ImageScore.

Import JsString Dom ImageProcessor.



End ImageScore.


(** X15: the candidates of [extractImportantImages] come in two runs:
    first those of the priority selectors (priority: true), then those
    chosen by score (priority: false); and no candidate chosen by score
    has the [src] of a priority candidate.  This holds for every quota
    and base URL. *)
Theorem extractImportantImages_phases :
  forall (newURL : string -> option string -> option ImageProcessor.URL)
         (dom : Dom.document) (maxImages : Z) (baseUrl : option string),
    exists fromSelectors byScore,
      ImageProcessor.extractImportantImages newURL (Some dom) maxImages baseUrl
      = (fromSelectors ++ byScore)%list
      /\ Forall (fun c => ImageProcessor.priority c = true) fromSelectors
      /\ Forall (fun c => ImageProcessor.priority c = false) byScore
      /\ forall a b,
           In a fromSelectors -> In b byScore ->
           ImageProcessor.src a <> ImageProcessor.src b.
Proof.
  intros newURL dom maxImages baseUrl.
  unfold ImageProcessor.extractImportantImages.
  pose proof (firstPhase_SeenInv newURL maxImages baseUrl dom) as Hinv.
  unfold initialState in Hinv.
  set (st1 := ImageProcessor.forSelectors newURL dom maxImages baseUrl
                ImageProcessor.prioritySelectors _) in *.
  destruct Hinv as (Hseen & _ & Hpri).
  assert (Hp : Forall (fun c => ImageProcessor.priority c = true)
                      (ImageProcessor.images st1)).
  { eapply Forall_impl; [|exact Hpri]. simpl. tauto. }
  assert (Hnone : exists fromSelectors byScore,
            ImageProcessor.images st1 = (fromSelectors ++ byScore)%list
            /\ Forall (fun c => ImageProcessor.priority c = true) fromSelectors
            /\ Forall (fun c => ImageProcessor.priority c = false) byScore
            /\ forall a b,
                 In a fromSelectors -> In b byScore ->
                 ImageProcessor.src a <> ImageProcessor.src b).
  { exists (ImageProcessor.images st1), [].
    rewrite app_nil_r. repeat split; [assumption | constructor |].
    intros a b _ []. }
  destruct (ImageProcessor.finished st1); [exact Hnone|].
  destruct (Z.ltb_spec (Z.of_nat (List.length (ImageProcessor.images st1)))
                       maxImages) as [Hlt|Hge]; [|exact Hnone].
  match goal with
  | |- context [ImageProcessor.addScored maxImages ?l st1] =>
      set (scored := l)
  end.
  destruct (addScored_spec maxImages scored st1 ltac:(lia))
    as (_ & added & Hadd & Hall).
  exists (ImageProcessor.images st1), added.
  split; [exact Hadd|]. split; [exact Hp|]. split.
  - eapply Forall_impl; [|exact Hall]. simpl. tauto.
  - intros a b Ha Hb Heq.
    rewrite Forall_forall in Hall. destruct (Hall b Hb) as (_ & x & Hx & Hsrc).
    subst scored. rewrite sortScored_In in Hx.
    apply scoreRemaining_In in Hx. destruct Hx as (_ & _ & _ & _ & Hnew).
    apply Hnew. rewrite <- Hsrc, <- Heq, <- Hseen. now apply in_map.
Qed.

Section GalleryProperties.

Import JsString Dom ImageProcessor.

Variable newURL : string -> option string -> option URL.
Variable extractCaption : element -> option string.
Variable baseUrl : option string.




End GalleryProperties.


(** ** Readability service: excerpt, reading time, cleaning *)

Section NodeInduction.

Import Dom.

(** Induction on a tree of nodes *)
Lemma node_induction (P : node -> Prop) :
  (forall data, P (Text data)) ->
  (forall t a children, Forall P children -> P (Element t a children)) ->
  forall n, P n.
Proof.
  intros HText HElement. fix IH 1. intros [data|t a children].
  - apply HText.
  - apply HElement. induction children as [|c rest IHrest]; constructor.
    + apply IH.
    + exact IHrest.
Qed.

Lemma elementsOf_Element ancs next t a children :
  elementsOf ancs next (Element t a children)
  = {| self := {| tag := t; attrs := a |}; childNodes := children;
       ancestors := ancs; nextElementSibling := next |}
    :: elementsOfList ({| tag := t; attrs := a |} :: ancs) children.
Proof.
  cbn [elementsOf]. f_equal.
  induction children as [|c rest IH]; [reflexivity|].
  cbn [elementsOfList]. now rewrite IH.
Qed.

End NodeInduction.

Section Cleaning.

Import JsString Dom ReadabilityService.

Lemma prune_Element doomed ancs next t a children :
  prune doomed ancs next (Element t a children)
  = if doomed {| self := {| tag := t; attrs := a |}; childNodes := children;
                 ancestors := ancs; nextElementSibling := next |}
    then None
    else Some (Element t a
                 (pruneList doomed ({| tag := t; attrs := a |} :: ancs)
                            children)).
Proof.
  cbn [prune]. destruct (doomed _); [reflexivity|]. do 2 f_equal.
  induction children as [|c rest IH]; [reflexivity|].
  cbn [pruneList]. now rewrite IH.
Qed.

Lemma prune_elements doomed n :
  forall ancs next next' n' e',
    prune doomed ancs next n = Some n' ->
    In e' (elementsOf ancs next' n') ->
    kept doomed (elementsOf ancs next n) e'.
Proof.
  induction n as [data|t a children IH] using node_induction;
    intros ancs next next' n' e'.
  - intros [= <-] [].
  - rewrite prune_Element.
    destruct (doomed _) eqn:Hd; [discriminate|]. intros [= <-].
    rewrite !elementsOf_Element. intros [<-|Hin].
    + eexists. split; [now left|]. cbn [self ancestors]. auto.
    + set (me := {| tag := t; attrs := a |}) in *.
      assert (Hlist : forall l, Forall
                (fun n => forall ancs next next' n' e',
                     prune doomed ancs next n = Some n' ->
                     In e' (elementsOf ancs next' n') ->
                     kept doomed (elementsOf ancs next n) e') l ->
              forall e', In e' (elementsOfList (me :: ancs)
                                  (pruneList doomed (me :: ancs) l)) ->
                         kept doomed (elementsOfList (me :: ancs) l) e').
      { clear. induction 1 as [|c rest Hc _ IHrest]; intros e' Hin;
          cbn [pruneList elementsOfList] in *; [destruct Hin|].
        assert (Hrest : forall e', kept doomed (elementsOfList (me :: ancs) rest) e' ->
                  kept doomed (elementsOf (me :: ancs) (firstElement rest) c
                               ++ elementsOfList (me :: ancs) rest)%list e').
        { intros e0 (e & He & H). exists e. rewrite in_app_iff. tauto. }
        destruct (prune doomed (me :: ancs) (firstElement rest) c) as [c'|] eqn:E.
        - cbn [elementsOfList] in Hin. rewrite in_app_iff in Hin.
          destruct Hin as [Hin|Hin]; [|now apply Hrest, IHrest].
          destruct (Hc _ _ _ _ _ E Hin) as (e & He & H).
          exists e. rewrite in_app_iff. tauto.
        - now apply Hrest, IHrest. }
      destruct (Hlist children IH e' Hin) as (e & He & H).
      exists e. split; [now right | exact H].
Qed.

Lemma pruneList_elements doomed ancs l e' :
  In e' (elementsOfList ancs (pruneList doomed ancs l)) ->
  kept doomed (elementsOfList ancs l) e'.
Proof.
  revert e'. induction l as [|c rest IH]; intros e' Hin;
    cbn [pruneList elementsOfList] in *; [destruct Hin|].
  assert (Hrest : forall e', kept doomed (elementsOfList ancs rest) e' ->
            kept doomed (elementsOf ancs (firstElement rest) c
                         ++ elementsOfList ancs rest)%list e').
  { intros e0 (e & He & H). exists e. rewrite in_app_iff. tauto. }
  destruct (prune doomed ancs (firstElement rest) c) as [c'|] eqn:E.
  - cbn [elementsOfList] in Hin. rewrite in_app_iff in Hin.
    destruct Hin as [Hin|Hin]; [|now apply Hrest, IH].
    destruct (prune_elements _ _ _ _ _ _ _ E Hin) as (e & He & H).
    exists e. rewrite in_app_iff. tauto.
  - now apply Hrest, IH.
Qed.

Lemma removeWhere_below doomed root e' :
  In e' (below (removeWhere doomed root)) -> kept doomed (below root) e'.
Proof.
  unfold below, removeWhere. cbn [self ancestors childNodes].
  apply pruneList_elements.
Qed.

Lemma matchesAny_face sels e e' :
  self e = self e' -> ancestors e = ancestors e' ->
  matchesAny sels e' = matchesAny sels e.
Proof.
  unfold matchesAny. now intros -> ->.
Qed.

Lemma removeUnwanted_below sels :
  forall root,
    let cleaned :=
      fold_left (fun el selector => removeWhere (matchesAny [selector]) el)
                sels root in
    forall e', In e' (below cleaned) ->
      kept (matchesAny sels) (below root) e'.
Proof.
  induction sels as [|s rest IH]; intros root cleaned e' Hin.
  - exists e'. auto.
  - subst cleaned. cbn [fold_left] in Hin.
    destruct (IH _ _ Hin) as (e1 & He1 & Hs1 & Ha1 & Hm1).
    destruct (removeWhere_below _ _ _ He1) as (e & He & Hs & Ha & Hm).
    exists e. split; [assumption|].
    split; [congruence|]. split; [congruence|].
    unfold matchesAny in *. cbn [existsb] in *.
    rewrite orb_false_r in Hm. rewrite Hm. cbn [orb].
    rewrite <- Hm1. now rewrite Hs, Ha.
Qed.

Lemma removeUnwanted_self sels :
  forall root,
    self (fold_left (fun el selector => removeWhere (matchesAny [selector]) el)
                    sels root)
    = self root.
Proof.
  induction sels as [|s rest IH]; intros root; [reflexivity|].
  cbn [fold_left]. now rewrite IH.
Qed.

Lemma cleaned_spec sels element :
  let cleaned :=
    removeWhere isEmptyBlock
      (fold_left (fun el selector => removeWhere (matchesAny [selector]) el)
                 sels (cloneNode element)) in
  querySelectorAllIn cleaned sels = []
  /\ self cleaned = self element
  /\ forall e', In e' (below cleaned) ->
       exists e, In e (below (cloneNode element))
                 /\ self e = self e' /\ ancestors e = ancestors e'.
Proof.
  intros cleaned.
  assert (Hkept : forall e', In e' (below cleaned) ->
            kept (matchesAny sels) (below (cloneNode element)) e').
  { intros e' Hin. apply removeWhere_below in Hin.
    destruct Hin as (e1 & He1 & Hs1 & Ha1 & _).
    destruct (removeUnwanted_below sels (cloneNode element) e1 He1)
      as (e & He & Hs & Ha & Hm).
    exists e. split; [exact He|]. split; [exact (eq_trans Hs Hs1)|].
    split; [exact (eq_trans Ha Ha1) | exact Hm]. }
  split; [|split].
  - unfold querySelectorAllIn.
    apply filter_none. rewrite Forall_forall. intros e' Hin.
    destruct (Hkept e' Hin) as (e & _ & Hs & Ha & Hm).
    rewrite (matchesAny_face sels e e' Hs Ha). exact Hm.
  - subst cleaned. cbn [removeWhere self].
    rewrite removeUnwanted_self. reflexivity.
  - intros e' Hin. destruct (Hkept e' Hin) as (e & He & Hs & Ha & _).
    exists e. split; [exact He|]. split; assumption.
Qed.

End Cleaning.

(** X17: [cleanContent] returns a copy of the element in which nothing
    below the root matches one of the unwanted selectors ([script],
    [style], [form], [iframe], [nav], [object], [embed], [aside] and the
    comment, advertisement, share, related, sidebar, widget, promo,
    newsletter, subscription, popup and modal classes); the root keeps
    its tag and attributes, and every element of the copy is an element
    of the original, under the same ancestors within the content. *)
Theorem cleanContent_removes_unwanted :
  forall element : Dom.element,
    exists cleaned,
      ReadabilityService.cleanContent (Some element) = Some cleaned
      /\ Dom.querySelectorAllIn cleaned ReadabilityService.unwantedSelectors
         = []
      /\ Dom.self cleaned = Dom.self element
      /\ forall e', In e' (below cleaned) ->
           exists e, In e (below (ReadabilityService.cloneNode element))
                     /\ Dom.self e = Dom.self e'
                     /\ Dom.ancestors e = Dom.ancestors e'.
Proof.
  intros element. eexists. split; [reflexivity|].
  apply (cleaned_spec ReadabilityService.unwantedSelectors element).
Qed.

(** On the article of the example, cleaning leaves the one paragraph of
    text; the text extracted without cleaning holds the advertisement
    as well. *)
Lemma cleanContent_example :
  ReadabilityService.extractText
    (ReadabilityService.cleanContent (Some cluttered_article))
  = "The text of the article."
  /\ ReadabilityService.extractText (Some cluttered_article)
     = "The text of the article. Buy now".
Proof.
  split; vm_compute; reflexivity.
Qed.

(** X18: [generateExcerpt(text)] returns the text itself when it has at
    most 150 characters, and otherwise a prefix of the text of at most
    150 characters, alone (cut after a full stop) or followed by '...':
    an excerpt never has more than 153 characters. *)
Theorem generateExcerpt_shape :
  forall text : string,
    let result := ReadabilityService.generateExcerpt text in
    String.length result <= 153
    /\ (String.length text <= 150 -> result = text)
    /\ exists n,
         n <= 150
         /\ (result = JsString.take n text
             \/ result = (JsString.take n text ++ "...")%string).
Proof.
  intros text result. subst result.
  assert (Hcases : exists n,
            n <= 150
            /\ (ReadabilityService.generateExcerpt text = JsString.take n text
                \/ ReadabilityService.generateExcerpt text
                   = (JsString.take n text ++ "...")%string)).
  { unfold ReadabilityService.generateExcerpt. cbv zeta.
    destruct text as [|c text']; [exists 0; split; [lia | now left]|].
    set (text := String c text').
    destruct (Z.leb_spec (JsString.len text) 150) as [Hfit|Hlong].
    - exists (String.length text). unfold JsString.len in Hfit.
      split; [lia | left; now rewrite take_all].
    - unfold JsString.substr0.
      destruct (2 * JsString.lastIndexOf (JsString.take (Z.to_nat 150) text) "."
                >? 150)%Z.
      + rewrite take_take. eexists. split; [|left; reflexivity]. lia.
      + destruct (JsString.lastIndexOf (JsString.take (Z.to_nat 150) text) " "
                  >? 0)%Z.
        * rewrite take_take. eexists. split; [|right; reflexivity]. lia.
        * exists (Z.to_nat 150). split; [lia | right; reflexivity]. }
  split; [|split; [|exact Hcases]].
  - destruct Hcases as [n [Hn [-> | ->]]];
      [|rewrite length_app_string]; rewrite length_take; simpl; lia.
  - intros Hfit. unfold ReadabilityService.generateExcerpt. cbv zeta.
    destruct text as [|c text']; [reflexivity|].
    destruct (Z.leb_spec (JsString.len (String c text')) 150) as [_|Hlong];
      [reflexivity|].
    unfold JsString.len in Hlong. lia.
Qed.

Section ReadingTime.

Import JsString ReadabilityService.

Lemma countWords_nonneg text : (0 <= countWords text)%Z.
Proof.
  unfold countWords. destruct text; lia.
Qed.

End ReadingTime.

(** X19: the reading time is the number of words divided by 200 and
    rounded up: it is the least number of minutes [m] with
    [200 * m >= wordCount], and it is zero exactly for a text without
    words. *)
Theorem calculateReadingTime_ceiling :
  forall text : string,
    let words := ReadabilityService.countWords text in
    let minutes := ReadabilityService.calculateReadingTime text in
    (200 * (minutes - 1) < words <= 200 * minutes)%Z
    /\ (minutes = 0%Z <-> words = 0%Z).
Proof.
  intros text words minutes. subst words minutes.
  unfold ReadabilityService.calculateReadingTime. cbv zeta.
  pose proof (countWords_nonneg text) as Hw.
  set (w := ReadabilityService.countWords text) in *.
  pose proof (Z.div_mod (w + 199) 200 ltac:(lia)) as Hdm.
  pose proof (Z.mod_pos_bound (w + 199) 200 ltac:(lia)) as Hmod.
  split; [lia|]. split; intros H; lia.
Qed.

(** The record returned by [parseArticle] for a document is always
    consistent, whether the extraction went through or the handler
    returned the fallback record: its word count is the number of words
    of its text, its reading time that number divided by 200 and rounded
    up, and its excerpt the excerpt of its text.  This holds whatever
    [findMainContent] and [cleanContent] do, throwing included. *)
Theorem parseArticle_consistent :
  forall (findMainContent :
            Dom.document -> Js.result (option Dom.element))
         (cleanContent : option Dom.element -> Js.result (option Dom.element))
         (dom : Dom.document),
    exists article,
      ReadabilityService.parseArticle findMainContent cleanContent (Some dom)
      = Js.Ok article
      /\ ReadabilityService.wordCount article
         = ReadabilityService.countWords (ReadabilityService.textContent article)
      /\ ReadabilityService.readingTime article
         = ReadabilityService.calculateReadingTime
             (ReadabilityService.textContent article)
      /\ ReadabilityService.excerpt article
         = ReadabilityService.generateExcerpt
             (ReadabilityService.textContent article).
Proof.
  intros findMainContent cleanContent dom.
  unfold ReadabilityService.parseArticle.
  eexists. split; [reflexivity|].
  destruct (findMainContent dom) as [article|m]; cbn [Js.bind Js.try_catch];
    [|repeat split].
  destruct (cleanContent _) as [cleaned|m]; cbn [Js.bind Js.try_catch];
    repeat split.
Qed.

(** ** Fetching, and what the orchestrator makes of its outcome *)

Section Fetching.

Import JsString FetchService.

Lemma fetchContent_throws contextValid pingOk replies fallback message :
  fetchContent contextValid pingOk replies fallback = Js.Throw message ->
  exists cause, message = "Failed to fetch content: " ++ cause.
Proof.
  unfold fetchContent. cbv zeta.
  match goal with
  | |- match ?body with _ => _ end = _ -> _ => destruct body as [content|cause]
  end; [discriminate|].
  intros [= <-]. exists cause. reflexivity.
Qed.

(** A character that does not begin the pattern can be skipped. *)
Lemma includes_skip c s m0 m :
  c <> m0 -> includes (String c s) (String m0 m) = includes s (String m0 m).
Proof.
  intros Hne. cbn [includes String.prefix].
  destruct (ascii_dec m0 c) as [E|_]; [congruence|]. reflexivity.
Qed.

Lemma includes_after_prefix cause m0 m :
  In m0 ["E"%char; "M"%char] ->
  includes ("Failed to fetch content: " ++ cause) (String m0 m)
  = includes cause (String m0 m).
Proof.
  intros Hm. cbn [append].
  assert (Hne : forall c, c <> "E"%char -> c <> "M"%char -> c <> m0).
  { intros c HE HM. destruct Hm as [<-|[<-|[]]]; assumption. }
  repeat (rewrite includes_skip; [|apply Hne; discriminate]).
  reflexivity.
Qed.

End Fetching.

(** X21: with a valid extension context, [fetchContent] makes up to three
    attempts and returns the content of the first one that succeeds;
    the failures before it leave no trace. *)
Theorem fetchContent_retries :
  forall (replies : nat -> FetchService.Reply) (fallback : Js.result string)
         (attempt : nat) (content : string),
    1 <= attempt <= 3 ->
    FetchService.attemptOutcome (replies attempt) = Js.Ok content ->
    (forall earlier, 1 <= earlier < attempt ->
       exists message,
         FetchService.attemptOutcome (replies earlier) = Js.Throw message) ->
    FetchService.fetchContent true true replies fallback = Js.Ok content.
Proof.
  intros replies fallback attempt content Hrange Hok Hbefore.
  unfold FetchService.fetchContent. cbv zeta.
  cbn [negb FetchService.attemptLoop].
  assert (Hcases : attempt = 1 \/ attempt = 2 \/ attempt = 3) by lia.
  destruct Hcases as [-> | [-> | ->]].
  - rewrite Hok. reflexivity.
  - destruct (Hbefore 1 ltac:(lia)) as [m1 ->]. rewrite Hok. reflexivity.
  - destruct (Hbefore 1 ltac:(lia)) as [m1 ->].
    destruct (Hbefore 2 ltac:(lia)) as [m2 ->]. rewrite Hok. reflexivity.
Qed.

Lemma fetchContent_retries_witness :
  FetchService.fetchContent true true
    (fun attempt => if attempt =? 2
                    then FetchService.Response None (Some "<p>Hello</p>")
                    else FetchService.Timeout)
    (Js.Throw "no fallback")
  = Js.Ok "<p>Hello</p>".
Proof.
  apply (fetchContent_retries _ _ 2 "<p>Hello</p>").
  - lia.
  - reflexivity.
  - intros earlier H. assert (earlier = 1) as -> by lia.
    exists "Request timeout". reflexivity.
Defined.

(** X22: whatever makes [fetchContent] fail, its error message begins
    with 'Failed to fetch content: ', and the preview object [extract]
    then delivers is an error object whose description is one of the
    first three of the handler: extension reloaded, mixed content, or
    the website blocking the request. *)
Theorem fetch_failure_preview :
  forall (parseFromString : string -> Dom.document) (nowISO : string)
         (extractMicrodataSchema extractRdfaSchema :
            Dom.document -> option Json.json)
         (processArticle processGallery :
            Dom.document -> ContentExtractor.PreviewData ->
            Js.result ContentExtractor.PreviewData)
         (processVideo processSocial :
            Dom.document -> ContentExtractor.PreviewData ->
            option Json.json -> Js.result ContentExtractor.PreviewData)
         (processDefault :
            Dom.document -> ContentExtractor.PreviewData ->
            Js.result ContentExtractor.PreviewData)
         (contextValid pingOk : bool) (replies : nat -> FetchService.Reply)
         (fallback : Js.result string)
         (url : string) (text : option string) (message : string),
    FetchService.fetchContent contextValid pingOk replies fallback
    = Js.Throw message ->
    exists cause shown,
      message = ("Failed to fetch content: " ++ cause)%string
      /\ ContentExtractor.extract parseFromString nowISO
           extractMicrodataSchema extractRdfaSchema processArticle
           processGallery processVideo processSocial processDefault
           (FetchService.fetchContent contextValid pingOk replies fallback)
           url text
         = [ContentExtractor.errorRecord url text message]
      /\ ContentExtractor.getField "description"
           (ContentExtractor.errorRecord url text message)
         = Some (ContentExtractor.VString shown)
      /\ In shown (map snd (firstn 3 errorCategories)).
Proof.
  intros parseFromString nowISO extractMicrodataSchema extractRdfaSchema
         processArticle processGallery processVideo processSocial
         processDefault contextValid pingOk replies fallback url text message
         Hfail.
  destruct (fetchContent_throws _ _ _ _ _ Hfail) as [cause Hcause].
  exists cause, (chooseMessage errorCategories message).
  split; [exact Hcause|]. split; [|split].
  - rewrite Hfail. reflexivity.
  - apply errorRecord_fields.
  - rewrite Hcause. apply fetch_failure_message.
Qed.

Lemma fetch_failure_preview_witness :
  exists cause shown,
    "Failed to fetch content: Request timeout"
    = ("Failed to fetch content: " ++ cause)%string
    /\ ContentExtractor.extract (fun _ => []) "2026-01-01T00:00:00.000Z"
         (fun _ => None) (fun _ => None)
         (fun _ p => Js.Ok p) (fun _ p => Js.Ok p)
         (fun _ p _ => Js.Ok p) (fun _ p _ => Js.Ok p) (fun _ p => Js.Ok p)
         (FetchService.fetchContent true true (fun _ => FetchService.Timeout)
            (Js.Throw "no fallback"))
         "https://example.org/" None
       = [ContentExtractor.errorRecord "https://example.org/" None
            "Failed to fetch content: Request timeout"]
    /\ ContentExtractor.getField "description"
         (ContentExtractor.errorRecord "https://example.org/" None
            "Failed to fetch content: Request timeout")
       = Some (ContentExtractor.VString shown)
    /\ In shown (map snd (firstn 3 errorCategories)).
Proof.
  apply (fetch_failure_preview (fun _ => []) "2026-01-01T00:00:00.000Z"
           (fun _ => None) (fun _ => None)
           (fun _ p => Js.Ok p) (fun _ p => Js.Ok p)
           (fun _ p _ => Js.Ok p) (fun _ p _ => Js.Ok p) (fun _ p => Js.Ok p)
           true true (fun _ => FetchService.Timeout) (Js.Throw "no fallback")
           "https://example.org/" None
           "Failed to fetch content: Request timeout").
  reflexivity.
Defined.

(** X23: when the three attempts fail and the message of the last
    failure names neither an invalidated extension context nor mixed
    content, [fetchContent] throws 'Failed to fetch content: ' followed
    by that message, and the description the handler of [extract] picks
    for it is always the one for a blocked request: a timeout, a network
    failure or an HTTP status of the fetch is never reported as such. *)
Theorem fetch_error_cause_is_hidden :
  forall (replies : nat -> FetchService.Reply) (fallback : Js.result string)
         (url : string) (text : option string) (lastError : string),
    (forall attempt, 1 <= attempt <= 2 ->
       exists message,
         FetchService.attemptOutcome (replies attempt) = Js.Throw message) ->
    FetchService.attemptOutcome (replies 3) = Js.Throw lastError ->
    FetchService.contextInvalidated lastError = false ->
    JsString.includes lastError "Extension was reloaded" = false ->
    JsString.includes lastError "Mixed content blocked" = false ->
    FetchService.fetchContent true true replies fallback
    = Js.Throw ("Failed to fetch content: " ++ lastError)
    /\ ContentExtractor.getField "description"
         (ContentExtractor.errorRecord url text
            ("Failed to fetch content: " ++ lastError))
       = Some (ContentExtractor.VString
                 "This website blocks external preview requests for security reasons.").
Proof.
  intros replies fallback url text lastError Hfirst Hlast Hctx Hre Hmix.
  split.
  - unfold FetchService.fetchContent. cbv zeta.
    cbn [negb FetchService.attemptLoop].
    destruct (Hfirst 1 ltac:(lia)) as [m1 ->].
    destruct (Hfirst 2 ltac:(lia)) as [m2 ->].
    rewrite Hlast, Hctx. reflexivity.
  - destruct (errorRecord_fields url text
                ("Failed to fetch content: " ++ lastError)) as (_ & -> & _).
    do 2 f_equal.
    unfold FetchService.contextInvalidated in Hctx.
    apply orb_false_iff in Hctx. destruct Hctx as [Hctx _].
    apply orb_false_iff in Hctx. destruct Hctx as [Hctx _].
    unfold errorCategories. cbn [chooseMessage existsb].
    rewrite !(includes_after_prefix lastError "E") by (simpl; tauto).
    rewrite (includes_after_prefix lastError "M") by (simpl; tauto).
    rewrite Hctx, Hre, Hmix. cbn [orb].
    assert (H : JsString.includes ("Failed to fetch content: " ++ lastError)
                                  "Failed to fetch" = true) by reflexivity.
    rewrite H, orb_true_r. reflexivity.
Qed.

Lemma fetch_error_cause_is_hidden_witness :
  FetchService.fetchContent true true (fun _ => FetchService.Timeout)
    (Js.Throw "no fallback")
  = Js.Throw ("Failed to fetch content: " ++ "Request timeout")
  /\ ContentExtractor.getField "description"
       (ContentExtractor.errorRecord "https://example.org/" None
          ("Failed to fetch content: " ++ "Request timeout"))
     = Some (ContentExtractor.VString
               "This website blocks external preview requests for security reasons.").
Proof.
  apply (fetch_error_cause_is_hidden (fun _ => FetchService.Timeout)
           (Js.Throw "no fallback") "https://example.org/" None
           "Request timeout").
  - intros attempt _. exists "Request timeout". reflexivity.
  - reflexivity.
  - reflexivity.
  - reflexivity.
  - reflexivity.
Defined.

Section Orchestrator.

Import JsString ContentExtractor.

Lemma trim_nonempty html : trim html <> EmptyString -> html <> EmptyString.
Proof.
  intros H ->. apply H. reflexivity.
Qed.

Lemma processProduct_throws dom previewData schema :
  processProduct dom previewData schema
  = Js.Throw "imageProcessor.extractProductImages is not a function".
Proof.
  unfold processProduct.
  destruct (Json.truthy schema && _); reflexivity.
Qed.

End Orchestrator.

(** X24: every page the detector classifies as a product ends in the
    error object: [processProduct] calls
    [imageProcessor.extractProductImages], which the image processor
    does not have, so that the handler of [extract] takes over whatever
    the page and its structured data hold. *)
Theorem product_pages_fail :
  forall (parseFromString : string -> Dom.document) (nowISO : string)
         (extractMicrodataSchema extractRdfaSchema :
            Dom.document -> option Json.json)
         (processArticle processGallery :
            Dom.document -> ContentExtractor.PreviewData ->
            Js.result ContentExtractor.PreviewData)
         (processVideo processSocial :
            Dom.document -> ContentExtractor.PreviewData ->
            option Json.json -> Js.result ContentExtractor.PreviewData)
         (processDefault :
            Dom.document -> ContentExtractor.PreviewData ->
            Js.result ContentExtractor.PreviewData)
         (html url : string) (text : option string),
    JsString.trim html <> EmptyString ->
    ContentTypeDetector.detect (Some (parseFromString html)) url = "product" ->
    ContentExtractor.extract parseFromString nowISO
      extractMicrodataSchema extractRdfaSchema processArticle processGallery
      processVideo processSocial processDefault (Js.Ok html) url text
    = [ContentExtractor.errorRecord url text
         "imageProcessor.extractProductImages is not a function"].
Proof.
  intros parseFromString nowISO extractMicrodataSchema extractRdfaSchema
         processArticle processGallery processVideo processSocial
         processDefault html url text Hblank Hdetect.
  unfold ContentExtractor.extract, ContentExtractor.extractBody.
  cbn [Js.bind].
  destruct (JsString.trim html) as [|c rest] eqn:Etrim; [congruence|].
  unfold ContentExtractor.parseHTML.
  destruct html as [|h html']; [discriminate Etrim|].
  cbn [Js.bind]. cbv zeta. rewrite Hdetect.
  change (String.eqb "product" "article") with false.
  change (String.eqb "product" "product") with true. cbv iota.
  rewrite processProduct_throws. reflexivity.
Qed.

Lemma product_pages_fail_witness :
  ContentExtractor.extract (fun _ => product_page) "2026-01-01T00:00:00.000Z"
    (fun _ => None) (fun _ => None)
    (fun _ p => Js.Ok p) (fun _ p => Js.Ok p)
    (fun _ p _ => Js.Ok p) (fun _ p _ => Js.Ok p) (fun _ p => Js.Ok p)
    (Js.Ok product_html) product_url None
  = [ContentExtractor.errorRecord product_url None
       "imageProcessor.extractProductImages is not a function"].
Proof.
  apply (product_pages_fail (fun _ => product_page) "2026-01-01T00:00:00.000Z"
           (fun _ => None) (fun _ => None)
           (fun _ p => Js.Ok p) (fun _ p => Js.Ok p)
           (fun _ p _ => Js.Ok p) (fun _ p _ => Js.Ok p) (fun _ p => Js.Ok p)
           product_html product_url None).
  - vm_compute. discriminate.
  - vm_compute. reflexivity.
Defined.

(** X25: a page the detector classifies as 'default' gives a preview
    object, never the error object: the fields [url], [contentType],
    [title] (the link text, or else the title of the page), [sourceUrl]
    and [timestamp], followed by the description of the page, the
    images chosen by [extractImportantImages] with its default quota,
    and the first of them (or [null]) as main image. *)
Theorem default_pages_succeed :
  forall (parseFromString : string -> Dom.document) (nowISO : string)
         (extractMicrodataSchema extractRdfaSchema :
            Dom.document -> option Json.json)
         (processArticle processGallery :
            Dom.document -> ContentExtractor.PreviewData ->
            Js.result ContentExtractor.PreviewData)
         (processVideo processSocial :
            Dom.document -> ContentExtractor.PreviewData ->
            option Json.json -> Js.result ContentExtractor.PreviewData)
         (newURL : string -> option string -> option ImageProcessor.URL)
         (html url : string) (text : option string),
    JsString.trim html <> EmptyString ->
    ContentTypeDetector.detect (Some (parseFromString html)) url = "default" ->
    let dom := parseFromString html in
    let images :=
      ImageProcessor.extractImportantImages newURL (Some dom) 5 None in
    ContentExtractor.extract parseFromString nowISO
      extractMicrodataSchema extractRdfaSchema processArticle processGallery
      processVideo processSocial (ContentExtractor.processDefault newURL)
      (Js.Ok html) url text
    = [[("url", ContentExtractor.VString url);
        ("contentType", ContentExtractor.VString "default");
        ("title",
         ContentExtractor.VString
           (match JsString.or_else text None with
            | Some t => t
            | None => ContentExtractor.extractTitle dom
            end));
        ("sourceUrl", ContentExtractor.VString url);
        ("timestamp", ContentExtractor.VString nowISO);
        ("description",
         ContentExtractor.VString (ContentExtractor.extractDescription dom));
        ("images", ContentExtractor.VImages images);
        ("mainImage", ContentExtractor.mainImageOf images)]].
Proof.
  intros parseFromString nowISO extractMicrodataSchema extractRdfaSchema
         processArticle processGallery processVideo processSocial newURL
         html url text Hblank Hdetect dom images.
  unfold ContentExtractor.extract, ContentExtractor.extractBody.
  cbn [Js.bind].
  destruct (JsString.trim html) as [|c rest] eqn:Etrim; [congruence|].
  unfold ContentExtractor.parseHTML.
  destruct html as [|h html']; [discriminate Etrim|].
  cbn [Js.bind]. cbv zeta. rewrite Hdetect.
  change (String.eqb "default" "article") with false.
  change (String.eqb "default" "product") with false.
  change (String.eqb "default" "gallery") with false.
  change (String.eqb "default" "video") with false.
  change (String.eqb "default" "social") with false. cbv iota.
  unfold ContentExtractor.processDefault. cbv zeta.
  cbn [Js.try_catch]. reflexivity.
Qed.

Lemma default_pages_succeed_witness :
  let images :=
    ImageProcessor.extractImportantImages noURL (Some C5_page) 5 None in
  ContentExtractor.extract (fun _ => C5_page) "2026-01-01T00:00:00.000Z"
    (fun _ => None) (fun _ => None)
    (fun _ p => Js.Ok p) (fun _ p => Js.Ok p)
    (fun _ p _ => Js.Ok p) (fun _ p _ => Js.Ok p)
    (ContentExtractor.processDefault noURL)
    (Js.Ok "<img src=/a.jpg alt=A>") "https://example.org/about" None
  = [[("url", ContentExtractor.VString "https://example.org/about");
      ("contentType", ContentExtractor.VString "default");
      ("title",
       ContentExtractor.VString
         (match JsString.or_else None None with
          | Some t => t
          | None => ContentExtractor.extractTitle C5_page
          end));
      ("sourceUrl", ContentExtractor.VString "https://example.org/about");
      ("timestamp", ContentExtractor.VString "2026-01-01T00:00:00.000Z");
      ("description",
       ContentExtractor.VString (ContentExtractor.extractDescription C5_page));
      ("images", ContentExtractor.VImages images);
      ("mainImage", ContentExtractor.mainImageOf images)]].
Proof.
  apply (default_pages_succeed (fun _ => C5_page) "2026-01-01T00:00:00.000Z"
           (fun _ => None) (fun _ => None)
           (fun _ p => Js.Ok p) (fun _ p => Js.Ok p)
           (fun _ p _ => Js.Ok p) (fun _ p _ => Js.Ok p) noURL
           "<img src=/a.jpg alt=A>" "https://example.org/about" None).
  - vm_compute. discriminate.
  - vm_compute. reflexivity.
Defined.

(** ** Image processor: the quota only truncates *)

Section Quota.

Import JsString Dom ImageProcessor.

Variable newURL : string -> option string -> option URL.
Variable baseUrl : option string.
Variables m m' : Z.
Hypothesis Hmm : (m <= m')%Z.

Lemma visitPriority_extends fromMeta maxImages st e :
  exists more,
    images (visitPriority newURL fromMeta maxImages baseUrl st e)
    = (images st ++ more)%list.
Proof.
  destruct (visitPriority_cases newURL maxImages baseUrl fromMeta st e)
    as [-> | (c & Hi & _)].
  - exists []. now rewrite app_nil_r.
  - exists [c]. exact Hi.
Qed.

Lemma forElements_extends fromMeta maxImages els :
  forall st, exists more,
    images (forElements newURL fromMeta maxImages baseUrl els st)
    = (images st ++ more)%list.
Proof.
  induction els as [|e rest IH]; intros st; cbn [forElements].
  - exists []. now rewrite app_nil_r.
  - destruct (visitPriority_extends fromMeta maxImages st e) as [more1 H1].
    destruct (finished (visitPriority newURL fromMeta maxImages baseUrl st e)).
    + exists more1. exact H1.
    + destruct (IH (visitPriority newURL fromMeta maxImages baseUrl st e))
        as [more2 H2].
      exists (more1 ++ more2)%list. rewrite H2, H1. now rewrite app_assoc.
Qed.

Lemma forSelectors_extends dom maxImages sels :
  forall st, exists more,
    images (forSelectors newURL dom maxImages baseUrl sels st)
    = (images st ++ more)%list.
Proof.
  induction sels as [|s rest IH]; intros st; cbn [forSelectors].
  - exists []. now rewrite app_nil_r.
  - destruct (forElements_extends (isMetaOrLink s) maxImages
                (querySelectorAll dom [s]) st) as [more1 H1].
    destruct (finished (forElements newURL (isMetaOrLink s) maxImages baseUrl
                          (querySelectorAll dom [s]) st)).
    + exists more1. exact H1.
    + destruct (IH (forElements newURL (isMetaOrLink s) maxImages baseUrl
                      (querySelectorAll dom [s]) st)) as [more2 H2].
      exists (more1 ++ more2)%list. rewrite H2, H1. now rewrite app_assoc.
Qed.

Lemma addScored_extends maxImages scored :
  forall st, exists more,
    images (addScored maxImages scored st) = (images st ++ more)%list.
Proof.
  induction scored as [|x rest IH]; intros st; cbn [addScored].
  - exists []. now rewrite app_nil_r.
  - destruct (maxImages <=? Z.of_nat (List.length (images st)))%Z.
    + exists []. now rewrite app_nil_r.
    + match goal with
      | |- context [addScored _ _ ?s] => destruct (IH s) as [more H]
      end.
      rewrite H. cbn [images]. rewrite <- app_assoc. eexists. reflexivity.
Qed.

(** One visit, from two states that agree *)
Lemma visitPriority_ahead fromMeta st st' e :
  finished st = false -> finished st' = false ->
  images st = images st' -> seenUrls st = seenUrls st' ->
  Ahead (visitPriority newURL fromMeta m baseUrl st e)
        (visitPriority newURL fromMeta m' baseUrl st' e).
Proof.
  intros Hf Hf' Hi Hs. unfold visitPriority.
  assert (Hsame : Ahead st st') by (left; auto).
  destruct (if fromMeta then _ else _) as [[|c rest]|]; try exact Hsame.
  destruct (isValidImageUrl newURL (String c rest)); [|exact Hsame].
  destruct (resolveImageUrl newURL (String c rest) baseUrl)
    as [[|c' rest']|]; try exact Hsame.
  rewrite <- Hs. destruct (mem (String c' rest') (seenUrls st)); [exact Hsame|].
  rewrite <- Hi. unfold Ahead. cbn [images seenUrls finished].
  match goal with
  | |- context [(m <=? ?n)%Z] =>
      destruct (Z.leb_spec m n); destruct (Z.leb_spec m' n); try lia
  end.
  - right. split; [reflexivity|]. exists []. now rewrite app_nil_r.
  - right. split; [reflexivity|]. exists []. now rewrite app_nil_r.
  - left. auto.
Qed.

Lemma forElements_ahead fromMeta els :
  forall st st',
    finished st = false -> finished st' = false ->
    images st = images st' -> seenUrls st = seenUrls st' ->
    Ahead (forElements newURL fromMeta m baseUrl els st)
          (forElements newURL fromMeta m' baseUrl els st').
Proof.
  induction els as [|e rest IH]; intros st st' Hf Hf' Hi Hs;
    cbn [forElements].
  - left. auto.
  - destruct (visitPriority_ahead fromMeta st st' e Hf Hf' Hi Hs)
      as [(H1 & H2 & H3 & H4) | (H1 & more & H2)].
    + rewrite H1, H2. now apply IH.
    + rewrite H1. right. split; [exact H1|].
      destruct (finished (visitPriority newURL fromMeta m' baseUrl st' e)).
      * exists more. exact H2.
      * destruct (forElements_extends fromMeta m' rest
                    (visitPriority newURL fromMeta m' baseUrl st' e))
          as [more2 H3].
        exists (more ++ more2)%list. rewrite H3, H2. now rewrite app_assoc.
Qed.

Lemma forSelectors_ahead dom sels :
  forall st st',
    finished st = false -> finished st' = false ->
    images st = images st' -> seenUrls st = seenUrls st' ->
    Ahead (forSelectors newURL dom m baseUrl sels st)
          (forSelectors newURL dom m' baseUrl sels st').
Proof.
  induction sels as [|s rest IH]; intros st st' Hf Hf' Hi Hs;
    cbn [forSelectors].
  - left. auto.
  - destruct (forElements_ahead (isMetaOrLink s) (querySelectorAll dom [s])
                st st' Hf Hf' Hi Hs)
      as [(H1 & H2 & H3 & H4) | (H1 & more & H2)].
    + rewrite H1, H2. now apply IH.
    + rewrite H1. right. split; [exact H1|].
      destruct (finished (forElements newURL (isMetaOrLink s) m' baseUrl
                            (querySelectorAll dom [s]) st')).
      * exists more. exact H2.
      * destruct (forSelectors_extends dom m' rest
                    (forElements newURL (isMetaOrLink s) m' baseUrl
                       (querySelectorAll dom [s]) st')) as [more2 H3].
        exists (more ++ more2)%list. rewrite H3, H2. now rewrite app_assoc.
Qed.

Lemma addScored_ahead scored :
  forall st st',
    images st = images st' ->
    exists more,
      images (addScored m' scored st')
      = (images (addScored m scored st) ++ more)%list.
Proof.
  induction scored as [|x rest IH]; intros st st' Hi; cbn [addScored].
  - exists []. now rewrite app_nil_r, Hi.
  - rewrite <- Hi.
    destruct (Z.leb_spec m (Z.of_nat (List.length (images st)))) as [Hle|Hgt].
    + destruct (m' <=? Z.of_nat (List.length (images st)))%Z.
      * exists []. now rewrite app_nil_r, Hi.
      * match goal with
        | |- context [addScored m' rest ?s] =>
            destruct (addScored_extends m' rest s) as [more H]
        end.
        rewrite H. cbn [images]. rewrite <- app_assoc.
        eexists. reflexivity.
    + destruct (Z.leb_spec m' (Z.of_nat (List.length (images st))))
        as [Hle'|Hgt']; [lia|].
      apply IH. reflexivity.
Qed.

End Quota.

(** X26: a larger quota only lengthens the list: for [maxImages <=
    maxImages'], the candidates returned under [maxImages] are the first
    candidates returned under [maxImages'], for every document and base
    URL. *)
Theorem quota_only_truncates :
  forall (newURL : string -> option string -> option ImageProcessor.URL)
         (dom : option Dom.document) (baseUrl : option string)
         (maxImages maxImages' : Z),
    (maxImages <= maxImages')%Z ->
    exists more,
      ImageProcessor.extractImportantImages newURL dom maxImages' baseUrl
      = (ImageProcessor.extractImportantImages newURL dom maxImages baseUrl
         ++ more)%list.
Proof.
  intros newURL [dom|] baseUrl m m' Hmm; [|exists []; reflexivity].
  unfold ImageProcessor.extractImportantImages.
  pose proof (forSelectors_ahead newURL baseUrl m m' Hmm dom
                ImageProcessor.prioritySelectors initialState initialState
                eq_refl eq_refl eq_refl eq_refl) as Hphase1.
  unfold initialState in Hphase1.
  set (st := ImageProcessor.forSelectors newURL dom m baseUrl _ _) in *.
  set (st' := ImageProcessor.forSelectors newURL dom m' baseUrl _ _) in *.
  destruct Hphase1 as [(H1 & H2 & H3 & H4) | (H1 & more & H2)].
  - rewrite H1, H2, <- H3, <- H4.
    set (scored := ImageProcessor.sortScored _).
    destruct (Z.ltb_spec (Z.of_nat (List.length (ImageProcessor.images st))) m)
      as [Hlt|Hge].
    + destruct (Z.ltb_spec (Z.of_nat (List.length (ImageProcessor.images st)))
                           m') as [Hlt'|Hge']; [|lia].
      now apply addScored_ahead.
    + destruct (Z.of_nat (List.length (ImageProcessor.images st)) <? m')%Z.
      * destruct (addScored_extends m' scored st') as [more H].
        exists more. now rewrite H, H3.
      * exists []. now rewrite app_nil_r.
  - rewrite H1.
    destruct (ImageProcessor.finished st'); [exists more; exact H2|].
    destruct (Z.of_nat (List.length (ImageProcessor.images st')) <? m')%Z;
      [|exists more; exact H2].
    match goal with
    | |- context [ImageProcessor.addScored m' ?l st'] =>
        destruct (addScored_extends m' l st') as [more2 H]
    end.
    exists (more ++ more2)%list. rewrite H, H2. now rewrite app_assoc.
Qed.

Lemma quota_only_truncates_witness :
  exists more,
    ImageProcessor.extractImportantImages noURL (Some twice_page) 5 None
    = (ImageProcessor.extractImportantImages noURL (Some twice_page) 1 None
       ++ more)%list.
Proof.
  apply (quota_only_truncates noURL (Some twice_page) None 1 5). lia.
Defined.

(** X27: a schema found in JSON-LD is the schema of the page: when
    [extractJsonLdSchema] returns one, [extractSchema] returns it
    whatever the microdata and RDFa extractors would find. *)
Theorem jsonld_takes_precedence :
  forall (extractMicrodataSchema extractRdfaSchema :
            Dom.document -> option Json.json)
         (dom : Dom.document) (schema : Json.json),
    SchemaDetector.extractJsonLdSchema dom = Some schema ->
    SchemaDetector.extractSchema extractMicrodataSchema extractRdfaSchema
      (Some dom)
    = Some schema.
Proof.
  intros extractMicrodataSchema extractRdfaSchema dom schema H.
  unfold SchemaDetector.extractSchema. rewrite H.
  destruct (scanScripts_typed _ _ H) as (fields & -> & _). reflexivity.
Qed.

Lemma jsonld_takes_precedence_witness :
  SchemaDetector.extractSchema (fun _ => None) (fun _ => None)
    (Some product_page)
  = Some (Json.JObject
            [(Json.codes "@type", Json.JString (Json.codes "Product"));
             (Json.codes "offers",
              Json.JObject [(Json.codes "price",
                             Json.JString (Json.codes "19.99"))])]).
Proof.
  apply (jsonld_takes_precedence (fun _ => None) (fun _ => None) product_page).
  vm_compute. reflexivity.
Defined.

(** ** Further properties of the schema and image code *)

Section SchemaMembers.

Import Json SchemaDetector.

Lemma ustring_eqb_eq a b : ustring_eqb a b = true <-> a = b.
Proof.
  revert b. induction a as [|x a IH]; intros [|y b]; simpl;
    try (split; [discriminate | congruence]).
  - tauto.
  - rewrite andb_true_iff, N.eqb_eq, IH. split.
    + intros [-> ->]. reflexivity.
    + intros [= -> ->]. auto.
Qed.

Lemma codes_injective a b : codes a = codes b -> a = b.
Proof.
  revert b. induction a as [|x a IH]; intros [|y b]; simpl;
    try discriminate; [reflexivity|].
  intros [= Hxy Hab]. f_equal; [|now apply IH].
  rewrite <- (ascii_N_embedding x), <- (ascii_N_embedding y). now rewrite Hxy.
Qed.

Lemma lookup_setMember_other key key' v fields :
  key <> key' ->
  lookup key (setMember key' v fields) = lookup key fields.
Proof.
  intros Hne. induction fields as [|[k w] fields IH]; simpl.
  - destruct (ustring_eqb key' key) eqn:E; [|reflexivity].
    apply ustring_eqb_eq in E. congruence.
  - destruct (ustring_eqb k key') eqn:E; simpl.
    + apply ustring_eqb_eq in E. subst k.
      destruct (ustring_eqb key' key) eqn:E'; [|reflexivity].
      apply ustring_eqb_eq in E'. congruence.
    + now rewrite IH.
Qed.

End SchemaMembers.

(** X28: [normalizeSchema] changes nothing but [@type]: every other
    property of a schema object reads the same before and after. *)
Theorem normalizeSchema_keeps_properties :
  forall (fields : list (Json.ustring * Json.json)) (key : string),
    key <> "@type" ->
    Json.getPropOpt
      (Some (SchemaDetector.normalizeSchema (Json.JObject fields))) key
    = Json.getPropOpt (Some (Json.JObject fields)) key.
Proof.
  intros fields key Hkey. unfold SchemaDetector.normalizeSchema.
  destruct (Json.lookup (Json.codes "@type") fields)
    as [[| | | |[|single [|]]|]|]; try reflexivity.
  unfold Json.getPropOpt. apply lookup_setMember_other.
  intros H. apply codes_injective in H. congruence.
Qed.

Lemma normalizeSchema_keeps_properties_witness :
  Json.getPropOpt
    (Some (SchemaDetector.normalizeSchema
             (Json.JObject
                [(Json.codes "@type",
                  Json.JArray [Json.JString (Json.codes "Product")]);
                 (Json.codes "name", Json.JString (Json.codes "Lamp"))])))
    "name"
  = Json.getPropOpt
      (Some (Json.JObject
               [(Json.codes "@type",
                 Json.JArray [Json.JString (Json.codes "Product")]);
                (Json.codes "name", Json.JString (Json.codes "Lamp"))]))
      "name".
Proof.
  apply (normalizeSchema_keeps_properties
           [(Json.codes "@type",
             Json.JArray [Json.JString (Json.codes "Product")]);
            (Json.codes "name", Json.JString (Json.codes "Lamp"))] "name").
  discriminate.
Defined.

Section AcceptedImages.

Import JsString Dom ImageProcessor.

(** Every candidate comes from an accepted attribute value, whatever the
    quota. *)
Lemma extractImportantImages_accepted newURL dom maxImages baseUrl c :
  In c (extractImportantImages newURL dom maxImages baseUrl) ->
  accepted newURL baseUrl (src c).
Proof.
  unfold extractImportantImages. destruct dom as [d|]; [|intros []].
  fold initialState.
  pose proof (firstPhase_SeenInv newURL maxImages baseUrl d)
    as (_ & _ & Hall).
  set (st1 := forSelectors _ _ _ _ _ _) in *.
  assert (Hfirst : In c (images st1) -> accepted newURL baseUrl (src c)).
  { intros Hc. rewrite Forall_forall in Hall. now apply Hall. }
  destruct (finished st1); [exact Hfirst|].
  destruct (Z.ltb_spec (Z.of_nat (List.length (images st1))) maxImages)
    as [Hlt|Hge]; [|exact Hfirst].
  set (scored := sortScored _).
  destruct (addScored_spec maxImages scored st1 ltac:(lia))
    as (_ & added & Hadd & Hadded).
  rewrite Hadd, in_app_iff. intros [Hc|Hc]; [now apply Hfirst|].
  rewrite Forall_forall in Hadded.
  destruct (Hadded c Hc) as (_ & x & Hx & ->).
  subst scored. rewrite sortScored_In in Hx.
  apply scoreRemaining_In in Hx. tauto.
Qed.

End AcceptedImages.

(** X29: without a base URL, as the pipeline calls it,
    [extractImportantImages] never returns a data URI of 100 characters
    or less: such an address, typical of tracking pixels and
    placeholders, is refused by [isValidImageUrl] wherever it stands. *)
Theorem short_data_uris_are_dropped :
  forall (newURL : string -> option string -> option ImageProcessor.URL)
         (dom : option Dom.document) (maxImages : Z)
         (c : ImageProcessor.ImageCandidate),
    In c (ImageProcessor.extractImportantImages newURL dom maxImages None) ->
    JsString.startsWith (ImageProcessor.src c) "data:" = true ->
    100 < String.length (ImageProcessor.src c).
Proof.
  intros newURL dom maxImages c Hin Hdata.
  apply extractImportantImages_accepted in Hin.
  destruct Hin as (raw & Hvalid & Hres & Hne).
  assert (Hraw : ImageProcessor.src c = raw).
  { apply resolveImageUrl_cases in Hres.
    destruct Hres as [[H _] | [[H _] | (b & base & resolved & H & _)]];
      [exact H | exact H | discriminate H]. }
  rewrite Hraw in *. clear Hraw Hres.
  unfold ImageProcessor.isValidImageUrl in Hvalid.
  destruct raw as [|r raw']; [congruence|].
  rewrite Hdata in Hvalid. now apply Nat.ltb_lt.
Qed.

Lemma short_data_uris_are_dropped_witness :
  100 < String.length svg_data_uri.
Proof.
  apply (short_data_uris_are_dropped noURL (Some svg_page) 5
           {| ImageProcessor.src := svg_data_uri;
              ImageProcessor.alt := EmptyString;
              ImageProcessor.width := None;
              ImageProcessor.height := None;
              ImageProcessor.priority := true |}).
  - vm_compute. left. reflexivity.
  - reflexivity.
Defined.

(** The summary of the three-sentence text is not empty. *)
Lemma summarize_empty_iff_witness :
  TextSummarizer.summarize (fun _ _ _ _ => 0%Z) three_sentences 3 280
  = EmptyString
  <-> three_sentences = EmptyString.
Proof.
  apply (summarize_empty_iff (fun _ _ _ _ => 0%Z) three_sentences 3 280); lia.
Defined.

(** ** Readability service: the article of a document *)

